(** * modSTR: the document pipeline, the usage ledger and the project store

    A shallow embedding of the processing core of the application:
    - [services/geminiService] (the AI gateway and its usage log),
    - [App.tsx] (allowance checks, ledger reads, the metadata deriver, the
      document pipeline and its queue worker, the snapshot loader),
    - [ProjectView.handleGenerateReport] as far as it writes projects back.

    Conventions.  JavaScript strings are [string]s (ASCII text); numbers that
    count tokens, reports or megabytes are integers ([Z]); [undefined] and
    [null] are [None].  An [async] function is a tree ([Async]) whose nodes
    are its synchronous effects and its [await]s, so that it can be run to
    completion against an environment or resumed one [await] at a time. *)

From Stdlib Require Import ZArith Lia Bool.
From Stdlib Require Import Strings.String Strings.Ascii.
From stdpp Require Import base tactics option list gmap strings pretty.

Local Open Scope string_scope.
Local Open Scope list_scope.
Local Open Scope Z_scope.

(* ===================================================================== *)
(** * Part I: definitions *)
(* ===================================================================== *)

(** ** JavaScript primitives used by the code *)

Module JS.

(** [!!s] for a string: every string but the empty one is truthy. *)
Definition truthy (s : string) : bool := negb (String.eqb s "").

(** [!!o] for an optional string ([undefined] is falsy). *)
Definition truthy_opt (o : option string) : bool :=
match o with Some s => truthy s | None => false end.

(** [a || b] on numbers: [0] is the falsy number. *)
Definition or_num (a b : Z) : Z := if a =? 0 then b else a.

(** [a || b] on optional strings, [b] a string. *)
Definition or_str (a : option string) (b : string) : string :=
match a with Some s => if truthy s then s else b | None => b end.

(** [s.startsWith(p)]. *)
Definition startsWith (s p : string) : bool := String.prefix p s.

(** [s.includes(sub)]: [sub] occurs somewhere in [s]. *)
Fixpoint includes (s sub : string) : bool :=
String.prefix sub s
|| match s with
   | EmptyString => false
   | String _ s' => includes s' sub
   end.

Definition lower_ascii (c : ascii) : ascii :=
let n := N_of_ascii c in
if ((65 <=? n) && (n <=? 90))%N then ascii_of_N (n + 32) else c.

(** [s.toLowerCase()] on ASCII text. *)
Fixpoint toLowerCase (s : string) : string :=
match s with
| EmptyString => EmptyString
| String c s' => String (lower_ascii c) (toLowerCase s')
end.

Fixpoint trimStart (s : string) : string :=
match s with
| EmptyString => EmptyString
| String c s' => if Ascii.is_space c then trimStart s' else s
end.

(** [s.trim()]. *)
Definition trim (s : string) : string :=
String.rev (trimStart (String.rev (trimStart s))).

(** [s.substring(0, n)]. *)
Definition take (n : Z) (s : string) : string := String.substring 0 (Z.to_nat n) s.

(** [l.join(sep)]. *)
Definition join (sep : string) (l : list string) : string := String.concat sep l.

(** [s.split(sep)] for a non-empty separator.  [skip] counts the characters
  of a separator just matched that are still to be passed over; [cur] is
  the current piece, reversed. *)
Fixpoint split_go (sep : string) (skip : nat) (cur s : string) : list string :=
match s with
| EmptyString => [String.rev cur]
| String c s' =>
    match skip with
    | S k => split_go sep k cur s'
    | O =>
        if String.prefix sep s
        then String.rev cur :: split_go sep (String.length sep - 1) EmptyString s'
        else split_go sep 0 (String c cur) s'
    end
end.

Definition split (sep s : string) : list string := split_go sep 0 EmptyString s.

(** [Math.ceil(n / d)] for [n >= 0], [d > 0]. *)
Definition ceil_div (n d : Z) : Z := (n + d - 1) / d.

(** [l.includes(x)] on an array of strings. *)
Definition mem (x : string) (l : list string) : bool :=
existsb (String.eqb x) l.

End JS.

(** ** The data model ([types.ts], [constants.ts]) *)

(** A [File]: what the code reads of it. *)
Record File := mkFile {
  file_name : string;
  file_type : string;   (* mime type; [""] when the browser gives none *)
  file_size : Z;
}.

(** [Document['status']]. *)
Inductive DocStatus :=
| Uploading | Uploaded | Extracting_Text | Classifying | Processed | Error | Unsupported.

Global Instance DocStatus_eq_dec : EqDecision DocStatus.
Proof. solve_decision. Defined.

Global Instance File_eq_dec : EqDecision File.
Proof. solve_decision. Defined.

Record Document := mkDocument {
  doc_id : string;
  doc_projectId : string;
  fileName : string;
  fileType : string;
  docTypes : option (list string);
  file : option File;
  uploadDate : string;
  status : DocStatus;
  extractedText : option string;
  progress : option Z;
  error : option string;
}.

Global Instance Document_eq_dec : EqDecision Document.
Proof. solve_decision. Defined.

Record Report := mkReport {
  rep_id : string;
  rep_projectId : string;
  generatedAt : string;
  rep_finalized : bool;              (* status: 'Draft' | 'Finalized' *)
  content : string;
  strCategory : option string;
  summary : option string;
  riskFlags : option (list string);
  reportFormatUsed : option string;
}.

Global Instance Report_eq_dec : EqDecision Report.
Proof. solve_decision. Defined.

(** A [Project].  [scenario] has the type [Scenario] in the source, a union of
    string literals that is checked against [SCENARIOS] at run time only: it
    is a string here. *)
Record Project := mkProject {
  proj_id : string;
  projectName : string;
  propertyAddress : string;
  clientName : string;
  searchPeriod : string;
  createdAt : string;
  documents : list Document;
  report : option Report;
  scenario : option string;
  missingDocuments : option (list string);
  advocateInstructions : option string;
}.

Global Instance Project_eq_dec : EqDecision Project.
Proof. solve_decision. Defined.

(** [Partial<ProjectDetails>]: what the metadata derivation returns. *)
Record ProjectDetails := mkProjectDetails {
  pd_projectName : option string;
  pd_propertyAddress : option string;
  pd_clientName : option string;
  pd_searchPeriod : option string;
  pd_scenario : option string;
}.

(** The empty object [{}]. *)
Definition noDetails : ProjectDetails := mkProjectDetails None None None None None.

(** [Plan] and [ApiLimits], the rows of the relational store. *)
Record Plan := mkPlan {
  plan_key : Z;
  plan_name : string;
  monthly_limit : Z;
  price_monthly : Z;
  max_input_tokens_per_month : Z;
  max_output_tokens_per_month : Z;
  max_strs_per_month : Z;
  max_strs_per_day : Z;
  max_file_size_mb_per_document : Z;
  max_total_upload_mb_per_str : Z;
}.

Record ApiLimits := mkApiLimits {
  user_id : string;
  plan_id : Z;
  al_monthly_limit : Z;
  used : Z;
  reset_date : string;
  input_tokens_used_monthly : Z;
  output_tokens_used_monthly : Z;
  strs_used_monthly : Z;
}.

(** The keys of the object [SCENARIOS], with the display name of each. *)
Definition SCENARIO_ENTRIES : list (string * string) :=
  [ ("CLEAR_FREEHOLD_PLOT", "Clear Freehold Plot");
    ("FLAT_IN_SOCIETY", "Flat in a Society");
    ("AGRICULTURAL_LAND", "Agricultural Land");
    ("NA_PLOT", "NA Plot");
    ("MORTGAGED_PROPERTY", "Mortgaged Property");
    ("COURT_CASE_LITIGATION", "Court Case / Litigation");
    ("UNDER_CONSTRUCTION", "Under Construction");
    ("INDUSTRIAL_PLOT", "Industrial Plot");
    ("INHERITED_PROPERTY", "Inherited Property");
    ("JOINT_OWNERSHIP", "Joint Ownership");
    ("REDEVELOPMENT_PROPERTY", "Redevelopment Property");
    ("UNKNOWN", "Unknown") ].

(** [SCENARIOS], an object used as a map from scenario key to its entry;
    [SCENARIOS[k]] is truthy exactly on the keys of the literal. *)
Definition SCENARIOS : gmap string string := list_to_map SCENARIO_ENTRIES.


(** [s && SCENARIOS[s]] as a condition. *)
Definition knownScenario (s : option string) : bool :=
  match s with
  | Some k => JS.truthy k && bool_decide (is_Some (SCENARIOS !! k))
  | None => false
  end.

(** ** The AI gateway ([services/geminiService]) *)

Definition UNSUPPORTED_FOR_EXTRACTION : string := "UNSUPPORTED_FOR_EXTRACTION".
Definition RATE_LIMIT_EXCEEDED : string := "RATE_LIMIT_EXCEEDED".

(** [estimateTokens(text)]. *)
Definition estimateTokens (text : option string) : Z :=
  match text with
  | None => 0
  | Some t => if JS.truthy t then JS.ceil_div (Z.of_nat (String.length t)) 4 else 0
  end.

(** What happens inside a [try] block that calls the provider: either
    something throws (the [catch] sees [error.toString()]), or
    [generateContent] answers and [response.text] is a string or is missing. *)
Inductive ProviderOutcome :=
| Rejected (errMessage : string)
| Responded (text : option string).

(** [extractTextFromFile] first reads the file ([fileToGenerativePart]), which
    can reject before the prompt is measured. *)
Inductive ExtractOutcome :=
| FileReadFailed (errMessage : string)
| FileRead (o : ProviderOutcome).

(** The arguments of one [logAiCall]. *)
Record LogCall := mkLogCall {
  log_model : string;
  log_apiEndpointType : string;
  log_promptTokens : Z;
  log_completionTokens : Z;
  log_success : bool;
  log_errorMessage : option string;
}.

(** The prompt texts.  Only their length is observable, through the token
    estimate written to the usage log, so the templates are parameters. *)
Record PromptText := mkPromptText {
  classifyPrompt : string -> string;          (* of [documentText.substring(0, 2000)] *)
  detailsPrompt : string -> string;           (* of [documentText.substring(0, 30000)] *)
  completenessPrompt : list string -> list string -> string;  (* required, uploaded *)
  generateRAGPrompt : Project -> string -> string -> option string -> string;
  reformatPrompt : string -> string -> option string -> string;
}.

(** [JSON.parse] at the three result types of the gateway; [None] is a
    [SyntaxError]. *)
Record JsonParse := mkJsonParse {
  parseDetails : string -> option ProjectDetails;
  parseStringArray : string -> option (list string);
  parseReport : string -> option (string * option string * option string * option (list string));
  syntaxErrorMessage : string -> string;      (* [parseError.message] *)
}.

Definition SUPPORTED_MIME_TYPES_FOR_EXTRACTION : list string :=
  [ "image/jpeg"; "image/png"; "image/webp"; "application/pdf";
    "image/gif"; "image/bmp"; "image/heic"; "image/heif";
    "application/vnd.ms-excel"; "text/html" ].

Definition DOCX_MIME : string :=
  "application/vnd.openxmlformats-officedocument.wordprocessingml.document".

Definition KNOWN_UNSUPPORTED_MIME_TYPES : list string :=
  [ "application/msword";
    DOCX_MIME;
    "application/vnd.openxmlformats-officedocument.spreadsheetml.sheet";
    "text/csv";
    "application/zip";
    "application/x-zip-compressed";
    "video/x-msvideo";
    "text/css";
    "application/xml";
    "text/xml";
    "application/octet-stream" ].

Definition extractionPrompt : string :=
  "Extract all text content from this document. Preserve formatting like paragraphs and line breaks where possible. If the document is unreadable or contains no text, return 'Error: Unable to extract text from the provided file.'".

Definition docxPlaceholder (name : string) : string :=
  "[Text content from DOCX file: " +:+ name +:+
  ". Direct AI text extraction for DOCX is not fully supported for initial document processing. Please consider converting to PDF or copy-pasting content for re-formatting.]".

(** The rate-limit test of the [catch] blocks.  [classifyDocument] looks for
    [RESOURCE_EXHAUSTED]; the five other operations look for
    [RESOURCE_EXCEEDED]. *)
Definition isRateLimit_EXCEEDED (errMessage : string) : bool :=
  JS.includes errMessage "429" || JS.includes errMessage "RESOURCE_EXCEEDED".

Definition isRateLimit_EXHAUSTED (errMessage : string) : bool :=
  JS.includes errMessage "429" || JS.includes errMessage "RESOURCE_EXHAUSTED".

(** [response.text?.trim()], the [jsonText] of the structured operations. *)
Definition trimmedText (text : option string) : option string := JS.trim <$> text.

(** [!response || !response.text || response.text.trim() === ''] *)
Definition blankText (text : option string) : bool :=
  negb (JS.truthy_opt text) || String.eqb (JS.trim (default "" text)) "".

(** The [finally] block of the flash operations. *)
Definition logFlash (apiEndpointType : string) (estimatedInputTokens estimatedOutputTokens : Z)
    (actualPromptTokens actualCompletionTokens : Z) (success : bool)
    (errorMessage : option string) : LogCall :=
  mkLogCall "gemini-2.5-flash" apiEndpointType
    (JS.or_num actualPromptTokens estimatedInputTokens)
    (JS.or_num actualCompletionTokens estimatedOutputTokens) success errorMessage.

(** *** [extractTextFromFile]

    Each operation of the gateway is given in two parts: what it decides
    before the provider is called (a result and a log call, when it does not
    call the provider at all), and what it makes of the provider's outcome.
    The [async] functions themselves follow the application's requests. *)

Definition extractTextFromFile_local (file : File) (estimatedInputTokens : Z)
    (apiEndpointType : string) : option (string * LogCall) :=
  if negb (JS.truthy (file_type file)) || JS.mem (file_type file) KNOWN_UNSUPPORTED_MIME_TYPES
  then
    let result :=
      if String.eqb (file_type file) DOCX_MIME
      then docxPlaceholder (file_name file)
      else UNSUPPORTED_FOR_EXTRACTION in
    Some (result,
          mkLogCall "N/A_CLIENT_UNSUPPORTED" apiEndpointType estimatedInputTokens 0 true
            (Some "Client-side unsupported file type"))
  else if negb (JS.mem (file_type file) SUPPORTED_MIME_TYPES_FOR_EXTRACTION)
  then
    let result :=
      "Error: Unsupported file type for AI text extraction: " +:+ file_name file +:+
      ". Only images and PDFs can be processed." in
    Some (result,
          mkLogCall "N/A_CLIENT_UNSUPPORTED" apiEndpointType estimatedInputTokens 0 false
            (Some result))
  else None.

Definition extractTextFromFile_outcome (estimatedInputTokens estimatedOutputTokens : Z)
    (apiEndpointType : string) (o : ExtractOutcome) : string * LogCall :=
  let log := logFlash apiEndpointType estimatedInputTokens estimatedOutputTokens in
  let catch actualPromptTokens errMessage :=
    if isRateLimit_EXCEEDED errMessage
    then (RATE_LIMIT_EXCEEDED, log actualPromptTokens 0 false (Some "Rate limit exceeded"))
    else ("Error: The text extraction process failed.",
          log actualPromptTokens 0 false (Some errMessage)) in
  match o with
  | FileReadFailed errMessage => catch 0 errMessage
  | FileRead o =>
      let actualPromptTokens := estimateTokens (Some extractionPrompt) in
      match o with
      | Responded text =>
          if blankText text
          then
            let result := "Error: Empty or invalid text content from AI." in
            (result, log actualPromptTokens 0 false (Some result))
          else
            let result := JS.trim (default "" text) in
            (result, log actualPromptTokens (estimateTokens (Some result)) true None)
      | Rejected errMessage => catch actualPromptTokens errMessage
      end
  end.

(** *** [classifyDocument] *)

(** The array literal joined into [DOCUMENT_TYPES]. *)
Definition DOCUMENT_TYPE_NAMES : list string :=
  [ "Sale Deed"; "Mutation Entry"; "Loan Agreement"; "Property Tax Receipt";
    "Power of Attorney"; "Title Search Report"; "Encumbrance Certificate";
    "Building Plan Approval"; "Society Share Certificate"; "Society NOC";
    "NA Order"; "7/12 Extract"; "Lease Deed"; "Agreement for Sale";
    "Will / Probate"; "Partition Deed"; "Occupancy Certificate";
    "RERA Registration Certificate"; "Redevelopment Agreement";
    "Legal Heir Certificate"; "CERSAI Report"; "Commencement Certificate";
    "Layout Plan"; "Other" ].

Definition DOCUMENT_TYPES : string := JS.join ", " DOCUMENT_TYPE_NAMES.

(** The label chosen for a non-blank answer of the provider. *)
Definition matchClassification (classification : string) : string :=
  if JS.includes (JS.toLowerCase DOCUMENT_TYPES) (JS.toLowerCase classification)
  then
    let typesArray := JS.split ", " DOCUMENT_TYPES in
    let matchedType :=
      List.find (fun t => String.eqb (JS.toLowerCase t) (JS.toLowerCase classification))
                typesArray in
    JS.or_str matchedType "Other"
  else "Other".

Definition classifyDocument_prompt (P : PromptText) (documentText : string) : string :=
  classifyPrompt P (JS.take 2000 documentText).

Definition classifyDocument_outcome (P : PromptText) (documentText : string)
    (estimatedInputTokens estimatedOutputTokens : Z)
    (apiEndpointType : string) (o : ProviderOutcome) : string * LogCall :=
  let actualPromptTokens := estimateTokens (Some (classifyDocument_prompt P documentText)) in
  let log := logFlash apiEndpointType estimatedInputTokens estimatedOutputTokens
               actualPromptTokens in
  match o with
  | Responded text =>
      if blankText text
      then ("Other", log 0 false (Some "Empty or invalid text content from AI."))
      else
        let classification := JS.trim (default "" text) in
        (matchClassification classification,
         log (estimateTokens (Some classification)) true None)
  | Rejected errMessage =>
      if isRateLimit_EXHAUSTED errMessage
      then (RATE_LIMIT_EXCEEDED, log 0 false (Some "Rate limit exceeded"))
      else ("Error", log 0 false (Some errMessage))
  end.

(** *** [extractProjectDetailsAndScenario] *)

(** [Partial<ProjectDetails> | typeof RATE_LIMIT_EXCEEDED] *)
Inductive DetailsResult :=
| DetailsRateLimited
| Details (d : ProjectDetails).

(** Blank text: an empty result without a call to the provider. *)
Definition extractProjectDetailsAndScenario_local (documentText : string)
    (estimatedInputTokens estimatedOutputTokens : Z) (apiEndpointType : string)
  : option (DetailsResult * LogCall) :=
  if negb (JS.truthy documentText) || (String.length (JS.trim documentText) =? 0)%nat
  then Some (Details noDetails,
             mkLogCall "N/A" apiEndpointType estimatedInputTokens estimatedOutputTokens
               true None)
  else None.

Definition extractProjectDetailsAndScenario_prompt (P : PromptText) (documentText : string)
  : string :=
  detailsPrompt P (JS.take 30000 documentText).

Definition extractProjectDetailsAndScenario_outcome (P : PromptText) (J : JsonParse)
    (documentText : string) (estimatedInputTokens estimatedOutputTokens : Z)
    (apiEndpointType : string) (o : ProviderOutcome) : DetailsResult * LogCall :=
  let actualPromptTokens :=
    estimateTokens (Some (extractProjectDetailsAndScenario_prompt P documentText)) in
  let log := logFlash apiEndpointType estimatedInputTokens estimatedOutputTokens
               actualPromptTokens in
  match o with
  | Responded text =>
      let jsonText := trimmedText text in
      let actualCompletionTokens := estimateTokens jsonText in
      if negb (JS.truthy_opt jsonText)
      then (Details noDetails, log actualCompletionTokens false (Some "Empty response from AI."))
      else
        match parseDetails J (default "" jsonText) with
        | Some d => (Details d, log actualCompletionTokens true None)
        | None =>
            (Details noDetails,
             log actualCompletionTokens false
               (Some ("Failed to parse AI response: " +:+
                      syntaxErrorMessage J (default "" jsonText))))
        end
  | Rejected errMessage =>
      if isRateLimit_EXCEEDED errMessage
      then (DetailsRateLimited, log 0 false (Some "Rate limit exceeded"))
      else (Details noDetails, log 0 false (Some errMessage))
  end.

(** *** [analyzeDocumentCompleteness] *)

(** [string[] | typeof RATE_LIMIT_EXCEEDED] *)
Inductive CompletenessResult :=
| MissingRateLimited
| Missing (l : list string).

Definition analyzeDocumentCompleteness_outcome (P : PromptText) (J : JsonParse)
    (uploadedDocTypes requiredDocTypes : list string)
    (estimatedInputTokens estimatedOutputTokens : Z)
    (apiEndpointType : string) (o : ProviderOutcome) : CompletenessResult * LogCall :=
  let actualPromptTokens :=
    estimateTokens (Some (completenessPrompt P requiredDocTypes uploadedDocTypes)) in
  let log := logFlash apiEndpointType estimatedInputTokens estimatedOutputTokens
               actualPromptTokens in
  match o with
  | Responded text =>
      let jsonText := trimmedText text in
      let actualCompletionTokens := estimateTokens jsonText in
      if negb (JS.truthy_opt jsonText)
      then (Missing [], log actualCompletionTokens false (Some "Empty response from AI."))
      else
        match parseStringArray J (default "" jsonText) with
        | Some l => (Missing l, log actualCompletionTokens true None)
        | None =>
            (Missing [],
             log actualCompletionTokens false
               (Some ("Failed to parse AI response: " +:+
                      syntaxErrorMessage J (default "" jsonText))))
        end
  | Rejected errMessage =>
      if isRateLimit_EXCEEDED errMessage
      then (MissingRateLimited, log 0 false (Some "Rate limit exceeded"))
      else (Missing [], log 0 false (Some errMessage))
  end.

(** *** [generateReport] and [reformatReport] *)

(** [Partial<Report> & { error?: string }], the result of the report
    operations. *)
Record ReportResult := mkReportResult {
  rr_content : option string;
  rr_summary : option string;
  rr_strCategory : option string;
  rr_riskFlags : option (list string);
  rr_error : option string;
}.

Definition reportError (e : string) : ReportResult :=
  mkReportResult None None None None (Some e).

(** The text of the processed documents of a project, each chunk under its
    file name (used by [generateReport], [runProjectDetailExtraction] and
    [handleGenerateReport]). *)
Definition aggregateText (docs : list Document) : string :=
  JS.join (String "010" (String "010" ""))
    (map (fun d => "--- Document: " +:+ fileName d +:+ " ---" +:+ String "010" "" +:+
                   default "" (extractedText d))
         (filter (fun d => status d = Processed /\ JS.truthy_opt (extractedText d) = true)
                 docs)).

Definition logPro (apiEndpointType : string) (estimatedInputTokens estimatedOutputTokens : Z)
    (actualPromptTokens actualCompletionTokens : Z) (success : bool)
    (errorMessage : option string) : LogCall :=
  mkLogCall "gemini-2.5-pro" apiEndpointType
    (JS.or_num actualPromptTokens estimatedInputTokens)
    (JS.or_num actualCompletionTokens estimatedOutputTokens) success errorMessage.

(** No processed text: the early [return] lies inside the [try], so the
    [finally] logs it too. *)
Definition generateReport_local (project : Project)
    (estimatedInputTokens estimatedOutputTokens : Z) (apiEndpointType : string)
  : option (ReportResult * LogCall) :=
  if negb (JS.truthy (aggregateText (documents project)))
  then Some (reportError "No processed documents found to generate report.",
             logPro apiEndpointType estimatedInputTokens estimatedOutputTokens 0 0 false None)
  else None.

Definition generateReport_prompt (P : PromptText) (project : Project) (reportFormat : string)
  : string :=
  generateRAGPrompt P project (aggregateText (documents project)) reportFormat
    (advocateInstructions project).

Definition generateReport_outcome (P : PromptText) (J : JsonParse) (project : Project)
    (reportFormat : string) (estimatedInputTokens estimatedOutputTokens : Z)
    (apiEndpointType : string) (o : ProviderOutcome) : ReportResult * LogCall :=
  let actualPromptTokens :=
    estimateTokens (Some (generateReport_prompt P project reportFormat)) in
  let log := logPro apiEndpointType estimatedInputTokens estimatedOutputTokens
               actualPromptTokens in
  match o with
  | Responded text =>
      let jsonText := trimmedText text in
      let actualCompletionTokens := estimateTokens jsonText in
      if JS.truthy_opt jsonText
      then
        match parseReport J (default "" jsonText) with
        | Some (c, sm, cat, flags) =>
            (mkReportResult (Some c) sm cat flags None, log actualCompletionTokens true None)
        | None =>
            (reportError "Failed to parse AI response.",
             log actualCompletionTokens false
               (Some (syntaxErrorMessage J (default "" jsonText))))
        end
      else (reportError "Empty response from AI.",
            log actualCompletionTokens false (Some "Empty response"))
  | Rejected errMessage =>
      if isRateLimit_EXCEEDED errMessage
      then (reportError RATE_LIMIT_EXCEEDED, log 0 false (Some "Rate limit exceeded"))
      else (reportError errMessage, log 0 false (Some errMessage))
  end.

(** Blank content: the call is logged before the early [return], and once
    more by the [finally] that the [return] passes through. *)
Definition reformatReport_local (inputReportContent : string)
    (estimatedInputTokens estimatedOutputTokens : Z) (apiEndpointType : string)
  : option (ReportResult * LogCall * LogCall) :=
  if negb (JS.truthy (JS.trim inputReportContent))
  then Some (reportError "No content provided for re-formatting.",
             mkLogCall "N/A" apiEndpointType estimatedInputTokens estimatedOutputTokens
               true None,
             logFlash apiEndpointType estimatedInputTokens estimatedOutputTokens 0 0 true None)
  else None.

Definition reformatReport_prompt (P : PromptText) (inputReportContent targetFormat : string)
    (advocateInstructions : option string) : string :=
  reformatPrompt P targetFormat (JS.take 30000 inputReportContent) advocateInstructions.

Definition reformatReport_outcome (P : PromptText) (inputReportContent targetFormat : string)
    (advocateInstructions : option string) (estimatedInputTokens estimatedOutputTokens : Z)
    (apiEndpointType : string) (o : ProviderOutcome) : ReportResult * LogCall :=
  let actualPromptTokens :=
    estimateTokens
      (Some (reformatReport_prompt P inputReportContent targetFormat advocateInstructions)) in
  let log := logFlash apiEndpointType estimatedInputTokens estimatedOutputTokens
               actualPromptTokens in
  match o with
  | Responded text =>
      let resultText := trimmedText text in
      let actualCompletionTokens := estimateTokens resultText in
      if negb (JS.truthy_opt resultText)
      then (reportError "Empty response from AI.",
            log actualCompletionTokens false (Some "Empty response from AI."))
      else (mkReportResult resultText None None None None,
            log actualCompletionTokens true None)
  | Rejected errMessage =>
      if isRateLimit_EXCEEDED errMessage
      then (reportError RATE_LIMIT_EXCEEDED, log 0 false (Some "Rate limit exceeded"))
      else (reportError ("Failed to reformat report: " +:+ errMessage),
            log 0 false (Some errMessage))
  end.

(** ** Asynchronous functions

    An [async] function is a tree: it returns, throws, performs a synchronous
    effect ([Do], for instance a React state setter, which the code always
    calls with an updater function) or suspends at an [await] on a request to
    the outside ([Await]) and goes on with the answer. *)

Section Async.
Context (Act : Type) (Req : Type) (Resp : Req -> Type).

Inductive Async (R : Type) : Type :=
| Return (r : R)
| Throw (message : string)
| Do (a : Act) (k : Async R)
| Await (q : Req) (k : Resp q -> Async R).

Arguments Return {R} r.
Arguments Throw {R} message.
Arguments Do {R} a k.
Arguments Await {R} q k.

(** Sequencing: [const x = await m; f(x)]. *)
Fixpoint bind {A B : Type} (m : Async A) (f : A -> Async B) : Async B :=
match m with
| Return a => f a
| Throw e => Throw e
| Do a k => Do a (bind k f)
| Await q k => Await q (fun x => bind (k x) f)
end.

(** [try { m } catch (error) { h(error.message) }] *)
Fixpoint try_catch {A : Type} (m : Async A) (h : string -> Async A) : Async A :=
match m with
| Return a => Return a
| Throw e => h e
| Do a k => Do a (try_catch k h)
| Await q k => Await q (fun x => try_catch (k x) h)
end.

(** [try { m } finally { fin }]: [fin] runs on every way out of [m]. *)
Fixpoint finally {A : Type} (m : Async A) (fin : Async unit) : Async A :=
match m with
| Return a => bind fin (fun _ => Return a)
| Throw e => bind fin (fun _ => Throw e)
| Do a k => Do a (finally k fin)
| Await q k => Await q (fun x => finally (k x) fin)
end.

(** How a call ended. *)
Inductive Outcome (R : Type) : Type :=
| Returned (r : R)
| Thrown (message : string).

Arguments Returned {R} r.
Arguments Thrown {R} message.

Section Run.
Context {S W : Type}.
(** The effect of a synchronous action on the state. *)
Variable exec : Act -> S -> S.
(** The outside world: it answers a request and moves on. *)
Variable respond : forall q : Req, W -> Resp q * W.

(** The call run to completion: how it ended, the state and the world
it left, and the requests it made, in order. *)
Fixpoint run {R : Type} (m : Async R) (s : S) (w : W)
: Outcome R * S * W * list Req :=
match m with
| Return r => (Returned r, s, w, [])
| Throw e => (Thrown e, s, w, [])
| Do a k => run k (exec a s) w
| Await q k =>
  let '(x, w') := respond q w in
  let '(o, s', w'', qs) := run (k x) s w' in
  (o, s', w'', q :: qs)
end.

(** The synchronous prefix of a call: everything up to the next [await]
(JavaScript runs it without interruption). *)
Fixpoint advance {R : Type} (m : Async R) (s : S) : Async R * S :=
match m with
| Do a k => advance k (exec a s)
| _ => (m, s)
end.
End Run.
End Async.

Arguments Return {Act Req Resp R} r.
Arguments Throw {Act Req Resp R} message.
Arguments Do {Act Req Resp R} a k.
Arguments Await {Act Req Resp R} q k.
Arguments bind {Act Req Resp A B} m f.
Arguments try_catch {Act Req Resp A} m h.
Arguments finally {Act Req Resp A} m fin.
Arguments Returned {R} r.
Arguments Thrown {R} message.
Arguments run {Act Req Resp S W} exec respond {R} m s w.
Arguments advance {Act Req Resp S} exec {R} m s.

Global Instance Async_ret {Act Req Resp} : MRet (Async Act Req Resp) :=
  fun R r => Return r.
Global Instance Async_bind {Act Req Resp} : MBind (Async Act Req Resp) :=
  fun A B f m => bind m f.

(** ** The relational store and the clock *)

(** The answer of a [select(...).single()]: the row, no row (error code
    [PGRST116]), or another error with its message. *)
Inductive DbSelect (A : Type) : Type :=
| Row (a : A)
| NoRow
| SelectFailed (message : string).

Arguments Row {A} a.
Arguments NoRow {A}.
Arguments SelectFailed {A} message.

(** The answer of a write: the [error] field, [None] when it succeeded. *)
Definition DbStatus : Type := option string.

(** A row of [daily_usage]. *)
Record DailyUsage := mkDailyUsage {
  str_count : Z;
  input_tokens : Z;
  output_tokens : Z;
}.

(** A [Date]: what the code reads of it.  [isoDay] is
    [toISOString().split('T')[0]]. *)
Record JsDate := mkJsDate {
  getMonth : Z;
  getFullYear : Z;
  isoDay : string;
}.

Inductive SysReq :=
| Now                                                     (* [new Date()] *)
| ParseDate (s : string)                                  (* [new Date(s)] *)
| InsertAiUsage (userId : string) (lg : LogCall)
| SelectDailyUsage (userId day : string)
| UpsertDailyUsage (userId day : string) (row : DailyUsage)
| SelectApiLimits (userId : string)
| UpdateApiLimitsUsage (userId : string) (strs input output : Z)
| UpdateApiLimitsReset (userId : string) (day : string)   (* the three counters to 0 *)
| InsertApiLimits (row : ApiLimits)
| SelectPlan (planId : Z)
| SelectPlanNamed (name : string).

Definition SysResp (q : SysReq) : Type :=
  match q with
  | Now | ParseDate _ => JsDate
  | InsertAiUsage _ _ | UpsertDailyUsage _ _ _ | UpdateApiLimitsUsage _ _ _ _
  | UpdateApiLimitsReset _ _ | InsertApiLimits _ => DbStatus
  | SelectDailyUsage _ _ => DbSelect DailyUsage
  | SelectApiLimits _ => DbSelect ApiLimits
  | SelectPlan _ | SelectPlanNamed _ => DbSelect Plan
  end.

(** [data?.field || 0] on the answer of a select that did not fail. *)
Definition fieldOr0 {A : Type} (f : A -> Z) (r : DbSelect A) : Z :=
  match r with Row a => JS.or_num (f a) 0 | _ => 0 end.

(** [logAiCall].  It never throws: the store reports errors in its answers,
    which are only written to the console. *)
Definition logAiCall {Act : Type} (userId : option string) (lg : LogCall)
  : Async Act SysReq SysResp unit :=
  if negb (JS.truthy_opt userId) then Return tt
  else
    let userId := default "" userId in
    let promptTokens := log_promptTokens lg in
    let completionTokens := log_completionTokens lg in
    today ← Await Now Return;
    let today := isoDay today in
    try_catch
      (_ ← Await (InsertAiUsage userId lg) Return;
       if log_success lg then
         let strCountIncrement :=
           if String.eqb (log_apiEndpointType lg) "generateReport" then 1 else 0 in
         currentDailyUsage ← Await (SelectDailyUsage userId today) Return;
         match currentDailyUsage with
         | SelectFailed _ => Return tt
         | _ =>
             let newStrCount := fieldOr0 str_count currentDailyUsage + strCountIncrement in
             let newInTokens := fieldOr0 input_tokens currentDailyUsage + promptTokens in
             let newOutTokens := fieldOr0 output_tokens currentDailyUsage + completionTokens in
             _ ← Await (UpsertDailyUsage userId today
                          (mkDailyUsage newStrCount newInTokens newOutTokens)) Return;
             Return tt
         end;;
         currentApiLimits ← Await (SelectApiLimits userId) Return;
         match currentApiLimits with
         | Row l =>
             _ ← Await (UpdateApiLimitsUsage userId
                          (JS.or_num (strs_used_monthly l) 0 + strCountIncrement)
                          (JS.or_num (input_tokens_used_monthly l) 0 + promptTokens)
                          (JS.or_num (output_tokens_used_monthly l) 0 + completionTokens))
                   Return;
             Return tt
         | _ => Return tt
         end
       else Return tt)
      (fun _ => Return tt).

(** The store itself: one [api_limits] row per user, one [daily_usage] row
    per user and day, the audit trail, the plans. *)
Record DB := mkDB {
  api_limits : gmap string ApiLimits;
  daily_usage : gmap (string * string) DailyUsage;
  ai_usage : list (string * LogCall);
  plans : list Plan;
}.

Definition setCounters (strs input output : Z) (l : ApiLimits) : ApiLimits :=
  mkApiLimits (user_id l) (plan_id l) (al_monthly_limit l) (used l) (reset_date l)
    input output strs.

Definition setResetDate (day : string) (l : ApiLimits) : ApiLimits :=
  mkApiLimits (user_id l) (plan_id l) (al_monthly_limit l) (used l) day
    (input_tokens_used_monthly l) (output_tokens_used_monthly l) (strs_used_monthly l).

Definition selectOf {A : Type} (o : option A) : DbSelect A :=
  match o with Some a => Row a | None => NoRow end.

(** The world of the ledger: the store, the clock, and for each coming store
    request whether it fails ([true]: the request is answered by an error and
    changes nothing). *)
Record World := mkWorld {
  db : DB;
  today : JsDate;
  parseDate : string -> JsDate;
  faults : list bool;
}.

Definition withDb (d : DB) (w : World) : World :=
  mkWorld d (today w) (parseDate w) (faults w).

Definition nextFault (w : World) : bool * World :=
  match faults w with
  | [] => (false, w)
  | b :: fs => (b, mkWorld (db w) (today w) (parseDate w) fs)
  end.

Definition storeError : string := "store request failed".

(** A write: [f] is its effect on the store. *)
Definition write (f : DB -> DB) (w : World) : DbStatus * World :=
  let '(fault, w) := nextFault w in
  if fault then (Some storeError, w) else (None, withDb (f (db w)) w).

(** A [select ... single()]. *)
Definition select {A : Type} (f : DB -> option A) (w : World) : DbSelect A * World :=
  let '(fault, w) := nextFault w in
  if fault then (SelectFailed storeError, w) else (selectOf (f (db w)), w).

Definition sysRespond (q : SysReq) : World -> SysResp q * World :=
  match q with
  | Now => fun w => (today w, w)
  | ParseDate s => fun w => (parseDate w s, w)
  | InsertAiUsage userId lg =>
      write (fun d => mkDB (api_limits d) (daily_usage d) (ai_usage d ++ [(userId, lg)]) (plans d))
  | SelectDailyUsage userId day =>
      select (fun d => daily_usage d !! (userId, day))
  | UpsertDailyUsage userId day row =>
      write (fun d => mkDB (api_limits d) (<[(userId, day) := row]> (daily_usage d))
                        (ai_usage d) (plans d))
  | SelectApiLimits userId =>
      select (fun d => api_limits d !! userId)
  | UpdateApiLimitsUsage userId strs input output =>
      write (fun d => mkDB (alter (setCounters strs input output) userId (api_limits d))
                        (daily_usage d) (ai_usage d) (plans d))
  | UpdateApiLimitsReset userId day =>
      write (fun d => mkDB (alter (fun l => setResetDate day (setCounters 0 0 0 l)) userId
                              (api_limits d))
                        (daily_usage d) (ai_usage d) (plans d))
  | InsertApiLimits row =>
      write (fun d => mkDB (<[user_id row := row]> (api_limits d))
                        (daily_usage d) (ai_usage d) (plans d))
  | SelectPlan planId =>
      select (fun d => List.find (fun p => plan_key p =? planId) (plans d))
  | SelectPlanNamed name =>
      select (fun d => List.find (fun p => String.eqb (plan_name p) name) (plans d))
  end.

(** ** The application state ([App.tsx]) *)

Record UserUsage := mkUserUsage {
  planName : string;
  monthlyAllowance : Z;
  strsUsedMonthly : Z;
  maxStrsMonthly : Z;
  inputTokensUsedMonthly : Z;
  maxInputTokensMonthly : Z;
  outputTokensUsedMonthly : Z;
  maxOutputTokensMonthly : Z;
  maxFileSizeDocMB : Z;
  maxTotalUploadMB : Z;
  dailyStrsUsed : Z;
  maxStrsDaily : Z;
}.

Record User := mkUser {
  usr_id : string;
  usr_email : string;
  usr_name : string;
  firmName : string;
  usage : option UserUsage;
}.

Record ProcessingQueueItem := mkItem {
  item_projectId : string;
  item_documentId : string;
  item_file : File;
}.

Inductive UsageType :=
| STR_GEN | TOKENS_INPUT | TOKENS_OUTPUT | FILE_SIZE_DOC | FILE_SIZE_TOTAL
| OtherUsage (name : string).

(** The texts shown in toasts, by template. *)
Inductive Message :=
| LimitsNotLoaded
| MonthlyStrLimit (limit : Z) (plan : string)
| DailyUsageCheckError (message : string)
| DailyStrLimit (limit : Z) (plan : string)
| MonthlyInputLimit (limit : Z) (plan : string)
| MonthlyOutputLimit (limit : Z) (plan : string)
| DocumentSizeLimit (limit : Z) (plan : string)
| TotalUploadLimit (limit : Z) (plan : string)
| NoMessage                                   (* [''], on an unknown usage type *)
| ResetFailedInDb (message : string)
| MonthlyUsageReset
| PlanAssignmentFailed (message : string)
| FailedToLoadPlan (message : string).

Inductive ToastType := info | success | toast_error.

(** What a timer runs when it fires. *)
Inductive TimerCallback :=
| AllowRetry                                   (* [setIsProcessing(false)] *)
| RetryDetailExtraction (projectId : string)   (* [runProjectDetailExtraction(projectId)] *)
| CompletenessCheck (projectId : string).      (* the body of [handleCheckCompleteness] *)

(** Calls that are started and not awaited. *)
Inductive Background :=
| FetchUserPlanAndLimits (userId : string)
| RunProjectDetailExtraction (projectId : string).

Record AppState := mkAppState {
  user : option User;
  userPlan : option Plan;
  userApiLimits : option ApiLimits;
  projects : list Project;
  processingQueue : list ProcessingQueueItem;
  isProcessing : bool;
  isExtractingFor : gset string;
  toast : option (Message * ToastType);
  lastFetchDate : string;
  (* the event loop: timers that are set, calls that were started *)
  timers : list (TimerCallback * Z);
  started : list Background;
}.

(** Synchronous effects: the state setters, [setTimeout], unawaited calls.
    [SetProjectsFlagged f projectId followUp] is the [setProjects] of the
    metadata deriver, whose updater maps [f] over the project [projectId]
    and raises a flag when that changes it; the caller reads the flag right
    after and then calls [handleCheckCompleteness], which sets a timer of
    100 ms for [followUp].  (The model runs the updater at the call.) *)
Inductive Action :=
| SetUser (f : option User -> option User)
| SetUserPlan (p : option Plan)
| SetUserApiLimits (l : option ApiLimits)
| SetProjects (f : list Project -> list Project)
| SetProjectsFlagged (f : Project -> Project) (projectId : string) (followUp : TimerCallback)
| SetProcessingQueue (f : list ProcessingQueueItem -> list ProcessingQueueItem)
| SetIsProcessing (b : bool)
| SetIsExtractingFor (f : gset string -> gset string)
| SetToast (m : Message) (ty : ToastType)
| SetLastFetchDate (day : string)
| SetTimeout (cb : TimerCallback) (ms : Z)
| Start (c : Background).

Definition withProjects (ps : list Project) (s : AppState) : AppState :=
  mkAppState (user s) (userPlan s) (userApiLimits s) ps (processingQueue s)
    (isProcessing s) (isExtractingFor s) (toast s) (lastFetchDate s) (timers s) (started s).

Definition withToast (t : option (Message * ToastType)) (s : AppState) : AppState :=
  mkAppState (user s) (userPlan s) (userApiLimits s) (projects s) (processingQueue s)
    (isProcessing s) (isExtractingFor s) t (lastFetchDate s) (timers s) (started s).

Definition withTimers (ts : list (TimerCallback * Z)) (s : AppState) : AppState :=
  mkAppState (user s) (userPlan s) (userApiLimits s) (projects s) (processingQueue s)
    (isProcessing s) (isExtractingFor s) (toast s) (lastFetchDate s) ts (started s).

(** [prev.map(p => p.id === projectId ? f(p) : p)] *)
Definition mapProject (projectId : string) (f : Project -> Project)
  : list Project -> list Project :=
  map (fun p => if String.eqb (proj_id p) projectId then f p else p).

(** Whether the updater [mapProject projectId f] changes a project (it then
    raises the flag that its caller reads). *)
Definition changesProject (projectId : string) (f : Project -> Project)
    (ps : list Project) : bool :=
  existsb (fun p => String.eqb (proj_id p) projectId && negb (bool_decide (f p = p))) ps.

Definition exec (a : Action) (s : AppState) : AppState :=
  match a with
  | SetUser f =>
      mkAppState (f (user s)) (userPlan s) (userApiLimits s) (projects s) (processingQueue s)
        (isProcessing s) (isExtractingFor s) (toast s) (lastFetchDate s) (timers s) (started s)
  | SetUserPlan p =>
      mkAppState (user s) p (userApiLimits s) (projects s) (processingQueue s)
        (isProcessing s) (isExtractingFor s) (toast s) (lastFetchDate s) (timers s) (started s)
  | SetUserApiLimits l =>
      mkAppState (user s) (userPlan s) l (projects s) (processingQueue s)
        (isProcessing s) (isExtractingFor s) (toast s) (lastFetchDate s) (timers s) (started s)
  | SetProjects f => withProjects (f (projects s)) s
  | SetProjectsFlagged f projectId followUp =>
      let s' := withProjects (mapProject projectId f (projects s)) s in
      if changesProject projectId f (projects s)
      then withTimers (timers s' ++ [(followUp, 100)]) s'
      else s'
  | SetProcessingQueue f =>
      mkAppState (user s) (userPlan s) (userApiLimits s) (projects s) (f (processingQueue s))
        (isProcessing s) (isExtractingFor s) (toast s) (lastFetchDate s) (timers s) (started s)
  | SetIsProcessing b =>
      mkAppState (user s) (userPlan s) (userApiLimits s) (projects s) (processingQueue s)
        b (isExtractingFor s) (toast s) (lastFetchDate s) (timers s) (started s)
  | SetIsExtractingFor f =>
      mkAppState (user s) (userPlan s) (userApiLimits s) (projects s) (processingQueue s)
        (isProcessing s) (f (isExtractingFor s)) (toast s) (lastFetchDate s) (timers s) (started s)
  | SetToast m ty =>
      mkAppState (user s) (userPlan s) (userApiLimits s) (projects s) (processingQueue s)
        (isProcessing s) (isExtractingFor s) (Some (m, ty)) (lastFetchDate s) (timers s) (started s)
  | SetLastFetchDate day =>
      mkAppState (user s) (userPlan s) (userApiLimits s) (projects s) (processingQueue s)
        (isProcessing s) (isExtractingFor s) (toast s) day (timers s) (started s)
  | SetTimeout cb ms => withTimers (timers s ++ [(cb, ms)]) s
  | Start c =>
      mkAppState (user s) (userPlan s) (userApiLimits s) (projects s) (processingQueue s)
        (isProcessing s) (isExtractingFor s) (toast s) (lastFetchDate s) (timers s)
        (started s ++ [c])
  end.

(** What the application awaits: the store and the clock, the provider, and
    the usage log ([logAiCall], which answers nothing and never throws; its
    own steps are those of [logAiCall] above). *)
Inductive Request :=
| Sys (q : SysReq)
| GeminiExtract (file : File) (prompt : string)
| GeminiGenerate (model prompt : string)
| LogAiCall (userId : option string) (lg : LogCall).

Definition Response (q : Request) : Type :=
  match q with
  | Sys q => SysResp q
  | GeminiExtract _ _ => ExtractOutcome
  | GeminiGenerate _ _ => ProviderOutcome
  | LogAiCall _ _ => unit
  end.

(** An [async] function of the application. *)
Abbreviation App := (Async Action Request Response).

Definition await (q : Request) : App (Response q) := Await q Return.
Definition perform (a : Action) : App unit := Do a (Return tt).

(** ** The gateway's [async] functions *)

Section Gateway.
Context (P : PromptText) (J : JsonParse).

(** The tail of every operation: log, then return. *)
Definition logged {R : Type} (userId : option string) (r : R * LogCall) : App R :=
await (LogAiCall userId r.2);; Return r.1.

Definition extractTextFromFile (userId : option string) (file : File)
  (estimatedInputTokens estimatedOutputTokens : Z) (apiEndpointType : string)
: App string :=
match extractTextFromFile_local file estimatedInputTokens apiEndpointType with
| Some r => logged userId r
| None =>
    o ← await (GeminiExtract file extractionPrompt);
    logged userId
      (extractTextFromFile_outcome estimatedInputTokens estimatedOutputTokens
         apiEndpointType o)
end.

Definition classifyDocument (userId : option string) (documentText : string)
  (estimatedInputTokens estimatedOutputTokens : Z) (apiEndpointType : string)
: App string :=
o ← await (GeminiGenerate "gemini-2.5-flash" (classifyDocument_prompt P documentText));
logged userId
  (classifyDocument_outcome P documentText estimatedInputTokens estimatedOutputTokens
     apiEndpointType o).

Definition extractProjectDetailsAndScenario (userId : option string) (documentText : string)
  (estimatedInputTokens estimatedOutputTokens : Z) (apiEndpointType : string)
: App DetailsResult :=
match extractProjectDetailsAndScenario_local documentText estimatedInputTokens
        estimatedOutputTokens apiEndpointType with
| Some r => logged userId r
| None =>
    o ← await (GeminiGenerate "gemini-2.5-flash"
                 (extractProjectDetailsAndScenario_prompt P documentText));
    logged userId
      (extractProjectDetailsAndScenario_outcome P J documentText estimatedInputTokens
         estimatedOutputTokens apiEndpointType o)
end.

Definition analyzeDocumentCompleteness (userId : option string)
  (uploadedDocTypes requiredDocTypes : list string)
  (estimatedInputTokens estimatedOutputTokens : Z) (apiEndpointType : string)
: App CompletenessResult :=
o ← await (GeminiGenerate "gemini-2.5-flash"
             (completenessPrompt P requiredDocTypes uploadedDocTypes));
logged userId
  (analyzeDocumentCompleteness_outcome P J uploadedDocTypes requiredDocTypes
     estimatedInputTokens estimatedOutputTokens apiEndpointType o).

Definition generateReport (userId : option string) (project : Project)
  (reportFormat : string) (estimatedInputTokens estimatedOutputTokens : Z)
  (apiEndpointType : string) : App ReportResult :=
match generateReport_local project estimatedInputTokens estimatedOutputTokens
        apiEndpointType with
| Some r => logged userId r
| None =>
    o ← await (GeminiGenerate "gemini-2.5-pro"
                 (generateReport_prompt P project reportFormat));
    logged userId
      (generateReport_outcome P J project reportFormat estimatedInputTokens
         estimatedOutputTokens apiEndpointType o)
end.

Definition reformatReport (userId : option string) (inputReportContent targetFormat : string)
  (advocateInstructions : option string) (estimatedInputTokens estimatedOutputTokens : Z)
  (apiEndpointType : string) : App ReportResult :=
match reformatReport_local inputReportContent estimatedInputTokens estimatedOutputTokens
        apiEndpointType with
| Some (result, lg, lg') => await (LogAiCall userId lg);; logged userId (result, lg')
| None =>
    o ← await (GeminiGenerate "gemini-2.5-flash"
                 (reformatReport_prompt P inputReportContent targetFormat
                    advocateInstructions));
    logged userId
      (reformatReport_outcome P inputReportContent targetFormat advocateInstructions
         estimatedInputTokens estimatedOutputTokens apiEndpointType o)
end.
End Gateway.

(** ** The quota ledger ([App.tsx]) *)

(** [checkApiAllowance], a closure over the state [s] of the render that
    created it.  Only [STR_GEN] awaits anything (today's row of
    [daily_usage]). *)
Definition checkApiAllowance (s : AppState) (usageType : UsageType) (value : Z) : App bool :=
  match userApiLimits s, userPlan s, user s with
  | Some userApiLimits, Some userPlan, Some user =>
      '(isAllowed, message) ←
        match usageType with
        | STR_GEN =>
            let '(isAllowed, message) :=
              if strs_used_monthly userApiLimits + value >? max_strs_per_month userPlan
              then (false, MonthlyStrLimit (max_strs_per_month userPlan) (plan_name userPlan))
              else (true, NoMessage) in
            if isAllowed then
              today ← await (Sys Now);
              dailyUsage ← await (Sys (SelectDailyUsage (usr_id user) (isoDay today)));
              match dailyUsage with
              | SelectFailed m => Return (false, DailyUsageCheckError m)
              | _ =>
                  let dailyStrsUsed := fieldOr0 str_count dailyUsage in
                  if dailyStrsUsed + value >? max_strs_per_day userPlan
                  then Return (false,
                               DailyStrLimit (max_strs_per_day userPlan) (plan_name userPlan))
                  else Return (true, message)
              end
            else Return (isAllowed, message)
        | TOKENS_INPUT =>
            if input_tokens_used_monthly userApiLimits + value
               >? max_input_tokens_per_month userPlan
            then Return (false, MonthlyInputLimit (max_input_tokens_per_month userPlan)
                                  (plan_name userPlan))
            else Return (true, NoMessage)
        | TOKENS_OUTPUT =>
            if output_tokens_used_monthly userApiLimits + value
               >? max_output_tokens_per_month userPlan
            then Return (false, MonthlyOutputLimit (max_output_tokens_per_month userPlan)
                                  (plan_name userPlan))
            else Return (true, NoMessage)
        | FILE_SIZE_DOC =>
            if value >? max_file_size_mb_per_document userPlan
            then Return (false, DocumentSizeLimit (max_file_size_mb_per_document userPlan)
                                  (plan_name userPlan))
            else Return (true, NoMessage)
        | FILE_SIZE_TOTAL =>
            if value >? max_total_upload_mb_per_str userPlan
            then Return (false, TotalUploadLimit (max_total_upload_mb_per_str userPlan)
                                  (plan_name userPlan))
            else Return (true, NoMessage)
        | OtherUsage _ => Return (true, NoMessage)
        end;
      if negb isAllowed
      then perform (SetToast message toast_error);; Return isAllowed
      else Return isAllowed
  | _, _, _ =>
      perform (SetToast LimitsNotLoaded toast_error);; Return false
  end.

Definition resetCounters (day : string) (l : ApiLimits) : ApiLimits :=
  mkApiLimits (user_id l) (plan_id l) (al_monthly_limit l) (used l) day 0 0 0.

Definition userWithUsage (currentPlan : Plan) (currentApiLimits : ApiLimits)
    (dailyStrsUsed : Z) (prevUser : option User) : option User :=
  match prevUser with
  | None => None
  | Some u =>
      Some (mkUser (usr_id u) (usr_email u) (usr_name u) (firmName u)
              (Some (mkUserUsage (plan_name currentPlan) (monthly_limit currentPlan)
                       (strs_used_monthly currentApiLimits) (max_strs_per_month currentPlan)
                       (input_tokens_used_monthly currentApiLimits)
                       (max_input_tokens_per_month currentPlan)
                       (output_tokens_used_monthly currentApiLimits)
                       (max_output_tokens_per_month currentPlan)
                       (max_file_size_mb_per_document currentPlan)
                       (max_total_upload_mb_per_str currentPlan)
                       dailyStrsUsed (max_strs_per_day currentPlan))))
  end.

(** [fetchUserPlanAndLimits], the ledger read. *)
Definition fetchUserPlanAndLimits (userId : string) : App unit :=
  try_catch
    (today ← await (Sys Now);
     let todayStr := isoDay today in
     perform (SetLastFetchDate todayStr);;
     apiLimitsData ← await (Sys (SelectApiLimits userId));
     match apiLimitsData with
     | SelectFailed m => Throw m
     | Row apiLimits =>
         planData ← await (Sys (SelectPlan (plan_id apiLimits)));
         match planData with
         | Row currentPlan =>
             (* client-side monthly usage reset *)
             resetDate ← await (Sys (ParseDate (reset_date apiLimits)));
             currentApiLimits ←
               (if bool_decide (getMonth today ≠ getMonth resetDate)
                   || bool_decide (getFullYear today ≠ getFullYear resetDate)
                then
                  updateResetError ← await (Sys (UpdateApiLimitsReset userId todayStr));
                  match updateResetError with
                  | Some m => perform (SetToast (ResetFailedInDb m) toast_error)
                  | None => perform (SetToast MonthlyUsageReset info)
                  end;;
                  Return (resetCounters todayStr apiLimits)
                else Return apiLimits);
             dailyUsageData ← await (Sys (SelectDailyUsage userId todayStr));
             let dailyStrsUsed := fieldOr0 str_count dailyUsageData in
             perform (SetUserPlan (Some currentPlan));;
             perform (SetUserApiLimits (Some currentApiLimits));;
             perform (SetUser (userWithUsage currentPlan currentApiLimits dailyStrsUsed))
         | NoRow => Throw "PGRST116"
         | SelectFailed m => Throw m
         end
     | NoRow =>
         (* no ledger row: the default plan is assigned *)
         defaultPlanData ← await (Sys (SelectPlanNamed "Basic"));
         match defaultPlanData with
         | Row currentPlan =>
             let newApiLimits :=
               mkApiLimits userId (plan_key currentPlan) (monthly_limit currentPlan) 0
                 todayStr 0 0 0 in
             insertLimitsError ← await (Sys (InsertApiLimits newApiLimits));
             match insertLimitsError with
             | Some m => perform (SetToast (PlanAssignmentFailed m) toast_error)
             | None => Return tt
             end;;
             perform (SetUserPlan (Some currentPlan));;
             perform (SetUserApiLimits (Some newApiLimits));;
             perform (SetUser (userWithUsage currentPlan newApiLimits 0))
         | NoRow => Throw "PGRST116"
         | SelectFailed m => Throw m
         end
     end)
    (fun errorMsg => perform (SetToast (FailedToLoadPlan errorMsg) toast_error)).

(** ** The metadata deriver ([runProjectDetailExtraction]) *)

Definition withDetails (p : Project) (projectName' propertyAddress' clientName' searchPeriod'
    : string) (scenario' : option string) : Project :=
  mkProject (proj_id p) projectName' propertyAddress' clientName' searchPeriod'
    (createdAt p) (documents p) (report p) scenario' (missingDocuments p)
    (advocateInstructions p).

(** The merge of the returned fields into a project (step 6). *)
Definition mergeDetails (extractedDetails : ProjectDetails) (p : Project) : Project :=
  withDetails p
    (JS.or_str (pd_projectName extractedDetails) (projectName p))
    (JS.or_str (pd_propertyAddress extractedDetails) (propertyAddress p))
    (JS.or_str (pd_clientName extractedDetails) (clientName p))
    (JS.or_str (pd_searchPeriod extractedDetails) (searchPeriod p))
    (if knownScenario (pd_scenario extractedDetails)
     then pd_scenario extractedDetails
     else Some "UNKNOWN").

(** [handleCheckCompleteness(projectId)]: its body runs in a timer. *)
Definition handleCheckCompleteness (projectId : string) : App unit :=
  perform (SetTimeout (CompletenessCheck projectId) 100).

(** [!(await check(IN, i)) || !(await check(OUT, o))]: whether one of the two
    allowance checks fails; the second is made only when the first passes. *)
Definition tokensRefused (s : AppState) (estimatedInputTokens estimatedOutputTokens : Z)
  : App bool :=
  okIn ← checkApiAllowance s TOKENS_INPUT estimatedInputTokens;
  if negb okIn then Return true
  else
    okOut ← checkApiAllowance s TOKENS_OUTPUT estimatedOutputTokens;
    Return (negb okOut).

(** The condition under which both checks pass, read off the ledger of the
    render: the plan, the ledger and the user are loaded and neither monthly
    token cap would be exceeded. *)
Definition withinTokenLimits (s : AppState) (inputTokens outputTokens : Z) : bool :=
  match userApiLimits s, userPlan s, user s with
  | Some l, Some p, Some _ =>
      (input_tokens_used_monthly l + inputTokens <=? max_input_tokens_per_month p)
      && (output_tokens_used_monthly l + outputTokens <=? max_output_tokens_per_month p)
  | _, _, _ => false
  end.

(** The project of the render and the text of its processed documents
    (step 3 reads them before anything is awaited). *)
Definition projectToUpdate (s : AppState) (projectId : string) : option Project :=
  List.find (fun p => String.eqb (proj_id p) projectId) (projects s).

Definition allTextOf (s : AppState) (projectId : string) : string :=
  default "" (aggregateText ∘ documents <$> projectToUpdate s projectId).

(** [Math.ceil(allText.length / 4) || 3000] *)
Definition derivationInputTokens (allText : string) : Z :=
  JS.or_num (JS.ceil_div (Z.of_nat (String.length allText)) 4) 3000.

Section Deriver.
Context (P : PromptText) (J : JsonParse).

(** [runProjectDetailExtraction], a closure over the state [s] of the
  render that created it. *)
Definition runProjectDetailExtraction (s : AppState) (projectId : string) : App unit :=
match user s with
| Some user =>
    if bool_decide (projectId ∈ isExtractingFor s) then Return tt
    else
      let allText := allTextOf s projectId in
      let estimatedInputTokens := derivationInputTokens allText in
      let estimatedOutputTokens := 300 in
      refused ← tokensRefused s estimatedInputTokens estimatedOutputTokens;
      if (refused : bool) then Return tt
      else
        perform (SetIsExtractingFor (fun prev => prev ∪ {[projectId]}));;
        finally
          (try_catch
             (match projectToUpdate s projectId with
              | None => Return tt
              | Some _ =>
                  if negb (JS.truthy allText)
                  then handleCheckCompleteness projectId
                  else
                    details ← extractProjectDetailsAndScenario P J (Some (usr_id user))
                                allText estimatedInputTokens estimatedOutputTokens
                                "extractProjectDetailsAndScenario";
                    match details with
                    | DetailsRateLimited =>
                        perform (SetTimeout (RetryDetailExtraction projectId) 20000)
                    | Details extractedDetails =>
                        perform (SetProjectsFlagged (mergeDetails extractedDetails)
                                   projectId (CompletenessCheck projectId));;
                        perform (Start (FetchUserPlanAndLimits (usr_id user)))
                    end
              end)
             (fun _ => Return tt))
          (perform (SetIsExtractingFor (fun prev => prev ∖ {[projectId]})))
| None => Return tt
end.
End Deriver.




(** ** The document pipeline ([processSingleDocument] and the queue worker) *)

Inductive ProcessResult := PROCESS_SUCCESS | PROCESS_ERROR | PROCESS_RATE_LIMITED.

(** [{ ...d, docTypes, status, extractedText, error }] *)
Definition patchDocument (d : Document) (docTypes' : option (list string))
    (status' : DocStatus) (extractedText' error' : option string) : Document :=
  mkDocument (doc_id d) (doc_projectId d) (fileName d) (fileType d) docTypes' (file d)
    (uploadDate d) status' extractedText' (progress d) error'.

Definition withDocuments (p : Project) (docs : list Document) : Project :=
  mkProject (proj_id p) (projectName p) (propertyAddress p) (clientName p) (searchPeriod p)
    (createdAt p) docs (report p) (scenario p) (missingDocuments p) (advocateInstructions p).

(** The updater of every [setProjects] of the pipeline: [f] on the documents
    [documentId] of the projects [projectId]. *)
Definition mapDocument (projectId documentId : string) (f : Document -> Document)
  : list Project -> list Project :=
  mapProject projectId
    (fun p => withDocuments p
                (map (fun d => if String.eqb (doc_id d) documentId then f d else d)
                     (documents p))).

Definition markStatus (st : DocStatus) (d : Document) : Document :=
  patchDocument d (docTypes d) st (extractedText d) (error d).

Definition markUnsupported (d : Document) : Document :=
  patchDocument d (docTypes d) Unsupported (extractedText d)
    (Some "This file type can be stored but not analyzed by AI.").

Definition markClassifying (extractedText' : string) (d : Document) : Document :=
  patchDocument d (docTypes d) Classifying (Some extractedText') (error d).

Definition markProcessed (docType : string) (d : Document) : Document :=
  patchDocument d (Some [docType]) Processed (extractedText d) (error d).

Definition markError (message fallback : string) (d : Document) : Document :=
  patchDocument d (docTypes d) Error (extractedText d)
    (Some (JS.or_str (Some message) fallback)).

Section Pipeline.
Context (P : PromptText).

(** [processSingleDocument], a closure over the state [s] of the render
  that created it (for [user] and [checkApiAllowance]). *)
Definition processSingleDocument (s : AppState) (projectId documentId : string)
  (file : File) : App ProcessResult :=
match user s with
| None => Return PROCESS_ERROR
| Some user =>
    try_catch
      ((* 1. Set status to Extracting Text *)
       perform (SetProjects (mapDocument projectId documentId (markStatus Extracting_Text)));;
       let estimatedInputTokens := JS.ceil_div (file_size file) (1024 * 4) in
       let estimatedOutputTokens := 2000 in
       refused ← tokensRefused s estimatedInputTokens estimatedOutputTokens;
       if (refused : bool) then Throw RATE_LIMIT_EXCEEDED
       else
         (* 2. Extract text *)
         extractedText ← extractTextFromFile (Some (usr_id user)) file
                           estimatedInputTokens estimatedOutputTokens
                           "extractTextFromFile";
         if String.eqb extractedText RATE_LIMIT_EXCEEDED then Return PROCESS_RATE_LIMITED
         else if String.eqb extractedText UNSUPPORTED_FOR_EXTRACTION then
           perform (SetProjects (mapDocument projectId documentId markUnsupported));;
           perform (Start (FetchUserPlanAndLimits (usr_id user)));;
           Return PROCESS_SUCCESS
         else if JS.startsWith extractedText "Error" then Throw extractedText
         else
           (* 3. Set status to Classifying and update the extracted text *)
           perform (SetProjects
                      (mapDocument projectId documentId (markClassifying extractedText)));;
           let estimatedClassificationInputTokens := 500 in
           let estimatedClassificationOutputTokens := 50 in
           refused ← tokensRefused s estimatedClassificationInputTokens
                       estimatedClassificationOutputTokens;
           if (refused : bool) then Throw RATE_LIMIT_EXCEEDED
           else
             (* 4. Classify the document *)
             docType ← classifyDocument P (Some (usr_id user)) extractedText
                         estimatedClassificationInputTokens
                         estimatedClassificationOutputTokens "classifyDocument";
             if String.eqb docType RATE_LIMIT_EXCEEDED then Return PROCESS_RATE_LIMITED
             else
               (* 5. Set status to Processed and update the document type *)
               perform (SetProjects
                          (mapDocument projectId documentId (markProcessed docType)));;
               perform (Start (FetchUserPlanAndLimits (usr_id user)));;
               Return PROCESS_SUCCESS)
      (fun message =>
         perform (SetProjects
                    (mapDocument projectId documentId
                       (markError message "AI processing failed")));;
         if String.eqb message RATE_LIMIT_EXCEEDED
         then Return PROCESS_RATE_LIMITED
         else Return PROCESS_ERROR)
end.

(** The [.then] of the worker: what it does with the result of a job. *)
Definition onProcessed (nextItem : ProcessingQueueItem) (result : ProcessResult) : App unit :=
match result with
| PROCESS_RATE_LIMITED =>
    perform (SetTimeout AllowRetry 20000)
| PROCESS_SUCCESS =>
    perform (Start (RunProjectDetailExtraction (item_projectId nextItem)));;
    perform (SetProcessingQueue (drop 1));;
    perform (SetIsProcessing false)
| PROCESS_ERROR =>
    perform (SetProcessingQueue (drop 1));;
    perform (SetIsProcessing false)
end.

(** The [.catch] of the worker. *)
Definition onUncaught (nextItem : ProcessingQueueItem) (message : string) : App unit :=
perform (SetProjects
           (mapDocument (item_projectId nextItem) (item_documentId nextItem)
              (markError message "An unexpected error occurred during processing.")));;
perform (SetProcessingQueue (drop 1));;
perform (SetIsProcessing false).

(** [project?.documents.find(d => d.id === nextItem.documentId)] *)
Definition findDocument (ps : list Project) (projectId documentId : string)
: option Document :=
p ← List.find (fun p => String.eqb (proj_id p) projectId) ps;
List.find (fun d => String.eqb (doc_id d) documentId) (documents p).

(** The job of the worker for one queue item: the document's processing
  followed by the worker's handlers. *)
Definition job (s : AppState) (nextItem : ProcessingQueueItem) : App unit :=
try_catch
  (result ← processSingleDocument s (item_projectId nextItem) (item_documentId nextItem)
              (item_file nextItem);
   onProcessed nextItem result)
  (onUncaught nextItem).

(** The worker effect, run after a render with state [s]: what it starts,
  [None] when it does nothing. *)
Definition worker (s : AppState) : option (App unit) :=
match user s with
| None => None
| Some _ =>
    if negb (isProcessing s) then
      match processingQueue s with
      | nextItem :: _ =>
          match findDocument (projects s) (item_projectId nextItem)
                  (item_documentId nextItem) with
          | Some _ =>
              Some (perform (SetIsProcessing true);; job s nextItem)
          | None =>
              Some (perform (SetProcessingQueue (drop 1));;
                    perform (SetIsProcessing false))
          end
      | [] => None
      end
    else None
end.
End Pipeline.

(** ** The project store: loading the snapshot ([useState] initializer) *)

(** A parsed JSON value.  Numbers are integers (the snapshot holds none but
    [progress]). *)
#[warnings="-register-all"]
Inductive JSON :=
| JNull
| JBool (b : bool)
| JNum (n : Z)
| JStr (s : string)
| JArr (l : list JSON)
| JObj (fields : list (string * JSON)).

Module Json.

(** [!!v] *)
Definition truthy (v : JSON) : bool :=
match v with
| JNull => false
| JBool b => b
| JNum n => negb (n =? 0)
| JStr s => JS.truthy s
| JArr _ | JObj _ => true
end.

(** [!!v] for a value that may be [undefined]. *)
Definition truthy_opt (v : option JSON) : bool :=
match v with Some v => truthy v | None => false end.

(** [typeof v === 'object'] *)
Definition isObject (v : JSON) : bool :=
match v with JNull | JArr _ | JObj _ => true | _ => false end.

(** [Array.isArray(v) ? v : []] *)
Definition arrayOr_nil (v : option JSON) : list JSON :=
match v with Some (JArr l) => l | _ => [] end.

Fixpoint lookup (k : string) (fields : list (string * JSON)) : option JSON :=
match fields with
| [] => None
| (k', v) :: fields' => if String.eqb k' k then Some v else lookup k fields'
end.

(** [v.k] for a value that is not [null]: [undefined] unless [v] is an
  object with the field (the fields read here are no properties of
  arrays). *)
Definition get (k : string) (v : JSON) : option JSON :=
match v with JObj fields => lookup k fields | _ => None end.

(** [{ ...o, k: v }] on the fields of [o]: an existing field keeps its
  place, a new one comes last. *)
Fixpoint set (k : string) (v : JSON) (fields : list (string * JSON))
: list (string * JSON) :=
match fields with
| [] => [(k, v)]
| (k', v') :: fields' =>
    if String.eqb k' k then (k, v) :: fields' else (k', v') :: set k v fields'
end.

(** [delete o.k] *)
Definition delete (k : string) (fields : list (string * JSON)) : list (string * JSON) :=
filter (fun kv => kv.1 ≠ k) fields.

(** The own fields copied by [{ ...v }]. *)
Definition spread (v : JSON) : list (string * JSON) :=
match v with JObj fields => fields | _ => [] end.

(** [a === b] as [Array.prototype.includes] compares (two parsed arrays or
  objects are never the same object). *)
Definition same (a b : JSON) : bool :=
match a, b with
| JNull, JNull => true
| JBool x, JBool y => Bool.eqb x y
| JNum x, JNum y => x =? y
| JStr x, JStr y => String.eqb x y
| _, _ => false
end.

(** [l.includes(x)] *)
Definition includes (l : list JSON) (x : JSON) : bool := existsb (same x) l.

(** [String(v)], which turns a value used as a property name into the
  name; [None] when it throws a [TypeError].  A parsed object has
  [Object.prototype.toString] unless it has a field [toString] of its own,
  which is no function: then the conversion throws ([valueOf] gives no
  primitive either).  An array joins the names of its elements. *)
Fixpoint toString (v : JSON) : option string :=
match v with
| JNull => Some "null"
| JBool b => Some (if b then "true" else "false")
| JNum n => Some (pretty n)
| JStr s => Some s
| JArr l =>
    JS.join "," <$>
      (fix names (l : list JSON) : option (list string) :=
         match l with
         | [] => Some []
         | x :: l' =>
             match match x with JNull => Some "" | _ => toString x end with
             | Some s => cons s <$> names l'
             | None => None
             end
         end) l
| JObj fields =>
    match lookup "toString" fields with
    | Some _ => None
    | None => Some "[object Object]"
    end
end.

(** [v || d] *)
Definition or (v : option JSON) (d : JSON) : JSON :=
match v with Some x => if truthy x then x else d | None => d end.

End Json.

Definition transientStatuses : list string :=
  [ "Uploading"; "Uploaded"; "Extracting Text"; "Classifying" ].

(** [transientStatuses.includes(newDoc.status)] *)
Definition isTransient (st : option JSON) : bool :=
  match st with Some (JStr s) => JS.mem s transientStatuses | _ => false end.

(** The filter on the documents of a stored project. *)
Definition validEntry (v : JSON) : bool :=
  Json.truthy v && Json.isObject v && Json.truthy_opt (Json.get "id" v).

(** The [map] on the documents of a stored project: the legacy [docType] is
    migrated and a transient status is replaced. *)
Definition loadDocument (doc : JSON) : JSON :=
  let legacyType := Json.get "docType" doc in
  let currentTypes := Json.arrayOr_nil (Json.get "docTypes" doc) in
  let finalTypes :=
    match legacyType with
    | Some t => if Json.truthy t && negb (Json.includes currentTypes t)
                then currentTypes ++ [t] else currentTypes
    | None => currentTypes
    end in
  let newDoc := Json.delete "docType" (Json.set "docTypes" (JArr finalTypes) (Json.spread doc)) in
  if isTransient (Json.lookup "status" newDoc)
  then JObj (Json.set "progress" (JNum 0)
            (Json.set "error" (JStr "Processing was interrupted. Please re-upload.")
            (Json.set "status" (JStr "Error") newDoc)))
  else JObj newDoc.

(** [project.scenario && SCENARIOS[project.scenario] ? project.scenario : 'UNKNOWN'];
    [None] when the scenario cannot be turned into a property name and the
    lookup throws. *)
Definition validScenario (v : option JSON) : option JSON :=
  match v with
  | Some x =>
      if Json.truthy x then
        key ← Json.toString x;
        Some (if bool_decide (is_Some (SCENARIOS !! key)) then x else JStr "UNKNOWN")
      else Some (JStr "UNKNOWN")
  | None => Some (JStr "UNKNOWN")
  end.

(** A valid entry of the stored array, as it is pushed on the result; [None]
    when its processing throws. *)
Definition loadProject (project : JSON) : option JSON :=
  let documents := Json.arrayOr_nil (Json.get "documents" project) in
  let updatedDocuments := map loadDocument (List.filter validEntry documents) in
  scenario ← validScenario (Json.get "scenario" project);
  Some (JObj
    (Json.set "advocateInstructions" (Json.or (Json.get "advocateInstructions" project) (JStr ""))
    (Json.set "report" (Json.or (Json.get "report" project) JNull)
    (Json.set "scenario" scenario
    (Json.set "searchPeriod" (Json.or (Json.get "searchPeriod" project) (JStr "Not Provided"))
    (Json.set "clientName" (Json.or (Json.get "clientName" project) (JStr "Not Provided"))
    (Json.set "propertyAddress"
       (Json.or (Json.get "propertyAddress" project) (JStr "Not Provided"))
    (Json.set "projectName" (Json.or (Json.get "projectName" project) (JStr "Unnamed Project"))
    (Json.set "documents" (JArr updatedDocuments) (Json.spread project)))))))))).

(** The reducer over the stored array: an entry that is not valid is
    skipped, and so is one whose processing throws (the [catch]). *)
Definition loadEntry (acc : list JSON) (project : JSON) : list JSON :=
  if negb (validEntry project) then acc
  else
    match loadProject project with
    | Some loaded => acc ++ [loaded]
    | None => acc
    end.

(** What an entry of the stored array adds to the result. *)
Definition loadValid (entry : JSON) : option JSON :=
  if validEntry entry then loadProject entry else None.

(** The initializer of [projects]: [savedData] is the stored string
    ([None] when the key is absent) and [parse] is [JSON.parse] ([None] when it
    throws). *)
Definition loadProjects (parse : string -> option JSON) (savedData : option string)
  : list JSON :=
  match savedData with
  | None => []
  | Some savedData =>
      if negb (JS.truthy savedData) then []
      else
        match parse savedData with
        | None => []
        | Some (JArr parsedData) => fold_left loadEntry parsedData []
        | Some _ => []
        end
  end.

(** ** The event loop around the pipeline

    The machine holds the application state, the jobs of the worker that are
    suspended at an [await], and the report generations in flight
    ([ProjectView.handleGenerateReport], each with the project it captured
    when it was started).  An event is one turn of the event loop. *)

(** An answer delivered to a suspended call. *)
Inductive Answer :=
| ADate (d : JsDate)
| AStatus (e : DbStatus)
| ADaily (r : DbSelect DailyUsage)
| ALimits (r : DbSelect ApiLimits)
| APlan (r : DbSelect Plan)
| AExtract (o : ExtractOutcome)
| AGenerate (o : ProviderOutcome)
| ALogged.

(** The answer as the answer to the request [q], when it is of that kind. *)
Definition answerFor (q : Request) (a : Answer) : option (Response q) :=
  match q return option (Response q) with
  | Sys q =>
      match q return option (SysResp q) with
      | Now | ParseDate _ => match a with ADate d => Some d | _ => None end
      | InsertAiUsage _ _ | UpsertDailyUsage _ _ _ | UpdateApiLimitsUsage _ _ _ _
      | UpdateApiLimitsReset _ _ | InsertApiLimits _ =>
          match a with AStatus e => Some e | _ => None end
      | SelectDailyUsage _ _ => match a with ADaily r => Some r | _ => None end
      | SelectApiLimits _ => match a with ALimits r => Some r | _ => None end
      | SelectPlan _ | SelectPlanNamed _ => match a with APlan r => Some r | _ => None end
      end
  | GeminiExtract _ _ => match a with AExtract o => Some o | _ => None end
  | GeminiGenerate _ _ => match a with AGenerate o => Some o | _ => None end
  | LogAiCall _ _ => match a with ALogged => Some tt | _ => None end
  end.

Record Machine := mkMachine {
  app : AppState;
  jobs : list (App unit);
  generating : list Project;
}.

Inductive Event :=
| WorkerEffect                                  (* the worker effect runs after a render *)
| Resume (i : nat) (a : Answer)                 (* the [await] of job [i] is answered *)
| TimerFires (i : nat)
| UploadStarted (projectId : string) (doc : Document)     (* [handleDocumentUpload] *)
| UploadFinished (projectId documentId : string) (f : File)
| UploadFailed (projectId documentId : string)
| CreateProject (p : Project)                   (* [handleCreateProject] *)
| DeleteDocument (projectId documentId : string) (* [handleDeleteDocument] *)
| DeleteProject (projectId : string)            (* [handleDeleteProject] *)
| UpdateDocumentType (projectId documentId newType : string)
| SaveDetails (projectId projectName propertyAddress clientName searchPeriod : string)
| GenerateReportClicked (projectId : string)    (* [handleGenerateReport] starts *)
| GenerateReportDone (i : nat) (r : Report)      (* ... and writes the report back *)
| SignedOut
| SignedIn (u : User)
| LimitsLoaded (p : Plan) (l : ApiLimits).       (* [fetchUserPlanAndLimits] ends *)

(** [handleUpdateProject] *)
Definition handleUpdateProject (updatedProject : Project) : list Project -> list Project :=
  map (fun p => if String.eqb (proj_id p) (proj_id updatedProject) then updatedProject else p).

Definition withReport (p : Project) (r : option Report) : Project :=
  mkProject (proj_id p) (projectName p) (propertyAddress p) (clientName p) (searchPeriod p)
    (createdAt p) (documents p) r (scenario p) (missingDocuments p) (advocateInstructions p).

Definition markUploaded (d : Document) : Document :=
  mkDocument (doc_id d) (doc_projectId d) (fileName d) (fileType d) (docTypes d) (file d)
    (uploadDate d) Uploaded (extractedText d) (Some 100) (error d).

Definition addDocType (newType : string) (d : Document) : Document :=
  let currentTypes := default [] (docTypes d) in
  if JS.mem newType currentTypes then d
  else patchDocument d (Some (currentTypes ++ [newType])) (status d) (extractedText d) (error d).

(** The documents of a new project that are queued. *)
Definition itemsOf (p : Project) : list ProcessingQueueItem :=
  omap (fun d => mkItem (doc_projectId d) (doc_id d) <$> file d) (documents p).

Definition setApp (s : AppState) (m : Machine) : Machine :=
  mkMachine s (jobs m) (generating m).

(** A call after its synchronous prefix: still a job when it is suspended. *)
Definition suspended {R : Type} (t : App R) : list (App R) :=
  match t with Await _ _ => [t] | _ => [] end.

Section Machine.
Context (P : PromptText).

Definition step (e : Event) (m : Machine) : option Machine :=
let s := app m in
match e with
| WorkerEffect =>
    match worker P s with
    | Some t =>
        let '(t', s') := advance exec t s in
        Some (mkMachine s' (jobs m ++ suspended t') (generating m))
    | None => Some m
    end
| Resume i a =>
    match jobs m !! i with
    | Some (Await q k) =>
        x ← answerFor q a;
        let '(t', s') := advance exec (k x) s in
        Some (mkMachine s' (take i (jobs m) ++ suspended t' ++ drop (S i) (jobs m))
                (generating m))
    | _ => None
    end
| TimerFires i =>
    match timers s !! i with
    | Some (cb, _) =>
        let s' := withTimers (delete i (timers s)) s in
        match cb with
        | AllowRetry => Some (setApp (exec (SetIsProcessing false) s') m)
        | _ => Some (setApp s' m)
        end
    | None => None
    end
| UploadStarted projectId doc =>
    if bool_decide (status doc = Uploading) then
      Some (setApp (exec (SetProjects
              (mapProject projectId (fun p => withDocuments p (documents p ++ [doc])))) s) m)
    else None
| UploadFinished projectId documentId f =>
    Some (setApp
            (exec (SetProcessingQueue (fun prev => prev ++ [mkItem projectId documentId f]))
               (exec (SetProjects (mapDocument projectId documentId markUploaded)) s)) m)
| UploadFailed projectId documentId =>
    Some (setApp
            (exec (SetProjects
                     (mapDocument projectId documentId
                        (fun d => patchDocument d (docTypes d) Error (extractedText d)
                                    (Some "Network interruption during upload.")))) s) m)
| CreateProject p =>
    if forallb (fun d => bool_decide (status d = Uploaded)) (documents p) then
      Some (setApp
              (exec (SetProcessingQueue (fun prev => prev ++ itemsOf p))
                 (exec (SetProjects (fun prev => p :: prev)) s)) m)
    else None
| DeleteDocument projectId documentId =>
    Some (setApp
            (exec (SetProjects
                     (mapProject projectId
                        (fun p => withDocuments p
                                    (filter (fun d => doc_id d ≠ documentId) (documents p)))))
               s) m)
| DeleteProject projectId =>
    Some (setApp (exec (SetProjects (filter (fun p => proj_id p ≠ projectId))) s) m)
| UpdateDocumentType projectId documentId newType =>
    Some (setApp (exec (SetProjects (mapDocument projectId documentId (addDocType newType)))
                    s) m)
| SaveDetails projectId projectName' propertyAddress' clientName' searchPeriod' =>
    match List.find (fun p => String.eqb (proj_id p) projectId) (projects s) with
    | Some p =>
        Some (setApp
                (exec (SetProjects
                         (handleUpdateProject
                            (withDetails p projectName' propertyAddress' clientName'
                               searchPeriod' (scenario p)))) s) m)
    | None => None
    end
| GenerateReportClicked projectId =>
    match List.find (fun p => String.eqb (proj_id p) projectId) (projects s) with
    | Some p =>
        if existsb (fun d => bool_decide (status d = Processed)) (documents p)
        then Some (mkMachine s (jobs m) (generating m ++ [p]))
        else None
    | None => None
    end
| GenerateReportDone i r =>
    match generating m !! i with
    | Some project =>
        Some (mkMachine
                (exec (SetProjects (handleUpdateProject (withReport project (Some r)))) s)
                (jobs m) (delete i (generating m)))
    | None => None
    end
| SignedOut =>
    Some (setApp (exec (SetUserApiLimits None)
                    (exec (SetUserPlan None) (exec (SetUser (fun _ => None)) s))) m)
| SignedIn u =>
    Some (setApp (exec (SetUser (fun _ => Some u)) s) m)
| LimitsLoaded p l =>
    Some (setApp (exec (SetUserApiLimits (Some l)) (exec (SetUserPlan (Some p)) s)) m)
end.

(** A sequence of events, from left to right. *)
Fixpoint steps (es : list Event) (m : Machine) : option Machine :=
match es with
| [] => Some m
| e :: es => m' ← step e m; steps es m'
end.
End Machine.

(** The machine the application starts as: the loaded projects, nobody
    signed in, an empty queue, nothing in flight. *)
Definition initial (loaded : list Project) : Machine :=
  mkMachine
    (mkAppState None None None loaded [] false ∅ None "" [] [])
    [] [].

(** The documents in the states exclusive to the pipeline. *)
Definition inProgress (d : Document) : bool :=
  bool_decide (status d = Extracting_Text) || bool_decide (status d = Classifying).

Definition documentsInProgress (ps : list Project) : list Document :=
  List.filter inProgress (concat (map documents ps)).

(** ** The worker's exclusion

    What keeps the worker to one job: [isProcessing] and the timer that
    clears it after a rate limit. *)

Definition isAllowRetry (cb : TimerCallback) : bool :=
  match cb with AllowRetry => true | _ => false end.

(** The pending timers that will clear [isProcessing]. *)
Definition retries (s : AppState) : nat :=
  length (List.filter (fun t => isAllowRetry t.1) (timers s)).

(** A job is in flight: the flag is up and no timer will clear it. *)
Definition Busy (s : AppState) : Prop :=
  isProcessing s = true /\ retries s = 0%nat.

(** No job is in flight: the flag is down, or it is up and one timer will
    clear it. *)
Definition Settled (s : AppState) : Prop :=
  if isProcessing s then (retries s <= 1)%nat else retries s = 0%nat.

(** The call [t], started in state [s], is suspended only in busy states, and
    ends in a state where [Q] holds of its outcome, whatever the answers to
    its requests are and whatever happens to the state while it is suspended,
    as long as the state is busy when it is resumed. *)
Fixpoint guarded {R : Type} (Q : Outcome R -> AppState -> Prop) (t : App R) (s : AppState)
  : Prop :=
  match t with
  | Return r => Q (Returned r) s
  | Throw e => Q (Thrown e) s
  | Do a k => guarded Q k (exec a s)
  | Await q k => Busy s /\ forall x s', Busy s' -> guarded Q (k x) s'
  end.

(** The call leaves the worker's flag and timers alone. *)
Definition quiet {R : Type} (t : App R) : Prop :=
  forall s, Busy s -> guarded (fun _ s' => Busy s') t s.

(** At most one job is in flight, and the flag is up while it is. *)
Definition oneJob (m : Machine) : Prop :=
  match jobs m with
  | [] => Settled (app m)
  | [Await q k] => guarded (fun _ => Settled) (Await q k) (app m)
  | _ => False
  end.

(** ** Reading the result of a run, and a scripted world *)

Definition outcomeOf {R S W Q : Type} (r : Outcome R * S * W * list Q) : Outcome R := r.1.1.1.
Definition stateOf {R S W Q : Type} (r : Outcome R * S * W * list Q) : S := r.1.1.2.
Definition requestsOf {R S W Q : Type} (r : Outcome R * S * W * list Q) : list Q := r.2.
Definition worldOf {R S W Q : Type} (r : Outcome R * S * W * list Q) : W := r.1.2.

(** The answer given when a script has none of the right kind. *)
Definition defaultResponse (q : Request) : Response q :=
  match q return Response q with
  | Sys q =>
      match q return SysResp q with
      | Now | ParseDate _ => mkJsDate 0 1970 "1970-01-01"
      | InsertAiUsage _ _ | UpsertDailyUsage _ _ _ | UpdateApiLimitsUsage _ _ _ _
      | UpdateApiLimitsReset _ _ | InsertApiLimits _ => None
      | SelectDailyUsage _ _ => NoRow
      | SelectApiLimits _ => NoRow
      | SelectPlan _ | SelectPlanNamed _ => NoRow
      end
  | GeminiExtract _ _ => FileRead (Responded None)
  | GeminiGenerate _ _ => Responded None
  | LogAiCall _ _ => tt
  end.

(** A world that answers the requests from a script, one answer each. *)
Definition scripted (q : Request) (w : list Answer) : Response q * list Answer :=
  match w with
  | a :: w' => (default (defaultResponse q) (answerFor q a), w')
  | [] => (defaultResponse q, [])
  end.

(** The outside made of the store and clock of a [World] and of a script for
    the provider. *)
Definition outside (q : Request) : World * list Answer -> Response q * (World * list Answer) :=
  match q return World * list Answer -> Response q * (World * list Answer) with
  | Sys q => fun w => let '(x, w1) := sysRespond q w.1 in (x, (w1, w.2))
  | GeminiExtract file prompt => fun w =>
      let '(x, a) := scripted (GeminiExtract file prompt) w.2 in (x, (w.1, a))
  | GeminiGenerate model prompt => fun w =>
      let '(x, a) := scripted (GeminiGenerate model prompt) w.2 in (x, (w.1, a))
  | LogAiCall userId lg => fun w => (tt, w)
  end.

(** ** The ledger under concurrent calls

    A call of the ledger has no synchronous effect; it is run against the
    store alone, or held suspended among other calls, each served one request
    at a time in any order. *)

Abbreviation LedgerCall := (Async Empty_set SysReq SysResp unit).

(** A call run alone, to its end: the world it leaves. *)
Definition runLedger (m : LedgerCall) (w : World) : World :=
  (run (fun (a : Empty_set) (s : unit) => s) sysRespond m tt w).1.2.







(** The documents of the state with the given ids. *)
Definition documentsAt (projectId documentId : string) (ps : list Project) : list Document :=
  p ← List.filter (fun p => String.eqb (proj_id p) projectId) ps;
  List.filter (fun d => String.eqb (doc_id d) documentId) (documents p).

(** ** What a call ensures

    [ensures Q t s]: the call [t], started in state [s], ends with an outcome
    and in a state that satisfy [Q], whatever the outside answers to its
    requests (the state is not touched while the call is suspended). *)

Fixpoint ensures {R : Type} (Q : Outcome R -> AppState -> Prop) (t : App R) (s : AppState)
  : Prop :=
  match t with
  | Return r => Q (Returned r) s
  | Throw e => Q (Thrown e) s
  | Do a k => ensures Q k (exec a s)
  | Await q k => forall x, ensures Q (k x) s
  end.

(** The call ended by returning, not by throwing. *)
Definition returned {R : Type} (o : Outcome R) : Prop :=
  match o with Returned _ => True | Thrown _ => False end.

(** The promise of the call is never rejected. *)
Definition neverThrows {R : Type} (t : App R) : Prop :=
  forall s, ensures (fun o _ => returned o) t s.


(** Every document with these ids has the status [st]. *)
Definition statusAt (projectId documentId : string) (st : DocStatus) (s : AppState) : Prop :=
  Forall (fun d => status d = st) (documentsAt projectId documentId (projects s)).

(** The worker's own fields and the calls started so far. *)
Definition workerFields (s : AppState)
  : list ProcessingQueueItem * bool * list (TimerCallback * Z) * list Background :=
  (processingQueue s, isProcessing s, timers s, started s).




(** ** What a call performs

    Every synchronous effect that [t] can perform, whatever it is answered,
    satisfies [A]. *)
Fixpoint performs {R : Type} (A : Action -> Prop) (t : App R) : Prop :=
  match t with
  | Return _ | Throw _ => True
  | Do a k => A a /\ performs A k
  | Await q k => forall x, performs A (k x)
  end.

(** The projects [ps'] are the projects [ps] but for the types, the status,
    the text and the error of the documents [documentId] of the projects
    [projectId]. *)
Definition onlyDocumentChanged (projectId documentId : string) (ps ps' : list Project)
  : Prop :=
  Forall2 (fun p p' =>
             withDocuments p' (documents p) = p
             /\ Forall2 (fun d d' =>
                           patchDocument d' (docTypes d) (status d) (extractedText d)
                             (error d) = d
                           /\ (proj_id p <> projectId \/ doc_id d <> documentId -> d' = d))
                  (documents p) (documents p'))
    ps ps'.

(** The effects of the worker's job on the item [projectId], [documentId]. *)
Definition jobAction (projectId documentId : string) (a : Action) : Prop :=
  match a with
  | SetProjects f => forall ps, onlyDocumentChanged projectId documentId ps (f ps)
  | SetProcessingQueue _ | SetIsProcessing _ | SetToast _ _ | SetTimeout _ _ | Start _ => True
  | _ => False
  end.

(** ** Uploading documents ([handleDocumentUpload])

    The handler is synchronous up to the simulated transfer, whose ends are
    the events [UploadFinished] and [UploadFailed] above.  It is given here
    by what it shows and by the updater it passes to [setProjects], if it
    gets that far. *)

(** [sizeMB > (cap || Infinity)] for a size in bytes and a cap in megabytes.
    The size in megabytes is [bytes / (1024 * 1024)]; dividing by a power of
    two is exact on the numbers of JavaScript, and so are the sums of such
    sizes below 2^53 bytes, so the comparison is that of [bytes] with
    [cap * 1024 * 1024].  The cap [0] is falsy: no cap. *)
Definition exceedsMB (bytes cap : Z) : bool :=
  if cap =? 0 then false else bytes >? cap * (1024 * 1024).

(** The toasts of the handler, by template (each is of type [error]). *)
Inductive UploadToast :=
| UploadPlanNotLoaded
| FileExceedsLimit (name : string) (bytes cap : Z)
| BatchExceedsLimit (bytes cap : Z).

(** A file of the batch, with the id and the date that the loop gives its
    document ([Date.now()], [Math.random()], [new Date()]). *)
Record NewFile := mkNewFile {
  nf_file : File;
  nf_id : string;
  nf_uploadDate : string;
}.

Definition uploadingDocument (projectId : string) (f : NewFile) : Document :=
  mkDocument (nf_id f) projectId (file_name (nf_file f)) (file_type (nf_file f)) (Some [])
    (Some (nf_file f)) (nf_uploadDate f) Uploading None (Some 0) None.

(** One turn of the loop over the files: the toasts shown so far, the
    documents to add, the bytes of the files accepted. *)
Definition uploadFile (userPlan : Plan) (projectId : string)
    (acc : list UploadToast * list Document * Z) (f : NewFile)
  : list UploadToast * list Document * Z :=
  let '(toasts, newDocumentsToAdd, totalUploadSize) := acc in
  let size := file_size (nf_file f) in
  if exceedsMB size (max_file_size_mb_per_document userPlan)
  then (toasts ++ [FileExceedsLimit (file_name (nf_file f)) size
                     (max_file_size_mb_per_document userPlan)],
        newDocumentsToAdd, totalUploadSize)
  else (toasts, newDocumentsToAdd ++ [uploadingDocument projectId f], totalUploadSize + size).

Definition handleDocumentUpload (userPlan : option Plan) (projectId : string)
    (files : list NewFile) : list UploadToast * option (list Project -> list Project) :=
  match userPlan with
  | None => ([UploadPlanNotLoaded], None)
  | Some userPlan =>
      let '(toasts, newDocumentsToAdd, totalUploadSize) :=
        fold_left (uploadFile userPlan projectId) files ([], [], 0) in
      if exceedsMB totalUploadSize (max_total_upload_mb_per_str userPlan)
      then (toasts ++ [BatchExceedsLimit totalUploadSize
                         (max_total_upload_mb_per_str userPlan)], None)
      else (toasts,
            Some (mapProject projectId
                    (fun p => withDocuments p (documents p ++ newDocumentsToAdd))))
  end.

(** The files of a batch that pass the cap on one document. *)
Definition accepted (userPlan : Plan) (files : list NewFile) : list NewFile :=
  List.filter (fun f => negb (exceedsMB (file_size (nf_file f))
                               (max_file_size_mb_per_document userPlan))) files.

Definition totalBytes (files : list NewFile) : Z :=
  fold_right Z.add 0 (map (fun f => file_size (nf_file f)) files).

(** The effects of [processSingleDocument] for the item: those of the job
    but for the queue, which is left to the worker's handlers. *)
Definition pipelineAction (projectId documentId : string) (a : Action) : Prop :=
  match a with
  | SetProcessingQueue _ => False
  | _ => jobAction projectId documentId a
  end.

(** ** The job in flight and the head of the queue *)

(** What is left of a job once it has taken its item off the queue: it
    clears the flag and ends. *)
Fixpoint windingUp (t : App unit) : Prop :=
  match t with
  | Return _ => True
  | Do (SetIsProcessing _) k => windingUp k
  | _ => False
  end.

(** [t] is the job of the item [projectId], [documentId], or what is left of
    it: it writes only to the item's document, and it takes an item off the
    queue at most once, the head, after its last [await]. *)
Fixpoint jobOf (projectId documentId : string) (t : App unit) : Prop :=
  match t with
  | Return _ | Throw _ => True
  | Do (SetProcessingQueue f) k => f = drop 1 /\ windingUp k
  | Do a k => jobAction projectId documentId a /\ jobOf projectId documentId k
  | Await q k => forall x, jobOf projectId documentId (k x)
  end.

(** Every job in flight is the job of the head of the queue. *)
Definition headJob (m : Machine) : Prop :=
  forall t, In t (jobs m) ->
    exists nextItem rest,
      processingQueue (app m) = nextItem :: rest
      /\ jobOf (item_projectId nextItem) (item_documentId nextItem) t.
(** ** Sample data, for the statements at concrete inputs *)

Module Sample.
Definition prompts : PromptText :=
mkPromptText (fun t => "classify: " +:+ t) (fun t => "details: " +:+ t)
  (fun _ _ => "completeness") (fun _ ctx _ _ => "report: " +:+ ctx)
  (fun _ t _ => "reformat: " +:+ t).




Definition deedPdf : File := mkFile "deed.pdf" "application/pdf" 81920.
Definition taxPdf : File := mkFile "tax.pdf" "application/pdf" 40960.

Definition advocate : User := mkUser "user-1" "a@example.org" "A. Advocate" "Firm" None.

Definition basic : Plan := mkPlan 1 "Basic" 10 0 100000 50000 5 2 10 50.

Definition ledger : ApiLimits := mkApiLimits "user-1" 1 10 0 "2024-03-01" 1000 400 1.

(** A ledger whose input tokens are used up. *)
Definition spent : ApiLimits := mkApiLimits "user-1" 1 10 0 "2024-03-01" 100000 400 1.

Definition document (id name : string) (f : File) (st : DocStatus) : Document :=
mkDocument id "proj_1" name (file_type f) (Some []) (Some f) "2024-03-05" st None None None.

Definition deed : Document := document "doc_deed" "deed.pdf" deedPdf Uploaded.
Definition tax : Document := document "doc_tax" "tax.pdf" taxPdf Uploaded.

(** A document processed earlier. *)
Definition will : Document :=
mkDocument "doc_will" "proj_1" "will.pdf" "application/pdf" (Some ["Will / Probate"])
  None "2024-03-04" Processed (Some "LAST WILL of R. Rao") None None.

Definition project (docs : list Document) : Project :=
mkProject "proj_1" "Plot 7" "7 Hill Road" "R. Rao" "30 years" "2024-03-04"
  docs None (Some "UNKNOWN") None None.

Definition state (l : ApiLimits) (docs : list Document) (queue : list ProcessingQueueItem)
: AppState :=
mkAppState (Some advocate) (Some basic) (Some l) [project docs] queue false ∅ None
  "2024-03-05" [] [].

Definition deedItem : ProcessingQueueItem := mkItem "proj_1" "doc_deed" deedPdf.
Definition taxItem : ProcessingQueueItem := mkItem "proj_1" "doc_tax" taxPdf.

Definition march5 : JsDate := mkJsDate 2 2024 "2024-03-05".

(** A store with the sample user's ledger row and no usage yet today, on the
    5th of March, in a time zone where the date strings read as they are. *)
Definition store : DB :=
  mkDB {["user-1" := ledger]} {[("user-1", "2024-03-05") := mkDailyUsage 0 0 0]} [] [basic].

Definition readDate (s : string) : JsDate :=
  if String.eqb s "2024-03-01" then mkJsDate 2 2024 "2024-03-01"
  else mkJsDate 1 2024 s.

Definition calm : World := mkWorld store march5 readDate [].

(** The same store when its next request fails. *)
Definition failing : World := mkWorld store march5 readDate [true].

(** Two successful calls of the gateway to be logged. *)
Definition extractionLog : LogCall :=
  mkLogCall "gemini-2.5-flash" "extractTextFromFile" 100 50 true None.



(** A stored snapshot: a project with a document that carries the legacy
    field beside the same type, one interrupted while it was classified, one
    without id and a [null]; an entry without id; a string; a project whose
    scenario is an object that has no name; a bare project. *)
Definition snapshot : JSON :=
JArr [
  JObj [("id", JStr "proj_1"); ("projectName", JStr "Plot 12");
        ("documents", JArr [
           JObj [("id", JStr "doc_1"); ("docType", JStr "Sale Deed");
                 ("docTypes", JArr [JStr "Sale Deed"]); ("status", JStr "Processed")];
           JObj [("id", JStr "doc_2"); ("docType", JStr "Will");
                 ("status", JStr "Classifying"); ("progress", JNum 60)];
           JObj [("fileName", JStr "lost.pdf")];
           JNull])];
  JObj [("projectName", JStr "No id")];
  JStr "junk";
  JObj [("id", JStr "proj_3"); ("scenario", JObj [("toString", JNull)])];
  JObj [("id", JStr "proj_2")]].

Definition savedText : string := "[snapshot]".

(** [JSON.parse] on the stored text; it throws on any other. *)
Definition parseSaved (text : string) : option JSON :=
if String.eqb text savedText then Some snapshot else None.

(** A project with one processed document, nothing queued. *)
Definition settled : AppState := state ledger [will] [].


(** Two uploaded documents queued behind one another. *)
Definition queued (l : ApiLimits) : Machine :=
mkMachine (state l [will; deed; tax] [deedItem; taxItem]) [] [].

Definition extracted (text : string) : Answer := AExtract (FileRead (Responded (Some text))).
Definition labelled (label : string) : Answer := AGenerate (Responded (Some label)).

Definition aReport : Report :=
mkReport "report_1" "proj_1" "2024-03-05" true "# Title Search Report" None None None
  (Some "HDFC Format").

(** A report is asked for while the deed is being extracted and comes
  back while the tax receipt is. *)
Definition reportDuringProcessing : list Event :=
[ WorkerEffect;                              (* the deed's job starts *)
  GenerateReportClicked "proj_1";            (* the view captures the project *)
  Resume 0 (extracted "SALE DEED between R. Rao and S. Iyer");
  Resume 0 ALogged;
  Resume 0 (labelled "Sale Deed");
  Resume 0 ALogged;                          (* the deed is processed *)
  WorkerEffect;                              (* the tax receipt's job starts *)
  GenerateReportDone 0 aReport;              (* the captured project is written back *)
  Resume 0 (extracted "PROPERTY TAX RECEIPT 2023-24");
  Resume 0 ALogged ].

(** A session from the start: the advocate signs in, the limits are
    loaded, a project with two documents is created, and the worker has the
    deed's text extracted. *)
Definition fromTheStart : list Event :=
[ SignedIn advocate; LimitsLoaded basic ledger; CreateProject (project [deed; tax]);
  WorkerEffect; Resume 0 (extracted "SALE DEED between R. Rao and S. Iyer");
  WorkerEffect; Resume 0 ALogged; WorkerEffect ].

(** What an observer sees of the pipeline. *)
Definition observe (m : Machine)
: list string * bool * list (TimerCallback * Z) * nat * list (string * DocStatus) :=
(map item_documentId (processingQueue (app m)), isProcessing (app m), timers (app m),
 length (jobs m),
 map (fun d => (doc_id d, status d)) (concat (map documents (projects (app m))))).
End Sample.

(* ===================================================================== *)
(** * Part II: theorems *)
(* ===================================================================== *)

(** ** Running asynchronous functions *)

Section RunFacts.
Context {Act Req : Type} {Resp : Req -> Type} {S W : Type}.
Context (exec : Act -> S -> S) (respond : forall q : Req, W -> Resp q * W).

Lemma run_bind {A B : Type} (m : Async Act Req Resp A) (f : A -> Async Act Req Resp B) s w :
  run exec respond (m ≫= f) s w =
  let '(o, s1, w1, qs) := run exec respond m s w in
  match o with
  | Returned a =>
      let '(o2, s2, w2, qs2) := run exec respond (f a) s1 w1 in (o2, s2, w2, qs ++ qs2)
  | Thrown e => (Thrown e, s1, w1, qs)
  end.
Proof.
  revert s w. induction m as [r|e|a k IH|q k IH]; intros s w; cbn.
  - by destruct (run exec respond (f r) s w) as [[[o s2] w2] qs2].
  - done.
  - apply IH.
  - destruct (respond q w) as [x w'].
    change (bind (k x) f) with (k x ≫= f). rewrite IH.
    destruct (run exec respond (k x) s w') as [[[o s1] w1] qs].
    destruct o; [|done].
    by destruct (run exec respond (f r) s1 w1) as [[[o2 s2] w2] qs2].
Qed.

Lemma run_try_catch {A : Type} (m : Async Act Req Resp A) h s w :
  run exec respond (try_catch m h) s w =
  let '(o, s1, w1, qs) := run exec respond m s w in
  match o with
  | Returned a => (Returned a, s1, w1, qs)
  | Thrown e =>
      let '(o2, s2, w2, qs2) := run exec respond (h e) s1 w1 in (o2, s2, w2, qs ++ qs2)
  end.
Proof.
  revert s w. induction m as [r|e|a k IH|q k IH]; intros s w; cbn.
  - done.
  - by destruct (run exec respond (h e) s w) as [[[o s2] w2] qs2].
  - apply IH.
  - destruct (respond q w) as [x w']. rewrite IH.
    destruct (run exec respond (k x) s w') as [[[o s1] w1] qs].
    destruct o; [done|].
    by destruct (run exec respond (h message) s1 w1) as [[[o2 s2] w2] qs2].
Qed.

End RunFacts.

(** ** JavaScript primitives *)

Lemma truthy_nonempty s : JS.truthy s = true <-> s ≠ "".
Proof.
  unfold JS.truthy. destruct (String.eqb_spec s ""); split; intros; try done.
Qed.

Lemma includes_here s sub : String.prefix sub s = true -> JS.includes s sub = true.
Proof. destruct s; cbn; intros ->; done. Qed.

Lemma typesArray_names : JS.split ", " DOCUMENT_TYPES = DOCUMENT_TYPE_NAMES.
Proof. by vm_compute. Qed.


Lemma Error_not_in_vocabulary : "Error" ∉ DOCUMENT_TYPE_NAMES.
Proof. rewrite list_elem_of_In. vm_compute. intuition discriminate. Qed.

(** ** The gateway *)

Section GatewayFacts.
Context {W : Type} (respond : forall q : Request, W -> Response q * W).
Context (P : PromptText) (J : JsonParse).

Lemma run_await q s w :
  run exec respond (await q) s w = (Returned (respond q w).1, s, (respond q w).2, [q]).
Proof. cbn. by destruct (respond q w). Qed.

Lemma run_perform a s w :
  run exec respond (perform a) s w = (Returned tt, exec a s, w, []).
Proof. done. Qed.

Lemma logged_run {R : Type} userId (r : R * LogCall) s w :
  run exec respond (logged userId r) s w
  = (Returned r.1, s, (respond (LogAiCall userId r.2) w).2, [LogAiCall userId r.2]).
Proof. unfold logged. cbn. by destruct (respond _ w). Qed.

(** What the text extraction can return. *)
Lemma extractTextFromFile_local_nonempty file i ep r :
  extractTextFromFile_local file i ep = Some r -> r.1 ≠ "".
Proof.
  unfold extractTextFromFile_local. repeat case_match; intros; by simplify_eq.
Qed.

Lemma blankText_trim text : blankText text = false -> JS.trim (default "" text) ≠ "".
Proof.
  unfold blankText. intros [_ H]%orb_false_elim.
  by destruct (String.eqb_spec (JS.trim (default "" text)) "").
Qed.

Lemma extractTextFromFile_outcome_nonempty i o ep x :
  (extractTextFromFile_outcome i o ep x).1 ≠ "".
Proof.
  unfold extractTextFromFile_outcome. repeat case_match; cbn; try done.
  by apply blankText_trim.
Qed.

Lemma extractTextFromFile_run userId file i o ep w :
  exists text w' qs,
    (forall s, run exec respond (extractTextFromFile userId file i o ep) s w
               = (Returned text, s, w', qs))
    /\ text ≠ "".
Proof.
  unfold extractTextFromFile. destruct (extractTextFromFile_local _ _ _) as [r|] eqn:Hl.
  - eexists _, _, _. split; [intros s; by rewrite logged_run|].
    by eapply extractTextFromFile_local_nonempty.
  - eexists _, _, _. split.
    + intros s. by rewrite run_bind, (run_await (GeminiExtract _ _)), logged_run.
    + apply extractTextFromFile_outcome_nonempty.
Qed.


End GatewayFacts.

(** ** Updating documents *)

Section DocumentFacts.
Lemma filter_map_document did (f : Document -> Document) docs :
  (forall d, doc_id (f d) = doc_id d) ->
  List.filter (fun d => String.eqb (doc_id d) did)
    (map (fun d => if String.eqb (doc_id d) did then f d else d) docs)
  = map f (List.filter (fun d => String.eqb (doc_id d) did) docs).
Proof.
  intros Hf. induction docs as [|d docs IH]; [done|]. cbn.
  destruct (String.eqb (doc_id d) did) eqn:E; cbn.
  - by rewrite Hf, E, IH.
  - by rewrite E, IH.
Qed.

Lemma documentsAt_mapDocument pid did f ps :
  (forall d, doc_id (f d) = doc_id d) ->
  documentsAt pid did (mapDocument pid did f ps) = map f (documentsAt pid did ps).
Proof.
  intros Hf. unfold documentsAt, mapDocument, mapProject.
  induction ps as [|p ps IH]; [done|]. cbn.
  destruct (String.eqb (proj_id p) pid) eqn:E; cbn.
  - rewrite E. cbn. rewrite map_app. f_equal; [|done].
    by apply filter_map_document.
  - by rewrite E.
Qed.
End DocumentFacts.

#[local] Arguments mapDocument : simpl never.
#[local] Arguments documentsAt : simpl never.

(** ** The pipeline: one document *)

Section PipelineFacts.
Context {W : Type} (respond : forall q : Request, W -> Response q * W).
Context (P : PromptText).

Lemma withToast_same s : withToast (toast s) s = s.
Proof. by destruct s. Qed.

Lemma tokensRefused_run s i o s1 w :
  exists t, run exec respond (tokensRefused s i o) s1 w
            = (Returned (negb (withinTokenLimits s i o)), withToast t s1, w, [])
            /\ (withinTokenLimits s i o = true -> t = toast s1).
Proof.
  unfold tokensRefused, withinTokenLimits, checkApiAllowance.
  destruct (userApiLimits s) as [l|], (userPlan s) as [p|], (user s) as [u|];
    try (exists (Some (LimitsNotLoaded, toast_error)); by destruct s1).
  cbn. rewrite !Z.gtb_ltb, !Z.ltb_antisym.
  destruct (_ <=? max_input_tokens_per_month p); cbn.
  - destruct (_ <=? max_output_tokens_per_month p); cbn.
    + exists (toast s1). by rewrite withToast_same.
    + eexists (Some (_, toast_error)). by destruct s1.
  - eexists (Some (_, toast_error)). by destruct s1.
Qed.

Lemma run_throw {R} e s w : run exec respond (Throw e : App R) s w = (Thrown e, s, w, []).
Proof. done. Qed.

Lemma markError_status m f d : status (markError m f d) = Error.
Proof. done. Qed.

End PipelineFacts.

(** ** The pipeline: the worker and its queue *)

Section WorkerFacts.
Context {W : Type} (respond : forall q : Request, W -> Response q * W).
Context (P : PromptText).

Lemma tokensRefused_outcome s i o s1 w :
  outcomeOf (run exec respond (tokensRefused s i o) s1 w)
  = Returned (negb (withinTokenLimits s i o)).
Proof. by destruct (tokensRefused_run respond s i o s1 w) as (t & -> & _). Qed.

(** C5, as amended.  When an allowance check of the job being worked
    fails -- the one before the extraction, or the one before the
    classification of the text that the extraction returned -- every
    document of the job is marked [Error] with the message
    [RATE_LIMIT_EXCEEDED] and the job ends as rate limited: the worker sets
    its timer of 20 seconds, stays busy and leaves the queue as it is,
    with the job at its head. *)
Theorem allowance_failure_pauses_the_queue s nextItem rest w u text :
  let projectId := item_projectId nextItem in
  let documentId := item_documentId nextItem in
  let file := item_file nextItem in
  let estimatedInputTokens := JS.ceil_div (file_size file) (1024 * 4) in
  let refused i o := outcomeOf (run exec respond (tokensRefused s i o) s w) in
  user s = Some u ->
  isProcessing s = false ->
  processingQueue s = nextItem :: rest ->
  is_Some (findDocument (projects s) projectId documentId) ->
  refused estimatedInputTokens 2000 = Returned true
  \/ (refused estimatedInputTokens 2000 = Returned false
      /\ outcomeOf (run exec respond
                      (extractTextFromFile (Some (usr_id u)) file estimatedInputTokens 2000
                         "extractTextFromFile") s w) = Returned text
      /\ text ≠ RATE_LIMIT_EXCEEDED /\ text ≠ UNSUPPORTED_FOR_EXTRACTION
      /\ JS.startsWith text "Error" = false
      /\ refused 500 50 = Returned true) ->
  exists t, worker P s = Some t /\
    let r := run exec respond t s w in
    outcomeOf r = Returned tt
    /\ (forall d, d ∈ documentsAt projectId documentId (projects (stateOf r)) ->
          status d = Error /\ error d = Some RATE_LIMIT_EXCEEDED)
    /\ length (documentsAt projectId documentId (projects (stateOf r)))
       = length (documentsAt projectId documentId (projects s))
    /\ processingQueue (stateOf r) = nextItem :: rest
    /\ isProcessing (stateOf r) = true
    /\ timers (stateOf r) = timers s ++ [(AllowRetry, 20000)].
Proof.
  intros projectId documentId file estimatedInputTokens refused Hu Hidle Hq [d0 Hd] Href.
  unfold worker. rewrite Hu, Hidle, Hq. cbn [negb]. fold projectId documentId. rewrite Hd.
  eexists; split; [done|]. cbn zeta.
  rewrite run_bind, run_perform. cbn beta iota zeta.
  unfold job. fold projectId documentId file.
  rewrite run_try_catch, run_bind.
  unfold processSingleDocument. rewrite Hu.
  rewrite run_try_catch, run_bind, run_perform. cbn beta iota zeta.
  rewrite run_bind. fold estimatedInputTokens.
  match goal with |- context [run exec respond (tokensRefused s ?i ?o) ?s2 ?w2] =>
    destruct (tokensRefused_run respond s i o s2 w2) as (t1 & -> & _) end.
  unfold refused in Href. rewrite !tokensRefused_outcome in Href.
  cbn beta iota zeta.
  destruct Href as [Href | (Hpass & Htext & Hrl & Hun & Herr & Href)].
  - (* refused before the extraction *)
    injection Href as ->.
    rewrite run_throw. cbn beta iota zeta. rewrite run_bind, run_perform. cbn.
    rewrite Hq, !documentsAt_mapDocument by done. rewrite !length_map.
    split_and!; try done.
    intros d (d1 & -> & _)%list_elem_of_fmap. done.
  - injection Hpass as ->. injection Href as Href.
    rewrite run_bind.
    destruct (extractTextFromFile_run respond (Some (usr_id u)) file estimatedInputTokens
                2000 "extractTextFromFile" w) as (text' & w1 & qs1 & Hrun & _).
    rewrite Hrun in Htext |- *. injection Htext as ->.
    cbn beta iota zeta.
    apply String.eqb_neq in Hrl, Hun. rewrite Hrl, Hun, Herr.
    rewrite run_bind, run_perform. cbn beta iota zeta. rewrite run_bind.
    match goal with |- context [run exec respond (tokensRefused s ?i ?o) ?s2 ?w2] =>
      destruct (tokensRefused_run respond s i o s2 w2) as (t2 & -> & _) end.
    rewrite Href. cbn beta iota zeta.
    rewrite run_throw. cbn beta iota zeta. rewrite run_bind, run_perform. cbn.
    rewrite Hq, !documentsAt_mapDocument by done. rewrite !length_map.
    split_and!; try done.
    intros d (d1 & -> & _)%list_elem_of_fmap. done.
Qed.
End WorkerFacts.

(** The witness of [allowance_failure_pauses_the_queue]: the deed's job
    with the input tokens of the month used up. *)
Lemma allowance_failure_pauses_the_queue_witness :
  exists t, worker Sample.prompts (app (Sample.queued Sample.spent)) = Some t /\
    let r := run exec scripted t (app (Sample.queued Sample.spent)) [] in
    outcomeOf r = Returned tt
    /\ (forall d, d ∈ documentsAt "proj_1" "doc_deed" (projects (stateOf r)) ->
          status d = Error /\ error d = Some RATE_LIMIT_EXCEEDED)
    /\ length (documentsAt "proj_1" "doc_deed" (projects (stateOf r)))
       = length (documentsAt "proj_1" "doc_deed" (projects (app (Sample.queued Sample.spent))))
    /\ processingQueue (stateOf r) = [Sample.deedItem; Sample.taxItem]
    /\ isProcessing (stateOf r) = true
    /\ timers (stateOf r) = [] ++ [(AllowRetry, 20000)].
Proof.
  apply (allowance_failure_pauses_the_queue scripted Sample.prompts
           (app (Sample.queued Sample.spent)) Sample.deedItem [Sample.taxItem] []
           Sample.advocate "").
  - reflexivity.
  - reflexivity.
  - reflexivity.
  - vm_compute. eauto.
  - left. vm_compute. reflexivity.
Defined.

(** C5, the counterexample.  With the input tokens of the month used up, the
    worker marks the deed [Error] but does not advance: the queue still
    starts with the deed, the worker stays busy behind its timer, and when
    the timer has fired the deed's job is run again, to the same end.  The
    tax receipt behind it is never worked. *)
Lemma allowance_failure_does_not_advance :
  Sample.observe <$> steps Sample.prompts [WorkerEffect] (Sample.queued Sample.spent)
  = Some (["doc_deed"; "doc_tax"], true, [(AllowRetry, 20000)], 0%nat,
          [("doc_will", Processed); ("doc_deed", Error); ("doc_tax", Uploaded)])
  /\ Sample.observe <$> steps Sample.prompts [WorkerEffect; TimerFires 0; WorkerEffect]
                          (Sample.queued Sample.spent)
     = Some (["doc_deed"; "doc_tax"], true, [(AllowRetry, 20000)], 0%nat,
             [("doc_will", Processed); ("doc_deed", Error); ("doc_tax", Uploaded)]).
Proof. split; by vm_compute. Qed.

(** C1, at the failing input.  The provider answers the
    extraction of the deed and fails on its classification with an error
    that is no rate limit: [classifyDocument] returns the string ["Error"],
    and the pipeline stores it as the document's only type and marks the
    document [Processed].  ["Error"] is no member of the vocabulary. *)
Theorem classification_failure_is_processed_as_Error :
  let s := app (Sample.queued Sample.ledger) in
  let r := run exec scripted
             (processSingleDocument Sample.prompts s "proj_1" "doc_deed" Sample.deedPdf) s
             [ Sample.extracted "SALE DEED between R. Rao and S. Iyer"; ALogged;
               AGenerate (Rejected "TypeError: Failed to fetch"); ALogged ] in
  outcomeOf r = Returned PROCESS_SUCCESS
  /\ map (fun d => (status d, extractedText d, docTypes d))
       (documentsAt "proj_1" "doc_deed" (projects (stateOf r)))
     = [(Processed, Some "SALE DEED between R. Rao and S. Iyer", Some ["Error"])]
  /\ "Error" ∉ DOCUMENT_TYPE_NAMES.
Proof. split_and!; [by vm_compute..|apply Error_not_in_vocabulary]. Qed.

(** C2, at the failing trace.  A report generation that was
    started while the deed was being extracted writes the project it captured
    back when it ends; by then the deed is processed and the tax receipt is
    being extracted.  The write puts the deed back to [Extracting Text], and
    the tax receipt's job goes on to [Classifying]: two documents are in the
    states of the pipeline at once, although a single job is in flight. *)
Theorem stale_project_write_leaves_two_documents_in_progress :
  (fun m => (map (fun d => (doc_id d, status d)) (documentsInProgress (projects (app m))),
             length (jobs m)))
    <$> steps Sample.prompts Sample.reportDuringProcessing (Sample.queued Sample.ledger)
  = Some ([("doc_deed", Extracting_Text); ("doc_tax", Classifying)], 1%nat).
Proof. by vm_compute. Qed.

(** C8, at the failing input.  A provider failure whose text
    names [RESOURCE_EXHAUSTED] (and no 429) is a generic failure for five of
    the six operations, which look for [RESOURCE_EXCEEDED]; only
    [classifyDocument] returns the sentinel. *)
Theorem RESOURCE_EXHAUSTED_is_a_generic_error (P : PromptText) (J : JsonParse) (s : AppState) :
  let failure := Rejected "ApiError: RESOURCE_EXHAUSTED" in
  let world := [AGenerate failure; ALogged] in
  let userId := Some "user-1" in
  outcomeOf (run exec scripted
               (extractTextFromFile userId Sample.deedPdf 20 2000 "extractTextFromFile") s
               [AExtract (FileRead failure); ALogged])
    = Returned "Error: The text extraction process failed."
  /\ outcomeOf (run exec scripted
                  (extractProjectDetailsAndScenario P J userId "SALE DEED" 3 300
                     "extractProjectDetailsAndScenario") s world)
     = Returned (Details noDetails)
  /\ outcomeOf (run exec scripted
                  (analyzeDocumentCompleteness P J userId ["Sale Deed"]
                     ["Sale Deed"; "Mutation Entry"] 100 50 "analyzeDocumentCompleteness")
                  s world)
     = Returned (Missing [])
  /\ outcomeOf (run exec scripted
                  (generateReport P J userId (Sample.project [Sample.will]) "HDFC Format"
                     5005 10000 "generateReport") s world)
     = Returned (reportError "ApiError: RESOURCE_EXHAUSTED")
  /\ outcomeOf (run exec scripted
                  (reformatReport P userId "# Report" "HDFC Format" None 100 100
                     "reformatReport") s world)
     = Returned (reportError "Failed to reformat report: ApiError: RESOURCE_EXHAUSTED")
  /\ outcomeOf (run exec scripted
                  (classifyDocument P userId "SALE DEED" 500 50 "classifyDocument") s world)
     = Returned RATE_LIMIT_EXCEEDED.
Proof. split_and!; by vm_compute. Qed.

(** ** The metadata deriver *)










Section DeriverFacts.
Context {W : Type} (respond : forall q : Request, W -> Response q * W).
Context (P : PromptText) (J : JsonParse).



End DeriverFacts.

Section DeriverClaims.
Context {W : Type} (respond : forall q : Request, W -> Response q * W).
Context (P : PromptText) (J : JsonParse).




End DeriverClaims.

Section DeriverLock.
Context {W : Type} (respond : forall q : Request, W -> Response q * W).
Context (P : PromptText) (J : JsonParse).

End DeriverLock.





(** ** The quota ledger *)

Section AllowanceFacts.
Context {W : Type} (respond : forall q : Request, W -> Response q * W).

(** C3, as amended.  With the user, the plan and the ledger loaded,
    [checkApiAllowance('STR_GEN', 1)] always returns, and it returns [false]
    exactly when the monthly counter plus 1 exceeds the monthly cap, or --
    the monthly check having passed -- the read of today's usage fails, or
    today's count (0 when there is no row) plus 1 exceeds the daily cap; it
    returns [true] otherwise.  Today's usage is read only when the monthly
    check has passed. *)
Theorem str_allowance_decision s s1 w l p u :
  userApiLimits s = Some l ->
  userPlan s = Some p ->
  user s = Some u ->
  let monthlyExceeded := strs_used_monthly l + 1 > max_strs_per_month p in
  let now := respond (Sys Now) w in
  let read := Sys (SelectDailyUsage (usr_id u) (isoDay now.1)) in
  let daily := (respond read now.2).1 in
  let r := run exec respond (checkApiAllowance s STR_GEN 1) s1 w in
  (outcomeOf r = Returned false \/ outcomeOf r = Returned true)
  /\ (outcomeOf r = Returned false <->
      monthlyExceeded
      \/ (exists message, daily = SelectFailed message)
      \/ fieldOr0 str_count daily + 1 > max_strs_per_day p)
  /\ (monthlyExceeded -> requestsOf r = [])
  /\ (~ monthlyExceeded -> requestsOf r = [Sys Now; read]).
Proof.
  intros Hl Hp Hu monthlyExceeded now read daily.
  unfold checkApiAllowance. rewrite Hl, Hp, Hu. cbn zeta.
  rewrite Z.gtb_ltb. destruct (Z.ltb_spec (max_strs_per_month p) (strs_used_monthly l + 1))
    as [Hm|Hm].
  - (* the monthly cap is exceeded *)
    cbn. split_and!; [by left| |done|]. 
    + split; [|done]. intros _. left. unfold monthlyExceeded. lia.
    + intros []. unfold monthlyExceeded. lia.
  - cbn. fold now. destruct now as [d w1] eqn:En. cbn in read, daily. fold read.
    cbn. unfold daily. clear daily.
    destruct (respond read w1) as [x w2]. cbn [fst].
    assert (Hn : ~ monthlyExceeded) by (unfold monthlyExceeded; lia).
    destruct x as [row| |message]; cbn.
    + rewrite Z.gtb_ltb.
      destruct (Z.ltb_spec (max_strs_per_day p) (JS.or_num (str_count row) 0 + 1)); cbn.
      * split_and!; [by left| |done|done]. split; [|done]. intros _. right; right. lia.
      * split_and!; [by right| |done|done]. split; [done|].
        intros [?|[[? ?]|?]]; [done|done|lia].
    + rewrite Z.gtb_ltb.
      destruct (Z.ltb_spec (max_strs_per_day p) (0 + 1)); cbn.
      * split_and!; [by left| |done|done]. split; [|done]. intros _. right; right. lia.
      * split_and!; [by right| |done|done]. split; [done|].
        intros [?|[[? ?]|?]]; [done|done|lia].
    + split_and!; [by left| |done|done]. split; [|done]. intros _. right; left. eauto.
Qed.
End AllowanceFacts.

(** The witness of [str_allowance_decision]: the sample user, one report
    generated this month and none today. *)
Lemma str_allowance_decision_witness :
  let world := (Sample.calm, []) in
  let monthlyExceeded :=
    strs_used_monthly Sample.ledger + 1 > max_strs_per_month Sample.basic in
  let now := outside (Sys Now) world in
  let read := Sys (SelectDailyUsage (usr_id Sample.advocate) (isoDay now.1)) in
  let daily := (outside read now.2).1 in
  let r := run exec outside (checkApiAllowance Sample.settled STR_GEN 1) Sample.settled world in
  (outcomeOf r = Returned false \/ outcomeOf r = Returned true)
  /\ (outcomeOf r = Returned false <->
      monthlyExceeded
      \/ (exists message, daily = SelectFailed message)
      \/ fieldOr0 str_count daily + 1 > max_strs_per_day Sample.basic)
  /\ (monthlyExceeded -> requestsOf r = [])
  /\ (~ monthlyExceeded -> requestsOf r = [Sys Now; read]).
Proof.
  apply (str_allowance_decision outside Sample.settled Sample.settled (Sample.calm, [])
           Sample.ledger Sample.basic Sample.advocate); reflexivity.
Defined.

(** C3, the counterexample.  The sample user has generated one report this
    month (cap 5) and none today (cap 2), so neither cap would be exceeded;
    the read of today's usage fails, and the check returns [false]. *)
Lemma str_allowance_refused_below_both_caps :
  outcomeOf (run exec outside (checkApiAllowance Sample.settled STR_GEN 1) Sample.settled
               (Sample.failing, []))
    = Returned false
  /\ strs_used_monthly Sample.ledger + 1 <= max_strs_per_month Sample.basic
  /\ (str_count <$> daily_usage (db Sample.failing) !! ("user-1", "2024-03-05")) = Some 0
  /\ 0 + 1 <= max_strs_per_day Sample.basic.
Proof. split_and!; by vm_compute. Qed.

(** ** The usage counters *)


Lemma or_num_0 (a : Z) : JS.or_num a 0 = a.
Proof. unfold JS.or_num. destruct (Z.eqb_spec a 0); congruence. Qed.





#[local] Arguments write : simpl never.
#[local] Arguments select : simpl never.
#[local] Arguments runLedger : simpl never.





(** ** The loader of the stored snapshot *)

Lemma Json_lookup_set k v fields : Json.lookup k (Json.set k v fields) = Some v.
Proof.
  induction fields as [|[k' v'] fields IH]; cbn.
  - by rewrite String.eqb_refl.
  - destruct (String.eqb_spec k' k) as [->|Hne]; cbn.
    + by rewrite String.eqb_refl.
    + by destruct (String.eqb_spec k' k).
Qed.

Lemma Json_lookup_set_ne k k' v fields :
  k <> k' -> Json.lookup k (Json.set k' v fields) = Json.lookup k fields.
Proof.
  intros Hne. induction fields as [|[k1 v1] fields IH]; cbn.
  - by destruct (String.eqb_spec k' k) as [->|].
  - destruct (String.eqb_spec k1 k') as [->|Hk1]; cbn.
    + destruct (String.eqb_spec k' k) as [->|]; [done|].
      by destruct (String.eqb_spec k' k).
    + destruct (String.eqb_spec k1 k); [done|apply IH].
Qed.

Lemma Json_lookup_delete k fields : Json.lookup k (Json.delete k fields) = None.
Proof.
  unfold Json.delete. induction fields as [|[k1 v1] fields IH]; [done|].
  rewrite filter_cons. cbn. destruct (decide (k1 <> k)) as [Hne|]; [|done].
  cbn. by destruct (String.eqb_spec k1 k).
Qed.

Lemma Json_lookup_delete_ne k k' fields :
  k <> k' -> Json.lookup k (Json.delete k' fields) = Json.lookup k fields.
Proof.
  intros Hne. unfold Json.delete. induction fields as [|[k1 v1] fields IH]; [done|].
  rewrite filter_cons. cbn. destruct (decide (k1 <> k')) as [Hk1|Hk1]; cbn.
  - by rewrite IH.
  - apply dec_stable in Hk1 as ->. rewrite IH. by destruct (String.eqb_spec k' k) as [->|].
Qed.

(** The reducer keeps the order and drops the entries that add nothing. *)
Lemma fold_loadEntry entries acc :
  fold_left loadEntry entries acc = acc ++ omap loadValid entries.
Proof.
  revert acc. induction entries as [|e entries IH]; intros acc; cbn.
  - by rewrite app_nil_r.
  - rewrite IH. unfold loadEntry, loadValid. destruct (validEntry e); cbn; [|done].
    destruct (loadProject e); cbn; [|done]. by rewrite <- app_assoc.
Qed.

Lemma validEntry_id v : validEntry v = true -> exists fields x,
  v = JObj fields /\ Json.lookup "id" fields = Some x /\ Json.truthy x = true.
Proof.
  unfold validEntry. intros [[_ _]%andb_prop Hid]%andb_prop.
  destruct v; try done. cbn in Hid. destruct (Json.lookup "id" fields) eqn:E; [|done].
  eauto.
Qed.

(** The fields of a loaded document. *)
Lemma loadDocument_fields doc :
  exists fields, loadDocument doc = JObj fields
    /\ Json.lookup "docType" fields = None
    /\ Json.lookup "docTypes" fields = Some (JArr (
         let currentTypes := Json.arrayOr_nil (Json.get "docTypes" doc) in
         match Json.get "docType" doc with
         | Some t => if Json.truthy t && negb (Json.includes currentTypes t)
                     then currentTypes ++ [t] else currentTypes
         | None => currentTypes
         end))
    /\ (if isTransient (Json.lookup "status" (Json.spread doc))
        then Json.lookup "status" fields = Some (JStr "Error")
             /\ Json.lookup "error" fields
                = Some (JStr "Processing was interrupted. Please re-upload.")
             /\ Json.lookup "progress" fields = Some (JNum 0)
        else Json.lookup "status" fields = Json.lookup "status" (Json.spread doc)
             /\ Json.lookup "error" fields = Json.lookup "error" (Json.spread doc)
             /\ Json.lookup "progress" fields = Json.lookup "progress" (Json.spread doc)).
Proof.
  unfold loadDocument. cbn zeta.
  set (finalTypes := match Json.get "docType" doc with Some _ => _ | None => _ end).
  set (newDoc := Json.delete "docType" _).
  assert (Hs : Json.lookup "status" newDoc = Json.lookup "status" (Json.spread doc)).
  { unfold newDoc. by rewrite Json_lookup_delete_ne, Json_lookup_set_ne by done. }
  assert (Ht : Json.lookup "docTypes" newDoc = Some (JArr finalTypes)).
  { unfold newDoc. by rewrite Json_lookup_delete_ne, Json_lookup_set by done. }
  assert (Hd : Json.lookup "docType" newDoc = None) by apply Json_lookup_delete.
  rewrite Hs. destruct (isTransient (Json.lookup "status" (Json.spread doc))).
  - eexists. split; [done|]. split_and!.
    + by rewrite !Json_lookup_set_ne by done.
    + by rewrite !Json_lookup_set_ne by done.
    + rewrite !Json_lookup_set_ne by done. apply Json_lookup_set.
    + rewrite !Json_lookup_set_ne by done. apply Json_lookup_set.
    + apply Json_lookup_set.
  - eexists. split; [done|]. split_and!; try done.
    + unfold newDoc. by rewrite Json_lookup_delete_ne, Json_lookup_set_ne by done.
    + unfold newDoc. by rewrite Json_lookup_delete_ne, Json_lookup_set_ne by done.
Qed.





Lemma loadProjects_shape parse savedData :
  exists entries,
    loadProjects parse savedData = omap loadValid entries
    /\ (forall text parsed, savedData = Some text -> JS.truthy text = true ->
        parse text = Some (JArr parsed) -> entries = parsed).
Proof.
  unfold loadProjects. destruct savedData as [text|]; [|by exists []].
  destruct (JS.truthy text) eqn:Et; cbn.
  2:{ exists []. split; [done|]. intros ?? [= <-] ? ?. congruence. }
  destruct (parse text) as [v|] eqn:Ep.
  2:{ exists []. split; [done|]. intros ?? [= <-] ? ?. congruence. }
  destruct v as [| | | |l|];
    try (exists []; split; [done|]; intros ?? [= <-] ? ?; congruence).
  exists l. rewrite fold_loadEntry. split; [done|]. intros ?? [= <-] _ ?. congruence.
Qed.

Lemma loadDocument_settled doc :
  Json.get "docType" (loadDocument doc) = None
  /\ isTransient (Json.get "status" (loadDocument doc)) = false.
Proof.
  destruct (loadDocument_fields doc) as (fields & -> & Hd & _ & Hs). cbn.
  split; [done|].
  destruct (isTransient (Json.lookup "status" (Json.spread doc))) eqn:E.
  - destruct Hs as (-> & _). done.
  - destruct Hs as (-> & _). done.
Qed.


(** The sample snapshot, loaded: the entry without id and the string are
    skipped, and so is the project whose scenario has no name; the document
    without id and the [null] are dropped, the legacy type is not duplicated,
    the interrupted document is an error. *)
Lemma loading_the_sample_snapshot :
  loadProjects Sample.parseSaved (Some Sample.savedText) =
  [ JObj [("id", JStr "proj_1"); ("projectName", JStr "Plot 12");
          ("documents", JArr [
             JObj [("id", JStr "doc_1"); ("docTypes", JArr [JStr "Sale Deed"]);
                   ("status", JStr "Processed")];
             JObj [("id", JStr "doc_2"); ("status", JStr "Error"); ("progress", JNum 0);
                   ("docTypes", JArr [JStr "Will"]);
                   ("error", JStr "Processing was interrupted. Please re-upload.")]]);
          ("propertyAddress", JStr "Not Provided"); ("clientName", JStr "Not Provided");
          ("searchPeriod", JStr "Not Provided"); ("scenario", JStr "UNKNOWN");
          ("report", JNull); ("advocateInstructions", JStr "")];
    JObj [("id", JStr "proj_2"); ("documents", JArr []);
          ("projectName", JStr "Unnamed Project"); ("propertyAddress", JStr "Not Provided");
          ("clientName", JStr "Not Provided"); ("searchPeriod", JStr "Not Provided");
          ("scenario", JStr "UNKNOWN"); ("report", JNull); ("advocateInstructions", JStr "")] ].
Proof. by vm_compute. Qed.


(** ** The worker's exclusion *)

Lemma guarded_mono {R} (Q Q' : Outcome R -> AppState -> Prop) (t : App R) s :
  (forall o s', Q o s' -> Q' o s') -> guarded Q t s -> guarded Q' t s.
Proof.
  intros HQ. revert s. induction t as [r|e|a k IH|q k IH]; intros s; cbn;
    [apply HQ|apply HQ|apply IH|].
  intros [Hb Hk]. split; [done|]. intros x s' Hs'. apply IH, Hk, Hs'.
Qed.

Lemma guarded_bind {A B} (Q : Outcome B -> AppState -> Prop) (m : App A) (f : A -> App B) s :
  guarded (fun o s' => match o with
                       | Returned a => guarded Q (f a) s'
                       | Thrown e => Q (Thrown e) s'
                       end) m s ->
  guarded Q (m ≫= f) s.
Proof.
  revert s. induction m as [r|e|a k IH|q k IH]; intros s; cbn; [done|done|apply IH|].
  intros [Hb Hk]. split; [done|]. intros x s' Hs'. apply IH, Hk, Hs'.
Qed.

Lemma guarded_try_catch {A} (Q : Outcome A -> AppState -> Prop) (m : App A) h s :
  guarded (fun o s' => match o with
                       | Returned a => Q (Returned a) s'
                       | Thrown e => guarded Q (h e) s'
                       end) m s ->
  guarded Q (try_catch m h) s.
Proof.
  revert s. induction m as [r|e|a k IH|q k IH]; intros s; cbn; [done|done|apply IH|].
  intros [Hb Hk]. split; [done|]. intros x s' Hs'. apply IH, Hk, Hs'.
Qed.

(** The synchronous prefix of a guarded call leaves a guarded call. *)
Lemma guarded_advance {R} (Q : Outcome R -> AppState -> Prop) (t : App R) s :
  guarded Q t s ->
  guarded Q (advance exec t s).1 (advance exec t s).2
  /\ forall a k, (advance exec t s).1 <> Do a k.
Proof.
  revert s. induction t as [r|e|a k IH|q k IH]; intros s; cbn; [done|done|apply IH|done].
Qed.

Lemma Busy_Settled s : Busy s -> Settled s.
Proof. intros [H1 H2]. unfold Settled. rewrite H1, H2. lia. Qed.

Lemma quiet_logged {R} userId (r : R * LogCall) : quiet (logged userId r).
Proof. intros s Hs. cbn. auto. Qed.

Lemma quiet_checkApiAllowance s0 usageType value : quiet (checkApiAllowance s0 usageType value).
Proof.
  intros s Hs. unfold checkApiAllowance.
  destruct (userApiLimits s0), (userPlan s0), (user s0); try exact Hs.
  destruct usageType; cbn; repeat case_match; cbn; try exact Hs;
    repeat (split; [assumption|]; intros; cbn; repeat case_match; cbn);
    match goal with H : Busy ?s' |- Busy _ => exact H end.
Qed.

Lemma quiet_tokensRefused s0 i o : quiet (tokensRefused s0 i o).
Proof.
  intros s Hs. unfold tokensRefused. apply guarded_bind.
  eapply guarded_mono; [|by apply quiet_checkApiAllowance].
  intros [okIn|e] s1 H1; [|done]. destruct okIn; cbn; [|done].
  apply guarded_bind. eapply guarded_mono; [|by apply quiet_checkApiAllowance].
  by intros [okOut|e] s2 H2.
Qed.

Lemma quiet_extractTextFromFile userId file i o e : quiet (extractTextFromFile userId file i o e).
Proof.
  intros s Hs. unfold extractTextFromFile. case_match; [by apply quiet_logged|].
  cbn. split; [done|]. intros x s1 H1. split; [done|]. by intros [] s2 H2.
Qed.

Lemma quiet_classifyDocument P userId text i o e : quiet (classifyDocument P userId text i o e).
Proof.
  intros s Hs. unfold classifyDocument.
  cbn. split; [done|]. intros x s1 H1. split; [done|]. by intros [] s2 H2.
Qed.

Lemma Busy_withProjects ps s : Busy s -> Busy (withProjects ps s).
Proof. done. Qed.

Lemma quiet_processSingleDocument P s0 projectId documentId file :
  quiet (processSingleDocument P s0 projectId documentId file).
Proof.
  intros s Hs. unfold processSingleDocument. destruct (user s0) as [u|]; [|done].
  apply guarded_try_catch. cbn [perform mbind Async_bind bind guarded exec].
  assert (Hcatch : forall message s', Busy s' ->
    guarded (fun _ s1 => Busy s1)
      (perform (SetProjects (mapDocument projectId documentId
                               (markError message "AI processing failed")));;
       if String.eqb message RATE_LIMIT_EXCEEDED
       then Return PROCESS_RATE_LIMITED else Return PROCESS_ERROR) s').
  { intros message s' Hs'. cbn. by case_match. }
  apply guarded_bind. eapply guarded_mono; [|by apply quiet_tokensRefused].
  intros [refused|e] s1 B1; [|by apply Hcatch]. destruct refused; [by apply Hcatch|].
  apply guarded_bind. eapply guarded_mono; [|by apply quiet_extractTextFromFile].
  intros [text|e] s2 B2; [|by apply Hcatch].
  case_match; [done|]. case_match; [done|]. case_match; [by apply Hcatch|].
  cbn [perform mbind Async_bind bind guarded exec].
  apply guarded_bind. eapply guarded_mono; [|by apply quiet_tokensRefused].
  intros [refused|e] s3 B3; [|by apply Hcatch]. destruct refused; [by apply Hcatch|].
  apply guarded_bind. eapply guarded_mono; [|by apply quiet_classifyDocument].
  intros [label|e] s4 B4; [|by apply Hcatch].
  by case_match.
Qed.

Lemma retries_app s cb ms :
  retries (withTimers (timers s ++ [(cb, ms)]) s)
  = (retries s + if isAllowRetry cb then 1 else 0)%nat.
Proof.
  unfold retries. cbn. rewrite List.filter_app, length_app. cbn.
  by destruct (isAllowRetry cb).
Qed.

Lemma retries_delete s i cb ms :
  timers s !! i = Some (cb, ms) ->
  retries s
  = (retries (withTimers (delete i (timers s)) s) + if isAllowRetry cb then 1 else 0)%nat.
Proof.
  intros Hi. unfold retries. cbn. rewrite <- (take_drop_middle _ _ _ Hi) at 1.
  rewrite delete_take_drop, !List.filter_app, !length_app. cbn.
  destruct (isAllowRetry cb); cbn; lia.
Qed.

(** The job of the worker, started with the flag up, is suspended only with
    the flag up and ends with the flag down, or with the flag up and the
    timer set that will clear it. *)
Lemma job_guarded P s0 nextItem s :
  Busy s -> guarded (fun _ => Settled) (job P s0 nextItem) s.
Proof.
  intros Hs. unfold job. apply guarded_try_catch, guarded_bind.
  eapply guarded_mono; [|by apply quiet_processSingleDocument].
  intros [result|e] s1 [B1 B2].
  - destruct result; cbn; unfold Settled; cbn.
    + done.
    + done.
    + rewrite B1. rewrite List.filter_app, length_app. fold (retries s1). rewrite B2.
      cbn. lia.
  - cbn. unfold Settled. cbn. done.
Qed.

Lemma worker_guarded P s t :
  Settled s -> worker P s = Some t -> guarded (fun _ => Settled) t s.
Proof.
  unfold worker. intros Hs Hw. destruct (user s); [|done].
  destruct (isProcessing s) eqn:E; [done|]. cbn in Hw.
  unfold Settled in Hs. rewrite E in Hs.
  destruct (processingQueue s) as [|nextItem rest]; [done|].
  destruct (findDocument _ _ _); injection Hw as <-.
  - cbn [perform mbind Async_bind bind guarded]. apply job_guarded. by split.
  - cbn. unfold Settled. cbn. done.
Qed.

(** What a guarded call leaves in the list of jobs after its synchronous
    prefix. *)
Lemma oneJob_suspended (t : App unit) s generating :
  guarded (fun _ => Settled) t s ->
  oneJob (mkMachine (advance exec t s).2 (suspended (advance exec t s).1) generating).
Proof.
  intros H. apply guarded_advance in H as [H Hdo].
  destruct (advance exec t s) as [t' s']. cbn in *. unfold oneJob. cbn.
  destruct t'; cbn; try done. by destruct (Hdo a t').
Qed.

Lemma oneJob_cases m :
  oneJob m ->
  (jobs m = [] /\ Settled (app m))
  \/ exists q k, jobs m = [Await q k] /\ Busy (app m)
       /\ forall x s', Busy s' -> guarded (fun _ : Outcome unit => Settled) (k x) s'.
Proof.
  unfold oneJob. destruct (jobs m) as [|t ts]; [by left|].
  destruct t as [| | |q k]; try done. destruct ts; [|done].
  intros [Hb Hk]. right. by exists q, k.
Qed.

(** An event that leaves the flag and the timers alone keeps the exclusion. *)
Lemma oneJob_setApp s' m :
  isProcessing s' = isProcessing (app m) -> retries s' = retries (app m) ->
  oneJob m -> oneJob (setApp s' m).
Proof.
  intros H1 H2 [[Hj Hs]|(q & k & Hj & Hb & Hk)]%oneJob_cases; unfold oneJob, setApp; cbn;
    rewrite Hj.
  - unfold Settled in *. by rewrite H1, H2.
  - cbn. unfold Busy in *. by rewrite H1, H2.
Qed.

Lemma step_oneJob P e m m' : oneJob m -> step P e m = Some m' -> oneJob m'.
Proof.
  intros Hm. destruct e; cbn.
  - (* the worker effect *)
    destruct (worker P (app m)) as [t|] eqn:Hw; [|by intros [= <-]].
    destruct (oneJob_cases m Hm) as [[Hj Hs]|(q & k & Hj & Hb & Hk)]; rewrite Hj.
    + pose proof (oneJob_suspended t (app m) (generating m) (worker_guarded P _ _ Hs Hw)) as H.
      destruct (advance exec t (app m)) as [t' s']. by intros [= <-].
    + destruct Hb as [Hb _]. unfold worker in Hw. rewrite Hb in Hw.
      by destruct (user (app m)).
  - (* a job is resumed *)
    destruct (oneJob_cases m Hm) as [[Hj Hs]|(q & k & Hj & Hb & Hk)]; rewrite Hj;
      [by destruct i|].
    destruct i as [|i]; cbn; [|by destruct i].
    destruct (answerFor q a) as [x|]; [|done]. cbn.
    pose proof (oneJob_suspended (k x) (app m) (generating m) (Hk x _ Hb)) as H.
    destruct (advance exec (k x) (app m)) as [t' s']. intros [= <-].
    by rewrite app_nil_r.
  - (* a timer fires *)
    destruct (timers (app m) !! i) as [[cb ms]|] eqn:Hi; [|done].
    pose proof (retries_delete _ _ _ _ Hi) as Hr.
    destruct cb; intros [= <-].
    + cbn [isAllowRetry] in Hr.
      destruct (oneJob_cases m Hm) as [[Hj Hs]|(q & k & Hj & Hb & Hk)];
        unfold oneJob, setApp; cbn; rewrite Hj.
      * unfold Settled in *. cbn.
        change (retries (withTimers (delete i (timers (app m))) (app m)) = 0%nat).
        destruct (isProcessing (app m)); lia.
      * destruct Hb as [_ Hb]. lia.
    + apply oneJob_setApp; [done| |done]. cbn [isAllowRetry] in Hr. lia.
    + apply oneJob_setApp; [done| |done]. cbn [isAllowRetry] in Hr. lia.
  - case_match; [|done]. intros [= <-]. by apply oneJob_setApp.
  - intros [= <-]. by apply oneJob_setApp.
  - intros [= <-]. by apply oneJob_setApp.
  - case_match; [|done]. intros [= <-]. by apply oneJob_setApp.
  - intros [= <-]. by apply oneJob_setApp.
  - intros [= <-]. by apply oneJob_setApp.
  - intros [= <-]. by apply oneJob_setApp.
  - case_match; [|done]. intros [= <-]. by apply oneJob_setApp.
  - case_match; [|done]. case_match; [|done]. intros [= <-]. by apply (oneJob_setApp (app m)).
  - case_match; [|done]. intros [= <-].
    by apply (oneJob_setApp _ (mkMachine (app m) (jobs m) (delete i (generating m)))).
  - intros [= <-]. by apply oneJob_setApp.
  - intros [= <-]. by apply oneJob_setApp.
  - intros [= <-]. by apply oneJob_setApp.
Qed.

Lemma steps_oneJob P es m m' : oneJob m -> steps P es m = Some m' -> oneJob m'.
Proof.
  revert m. induction es as [|e es IH]; intros m Hm; cbn.
  - by intros [= <-].
  - destruct (step P e m) as [m1|] eqn:E; [|done]. cbn.
    apply IH. by eapply step_oneJob.
Qed.

(** X2.  In every state that the application reaches from its start, by any
    sequence of events and any answers of the provider and the store, the
    worker has at most one job in flight, and while a job is in flight
    [isProcessing] is set and no timer is pending that would clear it: no two
    jobs, and so no two extract or classify calls of the pipeline, overlap. *)
Theorem worker_runs_one_job_at_a_time P loaded es m :
  steps P es (initial loaded) = Some m ->
  (length (jobs m) <= 1)%nat
  /\ (jobs m <> [] -> isProcessing (app m) = true /\ retries (app m) = 0%nat).
Proof.
  intros H. assert (Hm : oneJob m).
  { eapply steps_oneJob; [|exact H]. unfold oneJob, initial, Settled. done. }
  destruct (oneJob_cases m Hm) as [[Hj Hs]|(q & k & Hj & Hb & Hk)]; rewrite Hj; cbn.
  - split; [lia|done].
  - split; [lia|]. by intros _.
Qed.

(** The witness of [worker_runs_one_job_at_a_time]: the sample session, with
    the deed's job in flight at its end. *)
Lemma worker_runs_one_job_at_a_time_witness :
  exists m, steps Sample.prompts Sample.fromTheStart (initial []) = Some m
    /\ length (jobs m) = 1%nat
    /\ (length (jobs m) <= 1)%nat
    /\ (jobs m <> [] -> isProcessing (app m) = true /\ retries (app m) = 0%nat).
Proof.
  assert (H : length <$> (jobs <$> steps Sample.prompts Sample.fromTheStart (initial []))
              = Some 1%nat) by (by vm_compute).
  revert H.
  destruct (steps Sample.prompts Sample.fromTheStart (initial [])) as [m|] eqn:E; [|done].
  intros [= H]. exists m. split; [done|]. split; [done|].
  exact (worker_runs_one_job_at_a_time Sample.prompts [] Sample.fromTheStart m E).
Defined.

(* ===================================================================== *)
(** * Part III: further properties of the code *)
(* ===================================================================== *)

(** ** What a call ensures *)

Lemma ensures_mono {R} (Q Q' : Outcome R -> AppState -> Prop) (t : App R) s :
  (forall o s', Q o s' -> Q' o s') -> ensures Q t s -> ensures Q' t s.
Proof.
  intros HQ. revert s. induction t as [r|e|a k IH|q k IH]; intros s; cbn;
    [apply HQ|apply HQ|apply IH|].
  intros Hk x. apply IH, Hk.
Qed.

Lemma ensures_bind {A B} (Q : Outcome B -> AppState -> Prop) (m : App A) (f : A -> App B) s :
  ensures (fun o s' => match o with
                       | Returned a => ensures Q (f a) s'
                       | Thrown e => Q (Thrown e) s'
                       end) m s ->
  ensures Q (m ≫= f) s.
Proof.
  revert s. induction m as [r|e|a k IH|q k IH]; intros s; cbn; [done|done|apply IH|].
  intros Hk x. apply IH, Hk.
Qed.

Lemma ensures_try_catch {A} (Q : Outcome A -> AppState -> Prop) (m : App A) h s :
  ensures (fun o s' => match o with
                       | Returned a => Q (Returned a) s'
                       | Thrown e => ensures Q (h e) s'
                       end) m s ->
  ensures Q (try_catch m h) s.
Proof.
  revert s. induction m as [r|e|a k IH|q k IH]; intros s; cbn; [done|done|apply IH|].
  intros Hk x. apply IH, Hk.
Qed.

Lemma ensures_finally {A} (Q : Outcome A -> AppState -> Prop) (m : App A) fin s :
  ensures (fun o s' =>
             ensures (fun o2 s2 => match o2 with
                                   | Returned _ => Q o s2
                                   | Thrown e => Q (Thrown e) s2
                                   end) fin s') m s ->
  ensures Q (finally m fin) s.
Proof.
  revert s. induction m as [r|e|a k IH|q k IH]; intros s; cbn.
  - intros H. apply ensures_bind. eapply ensures_mono; [|exact H]. by intros [].
  - intros H. apply ensures_bind. eapply ensures_mono; [|exact H]. by intros [].
  - apply IH.
  - intros Hk x. apply IH, Hk.
Qed.

(** Whatever holds of every outcome and state holds at the end of a call. *)
Lemma ensures_any {R} (Q : Outcome R -> AppState -> Prop) (t : App R) s :
  (forall o s', Q o s') -> ensures Q t s.
Proof.
  intros HQ. revert s. induction t as [r|e|a k IH|q k IH]; intros s; cbn; auto.
Qed.

(** [ensures] is sound for [run]. *)
Lemma ensures_run {R W} (Q : Outcome R -> AppState -> Prop) (t : App R)
    (respond : forall q : Request, W -> Response q * W) s w :
  ensures Q t s ->
  Q (outcomeOf (run exec respond t s w)) (stateOf (run exec respond t s w)).
Proof.
  revert s w. induction t as [r|e|a k IH|q k IH]; intros s w; cbn; [done|done|apply IH|].
  intros Hk. destruct (respond q w) as [x w1].
  specialize (IH x s w1 (Hk x)).
  by destruct (run exec respond (k x) s w1) as [[[o s'] w2] qs].
Qed.

(** A [try] whose [catch] cannot throw cannot throw. *)
Lemma neverThrows_try_catch {A} (m : App A) h :
  (forall e, neverThrows (h e)) -> neverThrows (try_catch m h).
Proof.
  intros Hh s. apply ensures_try_catch. revert s.
  induction m as [r|e|a k IH|q k IH]; intros s; cbn; auto. apply Hh.
Qed.

Lemma neverThrows_bind {A B} (m : App A) (f : A -> App B) :
  neverThrows m -> (forall a, neverThrows (f a)) -> neverThrows (m ≫= f).
Proof.
  intros Hm Hf s. apply ensures_bind. eapply ensures_mono; [|apply Hm].
  intros [a|e] s'; [intros _; apply Hf|done].
Qed.

Lemma neverThrows_finally {A} (m : App A) fin :
  neverThrows m -> neverThrows fin -> neverThrows (finally m fin).
Proof.
  intros Hm Hf s. apply ensures_finally. eapply ensures_mono; [|apply Hm].
  intros [a|e] s'; [intros _|done]. eapply ensures_mono; [|apply Hf]. by intros [].
Qed.

Lemma neverThrows_logged {R} userId (r : R * LogCall) : neverThrows (logged userId r).
Proof. intros s. cbn. done. Qed.

Lemma neverThrows_perform a : neverThrows (perform a).
Proof. by intros s. Qed.

Lemma neverThrows_run {R W} (t : App R) (respond : forall q : Request, W -> Response q * W) s w :
  neverThrows t -> exists r, outcomeOf (run exec respond t s w) = Returned r.
Proof.
  intros Ht. pose proof (ensures_run _ t respond s w (Ht s)) as H. cbn in H.
  destruct (outcomeOf _) as [r|e]; [by exists r|done].
Qed.

Lemma neverThrows_checkApiAllowance s0 usageType value :
  neverThrows (checkApiAllowance s0 usageType value).
Proof.
  intros s. unfold checkApiAllowance.
  destruct (userApiLimits s0), (userPlan s0), (user s0); try done.
  destruct usageType; cbn; repeat case_match; cbn; try done;
    intros; cbn; repeat case_match; cbn; try done; intros; cbn; repeat case_match; by cbn.
Qed.

Lemma neverThrows_tokensRefused s0 i o : neverThrows (tokensRefused s0 i o).
Proof.
  unfold tokensRefused. apply neverThrows_bind; [apply neverThrows_checkApiAllowance|].
  intros okIn. destruct okIn; cbn; [|done].
  apply neverThrows_bind; [apply neverThrows_checkApiAllowance|]. done.
Qed.

Section NeverThrows.
Context (P : PromptText) (J : JsonParse).

(** X3.  None of the asynchronous functions of [App.tsx] that call the
    provider or the store rejects its promise, whatever the outside answers:
    [fetchUserPlanAndLimits], [runProjectDetailExtraction],
    [processSingleDocument] and the job that the worker chains on it (its
    [then] and [catch]) always return, because each ends in a [catch] that
    only sets state. *)
Theorem core_calls_never_throw {W} (respond : forall q : Request, W -> Response q * W)
    (s s1 : AppState) (w : W) :
  (forall userId,
     returned (outcomeOf (run exec respond (fetchUserPlanAndLimits userId) s1 w)))
  /\ (forall projectId,
        returned (outcomeOf (run exec respond (runProjectDetailExtraction P J s projectId) s1 w)))
  /\ (forall projectId documentId file,
        returned (outcomeOf (run exec respond
                               (processSingleDocument P s projectId documentId file) s1 w)))
  /\ (forall nextItem,
        returned (outcomeOf (run exec respond (job P s nextItem) s1 w))).
Proof.
  assert (Hrun : forall R (t : App R), neverThrows t ->
            returned (outcomeOf (run exec respond t s1 w))).
  { intros R t Ht. exact (ensures_run _ t respond s1 w (Ht s1)). }
  split_and!; intros; apply Hrun.
  - apply neverThrows_try_catch. intros e. apply neverThrows_perform.
  - unfold runProjectDetailExtraction. destruct (user s); [|done].
    case_match; [done|]. apply neverThrows_bind; [apply neverThrows_tokensRefused|].
    intros refused. destruct refused; [done|].
    apply (neverThrows_bind (perform _)); [apply neverThrows_perform|]. intros _.
    apply neverThrows_finally; [|apply neverThrows_perform].
    apply neverThrows_try_catch. done.
  - unfold processSingleDocument. destruct (user s); [|done].
    apply neverThrows_try_catch. intros e s'. cbn. by case_match.
  - unfold job. apply neverThrows_try_catch. intros e s'. by cbn.
Qed.
End NeverThrows.

(** ** The metadata deriver on every path *)



(** The allowance checks of the tokens change nothing but the toast. *)
Lemma ensures_tokensRefused s0 i o s :
  ensures (fun out s' => returned out /\ exists t, s' = withToast t s) (tokensRefused s0 i o) s.
Proof.
  assert (Hsame : exists t, s = withToast t s) by (exists (toast s); by destruct s).
  assert (Hset : forall m ty, exists t, exec (SetToast m ty) s = withToast t s)
    by (intros; by eexists (Some (_, _))).
  unfold tokensRefused, checkApiAllowance.
  destruct (userApiLimits s0), (userPlan s0), (user s0); cbn; try (split; [done|apply Hset]).
  repeat case_match; cbn; split; try done; try apply Hset.
Qed.



Section DeriverPaths.
Context {W : Type} (respond : forall q : Request, W -> Response q * W).
Context (P : PromptText) (J : JsonParse).


End DeriverPaths.

(** ** The token estimate *)

Lemma ceil_div_4 (n : Z) : 0 <= n ->
  4 * (JS.ceil_div n 4 - 1) < n <= 4 * JS.ceil_div n 4.
Proof. intros Hn. unfold JS.ceil_div. Z.div_mod_to_equations. lia. Qed.

Lemma estimateTokens_nonempty (t : string) :
  t <> "" -> estimateTokens (Some t) = JS.ceil_div (Z.of_nat (String.length t)) 4
             /\ 0 < estimateTokens (Some t).
Proof.
  intros Ht. unfold estimateTokens. apply truthy_nonempty in Ht as Hy. rewrite Hy.
  split; [done|]. destruct t as [|c t]; [done|]. cbn [String.length].
  pose proof (ceil_div_4 (Z.of_nat (S (String.length t)))). lia.
Qed.

(** X6.  [estimateTokens] counts a token for every four characters, rounded
    up: it is 0 for a missing or empty text and otherwise the least number [n]
    with [length <= 4 n], so at least 1; a longer text never has a smaller
    estimate.  What the gateway logs for a call is this estimate of the prompt
    or answer when it is not 0, and the caller's estimate otherwise. *)
Theorem estimateTokens_is_a_quarter_rounded_up (t t' : string) :
  estimateTokens None = 0
  /\ estimateTokens (Some "") = 0
  /\ (t <> "" ->
      let n := estimateTokens (Some t) in
      1 <= n /\ 4 * (n - 1) < Z.of_nat (String.length t) <= 4 * n)
  /\ ((String.length t <= String.length t')%nat ->
      estimateTokens (Some t) <= estimateTokens (Some t'))
  /\ (forall e i o ok msg,
        t <> "" -> t' <> "" ->
        let lg := logFlash e i o (estimateTokens (Some t)) (estimateTokens (Some t')) ok msg in
        log_promptTokens lg = estimateTokens (Some t)
        /\ log_completionTokens lg = estimateTokens (Some t'))
  /\ (forall e i o ok msg,
        let lg := logFlash e i o (estimateTokens None) (estimateTokens (Some "")) ok msg in
        log_promptTokens lg = i /\ log_completionTokens lg = o).
Proof.
  split_and!; try done.
  - intros Ht n. destruct (estimateTokens_nonempty t Ht) as [E Hpos]. unfold n. rewrite E in *.
    pose proof (ceil_div_4 (Z.of_nat (String.length t))). lia.
  - intros Hlen. unfold estimateTokens, JS.truthy.
    destruct (String.eqb_spec t "") as [->|Ht]; cbn.
    + case_match; [|done]. unfold JS.ceil_div. Z.div_mod_to_equations. lia.
    + destruct (String.eqb_spec t' "") as [->|Ht']; cbn.
      * destruct t; [done|]. cbn in Hlen. lia.
      * unfold JS.ceil_div. Z.div_mod_to_equations. lia.
  - intros e i o ok msg Ht Ht' lg. unfold lg, logFlash.
    cbn [log_promptTokens log_completionTokens]. unfold JS.or_num.
    destruct (estimateTokens_nonempty t Ht) as [_ H1].
    destruct (estimateTokens_nonempty t' Ht') as [_ H2].
    destruct (Z.eqb_spec (estimateTokens (Some t)) 0); [lia|].
    destruct (Z.eqb_spec (estimateTokens (Some t')) 0); [lia|]. done.
Qed.

(** ** The classification of an answer *)

(** Every name of the vocabulary is found, in lower case, in the joined
    text, and is the first name equal to it when case is ignored. *)
Lemma vocabulary_matches_itself :
  forallb (fun t =>
             JS.includes (JS.toLowerCase DOCUMENT_TYPES) (JS.toLowerCase t)
             && match List.find (fun t' => String.eqb (JS.toLowerCase t') (JS.toLowerCase t))
                        DOCUMENT_TYPE_NAMES with
                | Some t' => String.eqb t' t
                | None => false
                end
             && JS.truthy t)
    DOCUMENT_TYPE_NAMES = true.
Proof. by vm_compute. Qed.

(** X5.  [classifyDocument] turns a non-blank answer of the provider into
    a label by an exact match that ignores case: an answer equal, case
    ignored, to a name of the vocabulary gives that name in its own spelling,
    and any other answer gives 'Other', also one that is only a part of a
    name or of the joined list of names.  The call is then logged as a
    success with the estimated tokens of the trimmed answer. *)
Theorem classification_is_an_exact_match_ignoring_case (P : PromptText) (c : string) :
  (forall t, t ∈ DOCUMENT_TYPE_NAMES -> JS.toLowerCase c = JS.toLowerCase t ->
             matchClassification c = t)
  /\ ((forall t, t ∈ DOCUMENT_TYPE_NAMES -> JS.toLowerCase c <> JS.toLowerCase t) ->
      matchClassification c = "Other")
  /\ (forall text documentText i o e,
        text <> "" -> JS.trim text = c -> c <> "" ->
        let r := classifyDocument_outcome P documentText i o e (Responded (Some text)) in
        r.1 = matchClassification c
        /\ log_success r.2 = true
        /\ log_completionTokens r.2 = estimateTokens (Some c)
        /\ log_errorMessage r.2 = None).
Proof.
  pose proof vocabulary_matches_itself as Hall.
  rewrite forallb_forall in Hall.
  split_and!.
  - intros t Ht Hc. apply list_elem_of_In, Hall in Ht.
    apply andb_prop in Ht as [[Hinc Hfind]%andb_prop Htruthy].
    unfold matchClassification. rewrite Hc, Hinc, typesArray_names.
    destruct (List.find _ _) as [t'|]; [|done].
    apply String.eqb_eq in Hfind as ->. cbn. by rewrite Htruthy.
  - intros Hnone. unfold matchClassification. case_match; [|done].
    rewrite typesArray_names.
    destruct (List.find _ _) as [t'|] eqn:Hf; [|done].
    apply find_some in Hf as [Hin Heq]. apply String.eqb_eq in Heq.
    by destruct (Hnone t' (proj2 (list_elem_of_In _ _) Hin)).
  - intros text documentText i o e Htext Htrim Hc. cbn zeta.
    assert (Hb : blankText (Some text) = false).
    { unfold blankText. change (default "" (Some text)) with text. cbn [JS.truthy_opt].
      apply truthy_nonempty in Htext as ->.
      rewrite Htrim. by destruct (String.eqb_spec c ""). }
    unfold classifyDocument_outcome. rewrite Hb. change (default "" (Some text)) with text.
    cbn [fst snd]. rewrite Htrim.
    split_and!; try done. unfold logFlash. cbn [log_completionTokens]. unfold JS.or_num.
    destruct (estimateTokens_nonempty c Hc) as [_ Hpos].
    by destruct (Z.eqb_spec (estimateTokens (Some c)) 0); [lia|].
Qed.

(** ** The pipeline: how a job ends *)

Lemma statusAt_mapDocument pid did f st ps s :
  projects s = mapDocument pid did f ps ->
  (forall d, doc_id (f d) = doc_id d) -> (forall d, status (f d) = st) ->
  statusAt pid did st s.
Proof.
  intros Hp Hid Hst. unfold statusAt. rewrite Hp.
  rewrite documentsAt_mapDocument by done. apply Forall_fmap, Forall_forall. intros d _. apply Hst.
Qed.

Section JobEnds.
Context (P : PromptText).

Lemma ensures_extractTextFromFile userId file i o e s :
  ensures (fun out s' => returned out /\ s' = s) (extractTextFromFile userId file i o e) s.
Proof. unfold extractTextFromFile. case_match; cbn; done. Qed.

Lemma ensures_classifyDocument userId text i o e s :
  ensures (fun out s' => returned out /\ s' = s) (classifyDocument P userId text i o e) s.
Proof. unfold classifyDocument. cbn. done. Qed.

(** How [processSingleDocument] ends, by its result. *)
Lemma ensures_processSingleDocument s pid did file s1 u :
  user s = Some u ->
  ensures (fun out s' =>
    exists result, out = Returned result
      /\ (processingQueue s', isProcessing s', timers s')
         = (processingQueue s1, isProcessing s1, timers s1)
      /\ match result with
         | PROCESS_SUCCESS =>
             (statusAt pid did Processed s' \/ statusAt pid did Unsupported s')
             /\ started s' = started s1 ++ [FetchUserPlanAndLimits (usr_id u)]
         | PROCESS_ERROR => statusAt pid did Error s' /\ started s' = started s1
         | PROCESS_RATE_LIMITED =>
             (statusAt pid did Error s' \/ statusAt pid did Extracting_Text s'
              \/ statusAt pid did Classifying s')
             /\ started s' = started s1
         end)
    (processSingleDocument P s pid did file) s1.
Proof.
  intros Hu. unfold processSingleDocument. rewrite Hu.
  set (Q := fun (out : Outcome ProcessResult) (s' : AppState) => exists result, _).
  (* the [catch], from a state that differs from [s1] in projects and toast *)
  assert (Hcatch : forall message s2,
    workerFields s2 = workerFields s1 ->
    ensures Q
      (perform (SetProjects (mapDocument pid did (markError message "AI processing failed")));;
       if String.eqb message RATE_LIMIT_EXCEEDED
       then Return PROCESS_RATE_LIMITED else Return PROCESS_ERROR) s2).
  { intros message s2 [= H1 H2 H3 H4]. cbn -[mapDocument].
    assert (Hst : statusAt pid did Error
                    (withProjects (mapDocument pid did (markError message "AI processing failed")
                                     (projects s2)) s2))
      by (eapply statusAt_mapDocument; [reflexivity|done|done]).
    case_match; cbn -[mapDocument]; eexists; (split; [done|]); cbn -[mapDocument];
      rewrite H1, H2, H3, H4; auto. }
  apply ensures_try_catch. cbn [perform mbind Async_bind bind ensures].
  apply ensures_bind. eapply ensures_mono; [|apply ensures_tokensRefused].
  intros [refused|e] s2 [Hr [t ->]]; [|done].
  destruct refused; [by apply Hcatch|].
  apply ensures_bind. eapply ensures_mono; [|apply ensures_extractTextFromFile].
  intros [text|e] s3 [Hr3 ->]; [|done].
  case_match.
  { (* rate limited at the extraction *)
    cbn -[mapDocument]. exists PROCESS_RATE_LIMITED. split_and!; try done.
    right; left. eapply statusAt_mapDocument; [reflexivity|done|done]. }
  case_match.
  { cbn -[mapDocument]. exists PROCESS_SUCCESS. split_and!; try done.
    right. eapply statusAt_mapDocument; [reflexivity|done|done]. }
  case_match; [by apply Hcatch|].
  cbn [perform mbind Async_bind bind ensures].
  apply ensures_bind. eapply ensures_mono; [|apply ensures_tokensRefused].
  intros [refused|e] s4 [Hr4 [t4 ->]]; [|done].
  destruct refused; [by apply Hcatch|].
  apply ensures_bind. eapply ensures_mono; [|apply ensures_classifyDocument].
  intros [label|e] s5 [Hr5 ->]; [|done].
  case_match.
  { cbn -[mapDocument]. exists PROCESS_RATE_LIMITED. split_and!; try done.
    right; right. eapply statusAt_mapDocument; [reflexivity|done|done]. }
  cbn -[mapDocument]. exists PROCESS_SUCCESS. split_and!; try done.
  left. eapply statusAt_mapDocument; [reflexivity|done|done].
Qed.

(** X7.  Whatever the outside answers, a job that the worker starts for the
    head of the queue returns and ends in one of two ways.  Either the queue
    advances: the head is dropped, [isProcessing] is cleared and no timer is
    set, with the job's document [Processed] or [Unsupported] and the metadata
    derivation of its project started, or with the document in [Error] and no
    derivation started (or the document was not found and nothing else
    changed).  Or the queue pauses: it keeps its head, [isProcessing] stays
    set and the timer of 20 seconds is set, with the document in [Error],
    [Extracting Text] or [Classifying] and no derivation started. *)
Theorem job_ends_advanced_or_paused {W} (respond : forall q : Request, W -> Response q * W)
    (s : AppState) (t : App unit) (w : W) :
  worker P s = Some t ->
  let r := run exec respond t s w in
  exists nextItem rest u,
    processingQueue s = nextItem :: rest /\ user s = Some u /\
    let pid := item_projectId nextItem in
    let did := item_documentId nextItem in
    let s' := stateOf r in
    returned (outcomeOf r)
    /\ ((processingQueue s' = rest /\ isProcessing s' = false /\ timers s' = timers s
         /\ (((statusAt pid did Processed s' \/ statusAt pid did Unsupported s')
              /\ started s' = started s ++ [FetchUserPlanAndLimits (usr_id u);
                                            RunProjectDetailExtraction pid])
             \/ (statusAt pid did Error s' /\ started s' = started s)
             \/ (findDocument (projects s) pid did = None
                 /\ projects s' = projects s /\ started s' = started s)))
        \/ (processingQueue s' = nextItem :: rest /\ isProcessing s' = true
            /\ timers s' = timers s ++ [(AllowRetry, 20000)]
            /\ started s' = started s
            /\ (statusAt pid did Error s' \/ statusAt pid did Extracting_Text s'
                \/ statusAt pid did Classifying s'))).
Proof.
  unfold worker. destruct (user s) as [u|] eqn:Hu; [|done].
  destruct (isProcessing s) eqn:Hidle; [done|]. cbn [negb].
  destruct (processingQueue s) as [|nextItem rest] eqn:Hq; [done|].
  intros Ht. cbn zeta. exists nextItem, rest, u. split; [done|]. split; [done|].
  set (pid := item_projectId nextItem) in *. set (did := item_documentId nextItem) in *.
  set (Q := fun (out : Outcome unit) (s' : AppState) =>
    returned out
    /\ ((processingQueue s' = rest /\ isProcessing s' = false /\ timers s' = timers s
         /\ (((statusAt pid did Processed s' \/ statusAt pid did Unsupported s')
              /\ started s' = started s ++ [FetchUserPlanAndLimits (usr_id u);
                                            RunProjectDetailExtraction pid])
             \/ (statusAt pid did Error s' /\ started s' = started s)
             \/ (findDocument (projects s) pid did = None
                 /\ projects s' = projects s /\ started s' = started s)))
        \/ (processingQueue s' = nextItem :: rest /\ isProcessing s' = true
            /\ timers s' = timers s ++ [(AllowRetry, 20000)]
            /\ started s' = started s
            /\ (statusAt pid did Error s' \/ statusAt pid did Extracting_Text s'
                \/ statusAt pid did Classifying s')))).
  apply (ensures_run Q).
  destruct (findDocument (projects s) pid did) as [d0|] eqn:Hd; injection Ht as <-.
  2:{ cbn. unfold Q. cbn. rewrite Hq. split; [done|]. left. split_and!; try done.
      right; right. done. }
  cbn [perform mbind Async_bind bind ensures]. unfold job.
  apply ensures_try_catch, ensures_bind.
  eapply ensures_mono; [|by apply ensures_processSingleDocument].
  fold pid did. cbn beta.
  intros out s2 (result & -> & [= H1 H2 H3] & Hres). cbn in H1, H2, H3.
  destruct result; cbn; unfold Q; cbn; rewrite ?H1, ?H2, ?H3, ?Hq; cbn.
  - destruct Hres as [Hst Hstarted]. split; [done|]. left. split_and!; try done.
    left. rewrite Hstarted, <- app_assoc. split; [|done].
    destruct Hst; [by left|by right].
  - destruct Hres as [Hst Hstarted]. split; [done|]. left. split_and!; try done.
    right; left. done.
  - destruct Hres as [Hst Hstarted]. split; [done|]. right. split_and!; try done.
Qed.
End JobEnds.

(** The witness of [job_ends_advanced_or_paused]: the deed's job of the
    sample queue, with the provider answering both calls. *)
Lemma job_ends_advanced_or_paused_witness :
  let s := app (Sample.queued Sample.ledger) in
  exists t, worker Sample.prompts s = Some t /\
  let r := run exec scripted t s
             [ Sample.extracted "SALE DEED between R. Rao and S. Iyer"; ALogged;
               Sample.labelled "Sale Deed"; ALogged ] in
  exists nextItem rest u,
    processingQueue s = nextItem :: rest /\ user s = Some u /\
    let pid := item_projectId nextItem in
    let did := item_documentId nextItem in
    let s' := stateOf r in
    returned (outcomeOf r)
    /\ ((processingQueue s' = rest /\ isProcessing s' = false /\ timers s' = timers s
         /\ (((statusAt pid did Processed s' \/ statusAt pid did Unsupported s')
              /\ started s' = started s ++ [FetchUserPlanAndLimits (usr_id u);
                                            RunProjectDetailExtraction pid])
             \/ (statusAt pid did Error s' /\ started s' = started s)
             \/ (findDocument (projects s) pid did = None
                 /\ projects s' = projects s /\ started s' = started s)))
        \/ (processingQueue s' = nextItem :: rest /\ isProcessing s' = true
            /\ timers s' = timers s ++ [(AllowRetry, 20000)]
            /\ started s' = started s
            /\ (statusAt pid did Error s' \/ statusAt pid did Extracting_Text s'
                \/ statusAt pid did Classifying s'))).
Proof.
  cbn zeta. eexists. split; [reflexivity|].
  apply (job_ends_advanced_or_paused Sample.prompts scripted
           (app (Sample.queued Sample.ledger))).
  reflexivity.
Defined.

(** ** The pipeline under a rate limit of the provider *)

Lemma supported_is_not_local file i e :
  JS.mem (file_type file) SUPPORTED_MIME_TYPES_FOR_EXTRACTION = true ->
  extractTextFromFile_local file i e = None.
Proof.
  intros Hs. unfold extractTextFromFile_local. pose proof Hs as Hs'.
  assert (H : forallb (fun t => JS.truthy t && negb (JS.mem t KNOWN_UNSUPPORTED_MIME_TYPES))
                SUPPORTED_MIME_TYPES_FOR_EXTRACTION = true) by by vm_compute.
  rewrite forallb_forall in H. unfold JS.mem in Hs'. apply existsb_exists in Hs' as (t & Hin & Ht).
  apply String.eqb_eq in Ht as <-. apply H in Hin. apply andb_prop in Hin as [-> Hk].
  apply negb_true_iff in Hk. rewrite Hk. cbn [negb orb]. by rewrite Hs.
Qed.

Section RateLimit.
Context {W : Type} (respond : forall q : Request, W -> Response q * W).
Context (P : PromptText).

(** X8.  When the provider rejects the extraction of the job's file with
    an error that names 429 (or RESOURCE_EXCEEDED), the job ends as rate
    limited: every document of the job stays in [Extracting Text] and gets no
    error message, the queue keeps the job at its head, the worker stays busy
    and sets its timer of 20 seconds; the provider was called once and the
    call is logged as a failure. *)
Theorem provider_rate_limit_pauses_the_job s nextItem rest w u errMessage :
  let projectId := item_projectId nextItem in
  let documentId := item_documentId nextItem in
  let file := item_file nextItem in
  let estimatedInputTokens := JS.ceil_div (file_size file) (1024 * 4) in
  let q := GeminiExtract file extractionPrompt in
  user s = Some u ->
  isProcessing s = false ->
  processingQueue s = nextItem :: rest ->
  is_Some (findDocument (projects s) projectId documentId) ->
  withinTokenLimits s estimatedInputTokens 2000 = true ->
  JS.mem (file_type file) SUPPORTED_MIME_TYPES_FOR_EXTRACTION = true ->
  (respond q w).1 = FileRead (Rejected errMessage) ->
  isRateLimit_EXCEEDED errMessage = true ->
  exists t, worker P s = Some t /\
    let r := run exec respond t s w in
    outcomeOf r = Returned tt
    /\ documentsAt projectId documentId (projects (stateOf r))
       = map (markStatus Extracting_Text) (documentsAt projectId documentId (projects s))
    /\ processingQueue (stateOf r) = nextItem :: rest
    /\ isProcessing (stateOf r) = true
    /\ timers (stateOf r) = timers s ++ [(AllowRetry, 20000)]
    /\ started (stateOf r) = started s
    /\ exists lg, requestsOf r = [q; LogAiCall (Some (usr_id u)) lg]
                  /\ log_success lg = false
                  /\ log_errorMessage lg = Some "Rate limit exceeded".
Proof.
  intros projectId documentId file estimatedInputTokens q Hu Hidle Hq [d0 Hd] Hok Hsup Ho Hrl.
  unfold worker. rewrite Hu, Hidle, Hq. cbn [negb]. fold projectId documentId. rewrite Hd.
  eexists; split; [done|]. cbn zeta.
  rewrite run_bind, run_perform. cbn beta iota zeta.
  unfold job. fold projectId documentId file.
  rewrite run_try_catch, run_bind.
  unfold processSingleDocument. rewrite Hu.
  rewrite run_try_catch, run_bind, run_perform. cbn beta iota zeta.
  rewrite run_bind. fold estimatedInputTokens.
  match goal with |- context [run exec respond (tokensRefused s ?i ?o) ?s2 ?w2] =>
    destruct (tokensRefused_run respond s i o s2 w2) as (t1 & -> & Ht1) end.
  rewrite Hok in Ht1 |- *. rewrite (Ht1 eq_refl), withToast_same. cbn beta iota zeta.
  cbn [negb]. rewrite run_bind. unfold extractTextFromFile.
  rewrite supported_is_not_local by done. cbn beta iota.
  rewrite run_bind, (run_await respond (GeminiExtract _ _)). cbn beta iota zeta.
  fold q. rewrite Ho, logged_run.
  unfold extractTextFromFile_outcome. rewrite Hrl. cbn.
  rewrite Hq, documentsAt_mapDocument by done.
  split_and!; try done. eexists. split; [done|]. done.
Qed.
End RateLimit.

(** The witness of [provider_rate_limit_pauses_the_job]: the deed's job of
    the sample queue, the provider answering 429. *)
Lemma provider_rate_limit_pauses_the_job_witness :
  let s := app (Sample.queued Sample.ledger) in
  let q := GeminiExtract Sample.deedPdf extractionPrompt in
  exists t, worker Sample.prompts s = Some t /\
    let r := run exec scripted t s
               [AExtract (FileRead (Rejected "429 Too Many Requests")); ALogged] in
    outcomeOf r = Returned tt
    /\ documentsAt "proj_1" "doc_deed" (projects (stateOf r))
       = map (markStatus Extracting_Text) (documentsAt "proj_1" "doc_deed" (projects s))
    /\ processingQueue (stateOf r) = [Sample.deedItem; Sample.taxItem]
    /\ isProcessing (stateOf r) = true
    /\ timers (stateOf r) = timers s ++ [(AllowRetry, 20000)]
    /\ started (stateOf r) = started s
    /\ exists lg, requestsOf r = [q; LogAiCall (Some "user-1") lg]
                  /\ log_success lg = false
                  /\ log_errorMessage lg = Some "Rate limit exceeded".
Proof.
  apply (provider_rate_limit_pauses_the_job scripted Sample.prompts
           (app (Sample.queued Sample.ledger)) Sample.deedItem [Sample.taxItem]
           [AExtract (FileRead (Rejected "429 Too Many Requests")); ALogged]
           Sample.advocate "429 Too Many Requests").
  - reflexivity.
  - reflexivity.
  - reflexivity.
  - vm_compute. eauto.
  - reflexivity.
  - reflexivity.
  - reflexivity.
  - reflexivity.
Defined.

(** ** What one logged call costs *)

Ltac store :=
  repeat (progress (try unfold write; try unfold select; try unfold nextFault;
                    cbn -[lookup insert alter])).

(** X9.  With a store that answers every request, one call of [logAiCall]
    run alone writes exactly this.  Without a user id nothing is written.
    Otherwise one audit row is appended; a call that did not succeed changes
    no counter; a call that succeeded adds its prompt and completion tokens
    to the user's row of the day (created from zero when there is none) and
    to the user's monthly row (when there is one), and adds one report to
    both only under the endpoint [generateReport].  No other row changes. *)
Theorem logAiCall_charges_exactly_the_call userId lg w :
  faults w = [] ->
  let d := db w in
  let w' := runLedger (logAiCall userId lg) w in
  let d' := db w' in
  let u := default "" userId in
  let day := isoDay (today w) in
  let inc := if String.eqb (log_apiEndpointType lg) "generateReport" then 1 else 0 in
  let old := default (mkDailyUsage 0 0 0) (daily_usage d !! (u, day)) in
  if JS.truthy_opt userId then
    ai_usage d' = ai_usage d ++ [(u, lg)]
    /\ plans d' = plans d
    /\ if log_success lg
       then daily_usage d'
            = <[(u, day) := mkDailyUsage (str_count old + inc)
                              (input_tokens old + log_promptTokens lg)
                              (output_tokens old + log_completionTokens lg)]> (daily_usage d)
            /\ api_limits d'
               = alter (fun l => setCounters (strs_used_monthly l + inc)
                                   (input_tokens_used_monthly l + log_promptTokens lg)
                                   (output_tokens_used_monthly l + log_completionTokens lg) l)
                   u (api_limits d)
       else daily_usage d' = daily_usage d /\ api_limits d' = api_limits d
  else w' = w.
Proof.
  intros Hf. destruct w as [d t pd fs]. cbn in Hf. subst fs. cbn zeta.
  unfold logAiCall. destruct (JS.truthy_opt userId); cbn [negb]; [|done].
  generalize (default "" userId). intros u.
  generalize (if String.eqb (log_apiEndpointType lg) "generateReport" then 1 else 0).
  intros inc.
  unfold runLedger. store.
  destruct (log_success lg); store; [|done].
  destruct (daily_usage d !! (u, isoDay t)) as [r|] eqn:Er; store;
    (destruct (api_limits d !! u) as [l|] eqn:El; store;
     rewrite ?or_num_0; (split_and!; [done|done|done|]); apply map_eq; intros k;
     destruct (decide (k = u)) as [->|Hk];
     rewrite ?lookup_alter_eq, ?lookup_alter_ne, ?El by done; done).
Qed.

(** The witness of [logAiCall_charges_exactly_the_call]: the extraction of
    the sample deed, logged against the sample store. *)
Lemma logAiCall_charges_exactly_the_call_witness :
  let w := Sample.calm in
  let lg := Sample.extractionLog in
  let d := db w in
  let w' := runLedger (logAiCall (Some "user-1") lg) w in
  let d' := db w' in
  let u := default "" (Some "user-1") in
  let day := isoDay (today w) in
  let inc := if String.eqb (log_apiEndpointType lg) "generateReport" then 1 else 0 in
  let old := default (mkDailyUsage 0 0 0) (daily_usage d !! (u, day)) in
  if JS.truthy_opt (Some "user-1") then
    ai_usage d' = ai_usage d ++ [(u, lg)]
    /\ plans d' = plans d
    /\ if log_success lg
       then daily_usage d'
            = <[(u, day) := mkDailyUsage (str_count old + inc)
                              (input_tokens old + log_promptTokens lg)
                              (output_tokens old + log_completionTokens lg)]> (daily_usage d)
            /\ api_limits d'
               = alter (fun l => setCounters (strs_used_monthly l + inc)
                                   (input_tokens_used_monthly l + log_promptTokens lg)
                                   (output_tokens_used_monthly l + log_completionTokens lg) l)
                   u (api_limits d)
       else daily_usage d' = daily_usage d /\ api_limits d' = api_limits d
  else w' = w.
Proof.
  apply (logAiCall_charges_exactly_the_call (Some "user-1") Sample.extractionLog Sample.calm).
  reflexivity.
Defined.

(** ** What the ledger read leaves in the state *)

Ltac fault :=
  match goal with
  | |- context [mkWorld _ _ _ ?fs] => is_var fs; destruct fs as [|[] fs]
  end.

Ltac loaded p :=
  split_and!; try done; right; eexists p, _, _;
  (split_and!; [done| |done|reflexivity|reflexivity]); by cbn.

Ltac failed :=
  split_and!; try done; left; split_and!; [by eexists|done..].

Ltac settle :=
  store;
  first
    [ failed
    | match goal with Hin : In ?p _ |- _ => loaded p end
    | fault; settle
    | match goal with
      | |- context [api_limits ?d !! ?u] => destruct (api_limits d !! u) eqn:?; settle
      end
    | match goal with
      | |- context [List.find ?f (plans ?d)] =>
          let Ep := fresh "Ep" in
          destruct (List.find f (plans d)) eqn:Ep;
          [apply find_some in Ep as [? ?];
           try match goal with H : (_ =? _) = true |- _ => apply Z.eqb_eq in H end|];
          settle
      end
    | match goal with
      | |- context [bool_decide ?a || bool_decide ?b] =>
          destruct (bool_decide a || bool_decide b); settle
      end ].

(** X10.  [fetchUserPlanAndLimits] returns whatever the store answers, and
    touches neither the projects, the queue, the worker's fields nor the
    derivation locks.  It ends in one of two ways.  Either it shows the
    toast "Failed to load plan" and leaves the user, the plan and the ledger
    row of the state, and the store, as they were; or it puts a plan of the
    store and a ledger row of that plan into the state together, and the
    usage figures of both into the signed-in user. *)
Theorem ledger_read_loads_plan_and_row_together userId s1 w a :
  let r := run exec outside (fetchUserPlanAndLimits userId) s1 (w, a) in
  let s' := stateOf r in
  outcomeOf r = Returned tt
  /\ projects s' = projects s1
  /\ workerFields s' = workerFields s1
  /\ isExtractingFor s' = isExtractingFor s1
  /\ lastFetchDate s' = isoDay (today w)
  /\ ((exists m, toast s' = Some (FailedToLoadPlan m, toast_error))
      /\ user s' = user s1 /\ userPlan s' = userPlan s1
      /\ userApiLimits s' = userApiLimits s1
      /\ db (worldOf r).1 = db w
      \/ exists p l n,
           In p (plans (db w)) /\ plan_id l = plan_key p
           /\ userPlan s' = Some p /\ userApiLimits s' = Some l
           /\ user s' = userWithUsage p l n (user s1)).
Proof.
  destruct w as [d t pd fs]. cbn zeta. unfold fetchUserPlanAndLimits.
  cbn -[lookup insert alter]. settle.
Qed.

(** ** Loading what was loaded *)

Lemma Json_set_same k v fields :
  Json.lookup k fields = Some v -> Json.set k v fields = fields.
Proof.
  induction fields as [|[k' v'] fields IH]; cbn; [done|].
  destruct (String.eqb_spec k' k) as [->|Hne]; [by intros [= ->]|].
  intros H. by rewrite IH.
Qed.

Lemma Json_delete_none k fields :
  Json.lookup k fields = None -> Json.delete k fields = fields.
Proof.
  unfold Json.delete. induction fields as [|[k' v'] fields IH]; [done|].
  rewrite filter_cons. cbn.
  destruct (String.eqb_spec k' k) as [->|Hne]; [done|]. intros H.
  destruct (decide (k' <> k)); [|done]. by rewrite IH.
Qed.

Lemma Json_or_or v d : Json.or (Some (Json.or v d)) d = Json.or v d.
Proof.
  unfold Json.or. destruct v as [x|]; [destruct (Json.truthy x) eqn:E|].
  - by rewrite E.
  - by destruct (Json.truthy d).
  - by destruct (Json.truthy d).
Qed.

(** Loading a loaded document changes nothing. *)
Lemma loadDocument_idempotent doc : loadDocument (loadDocument doc) = loadDocument doc.
Proof.
  destruct (loadDocument_fields doc) as (fields & E & Hd & Ht & _).
  pose proof (loadDocument_settled doc) as [_ Hs].
  cbn zeta in Ht.
  match type of Ht with _ = Some (JArr ?x) => set (finalTypes := x) in *; clearbody finalTypes end.
  rewrite E in Hs |- *. cbn in Hs. unfold loadDocument. cbn [Json.get Json.spread].
  rewrite Hd, Ht. cbn [Json.arrayOr_nil].
  rewrite (Json_set_same _ _ _ Ht), (Json_delete_none _ _ Hd). by rewrite Hs.
Qed.

Lemma validEntry_loadDocument doc : validEntry doc = true -> validEntry (loadDocument doc) = true.
Proof.
  intros (fields & x & -> & Hid & Hx)%validEntry_id.
  unfold loadDocument. cbn [Json.get Json.spread].
  set (newDoc := Json.delete "docType" _).
  assert (H : Json.lookup "id" newDoc = Some x).
  { unfold newDoc. by rewrite Json_lookup_delete_ne, Json_lookup_set_ne by done. }
  destruct (isTransient _); unfold validEntry; cbn;
    rewrite ?Json_lookup_set_ne by done; by rewrite H.
Qed.

Lemma Forall_filter_validEntry (l : list JSON) :
  Forall (fun d => validEntry d = true) (List.filter validEntry l).
Proof.
  apply List.Forall_forall. intros d Hd. by apply filter_In in Hd as [_ Hd].
Qed.

Lemma reload_documents (l : list JSON) :
  Forall (fun d => validEntry d = true) l ->
  map loadDocument (List.filter validEntry (map loadDocument l)) = map loadDocument l.
Proof.
  induction 1 as [|d l Hd _ IH]; [done|]. cbn [map List.filter].
  rewrite (validEntry_loadDocument _ Hd). cbn [map].
  by rewrite loadDocument_idempotent, IH.
Qed.

Lemma validScenario_idempotent v x :
  validScenario v = Some x -> validScenario (Some x) = Some x.
Proof.
  assert (HU : validScenario (Some (JStr "UNKNOWN")) = Some (JStr "UNKNOWN")) by by vm_compute.
  unfold validScenario at 1. destruct v as [y|]; [|by intros [= <-]].
  destruct (Json.truthy y) eqn:Ey; [|by intros [= <-]].
  destruct (Json.toString y) as [key|] eqn:Ek; [|done]. cbn [mbind option_bind].
  destruct (bool_decide (is_Some (SCENARIOS !! key))) eqn:Eb; intros [= <-]; [|done].
  unfold validScenario. rewrite Ey, Ek. cbn [mbind option_bind]. by rewrite Eb.
Qed.

(** Loading a loaded project changes nothing. *)
Lemma loadValid_idempotent entry loaded :
  loadValid entry = Some loaded -> loadValid loaded = Some loaded.
Proof.
  unfold loadValid. destruct (validEntry entry) eqn:Ev; [|done].
  apply validEntry_id in Ev as (fields & x & -> & Hid & Hx).
  unfold loadProject. destruct (validScenario _) as [scenario|] eqn:Es; [|done].
  cbn [mbind option_bind]. cbn [Json.spread]. intros [= <-].
  apply validScenario_idempotent in Es.
  set (docs := map loadDocument _).
  set (Q := Json.set "advocateInstructions" _ _).
  assert (Hdocs : Json.lookup "documents" Q = Some (JArr docs)).
  { unfold Q. rewrite !Json_lookup_set_ne by done. apply Json_lookup_set. }
  assert (Hname : Json.lookup "projectName" Q
                  = Some (Json.or (Json.get "projectName" (JObj fields)) (JStr "Unnamed Project"))).
  { unfold Q. rewrite !Json_lookup_set_ne by done. apply Json_lookup_set. }
  assert (Haddr : Json.lookup "propertyAddress" Q
                  = Some (Json.or (Json.get "propertyAddress" (JObj fields)) (JStr "Not Provided"))).
  { unfold Q. rewrite !Json_lookup_set_ne by done. apply Json_lookup_set. }
  assert (Hclient : Json.lookup "clientName" Q
                  = Some (Json.or (Json.get "clientName" (JObj fields)) (JStr "Not Provided"))).
  { unfold Q. rewrite !Json_lookup_set_ne by done. apply Json_lookup_set. }
  assert (Hperiod : Json.lookup "searchPeriod" Q
                  = Some (Json.or (Json.get "searchPeriod" (JObj fields)) (JStr "Not Provided"))).
  { unfold Q. rewrite !Json_lookup_set_ne by done. apply Json_lookup_set. }
  assert (Hscen : Json.lookup "scenario" Q = Some scenario).
  { unfold Q. rewrite !Json_lookup_set_ne by done. apply Json_lookup_set. }
  assert (Hrep : Json.lookup "report" Q = Some (Json.or (Json.get "report" (JObj fields)) JNull)).
  { unfold Q. rewrite !Json_lookup_set_ne by done. apply Json_lookup_set. }
  assert (Hadv : Json.lookup "advocateInstructions" Q
                 = Some (Json.or (Json.get "advocateInstructions" (JObj fields)) (JStr ""))).
  { unfold Q. apply Json_lookup_set. }
  assert (Hid' : Json.lookup "id" Q = Some x).
  { unfold Q. by rewrite !Json_lookup_set_ne by done. }
  assert (Hv : validEntry (JObj Q) = true).
  { unfold validEntry. cbn. by rewrite Hid'. }
  rewrite Hv. cbn [Json.get Json.spread].
  rewrite Hdocs, Hname, Haddr, Hclient, Hperiod, Hscen, Hrep, Hadv, Es. cbn [Json.arrayOr_nil].
  cbn [mbind option_bind]. rewrite !Json_or_or.
  unfold docs at 1. rewrite reload_documents by apply Forall_filter_validEntry. fold docs.
  rewrite (Json_set_same _ _ _ Hdocs), (Json_set_same _ _ _ Hname),
    (Json_set_same _ _ _ Haddr), (Json_set_same _ _ _ Hclient),
    (Json_set_same _ _ _ Hperiod), (Json_set_same _ _ _ Hscen),
    (Json_set_same _ _ _ Hrep), (Json_set_same _ _ _ Hadv).
  done.
Qed.

(** X11.  Loading is idempotent.  A loaded document loaded again is the same
    document, a loaded project loaded again is the same project, and a
    snapshot made of the loaded projects loads to exactly these projects, in
    the same order: none is skipped, none is changed. *)
Theorem loading_what_was_loaded_changes_nothing
    (parse : string -> option JSON) (savedData : option string) :
  let loaded := loadProjects parse savedData in
  (forall doc, loadDocument (loadDocument doc) = loadDocument doc)
  /\ (forall project, In project loaded -> loadValid project = Some project)
  /\ fold_left loadEntry loaded [] = loaded
  /\ (forall text, text <> "" ->
        loadProjects (fun _ => Some (JArr loaded)) (Some text) = loaded).
Proof.
  cbn zeta.
  assert (Hin : forall project, In project (loadProjects parse savedData) ->
                  loadValid project = Some project).
  { intros project Hp.
    destruct (loadProjects_shape parse savedData) as (entries & E & _).
    rewrite E in Hp. apply list_elem_of_In, list_elem_of_omap in Hp as (entry & _ & Hp).
    by apply loadValid_idempotent in Hp. }
  assert (Hfold : fold_left loadEntry (loadProjects parse savedData) []
                  = loadProjects parse savedData).
  { rewrite fold_loadEntry. cbn [app].
    induction (loadProjects parse savedData) as [|p ps IH]; [done|].
    cbn [omap list_omap]. rewrite (Hin p) by by left. cbn. f_equal. apply IH.
    intros q Hq. apply Hin. by right. }
  split_and!; [apply loadDocument_idempotent|exact Hin|exact Hfold|].
  intros text Ht. unfold loadProjects at 1. apply truthy_nonempty in Ht as ->.
  cbn [negb]. exact Hfold.
Qed.

(** ** Which files are sent to the provider *)


Section FileGate.
Context {W : Type} (respond : forall q : Request, W -> Response q * W).

(** X12.  [extractTextFromFile] sends a file to the provider exactly when its
    type is one of the ten supported types.  Any other file is answered
    without a request to the provider, by one call of [logAiCall] under the
    model name [N/A_CLIENT_UNSUPPORTED] carrying the caller's estimate of the
    input tokens.  A file without a type or of a known unsupported type is
    answered with the unsupported marker (a DOCX file with its placeholder
    text) and the call is logged as a success; a file of any other type is
    answered with an error text and logged as a failure.  The state is not
    touched. *)
Theorem only_supported_files_are_sent userId file estimatedInputTokens
    estimatedOutputTokens apiEndpointType s w :
  let r := run exec respond
             (extractTextFromFile userId file estimatedInputTokens estimatedOutputTokens
                apiEndpointType) s w in
  let type := file_type file in
  stateOf r = s
  /\ if JS.mem type SUPPORTED_MIME_TYPES_FOR_EXTRACTION
     then exists lg, requestsOf r = [GeminiExtract file extractionPrompt; LogAiCall userId lg]
                     /\ log_model lg = "gemini-2.5-flash"
     else exists lg, requestsOf r = [LogAiCall userId lg]
            /\ log_model lg = "N/A_CLIENT_UNSUPPORTED"
            /\ log_apiEndpointType lg = apiEndpointType
            /\ log_promptTokens lg = estimatedInputTokens
            /\ log_completionTokens lg = 0
            /\ if String.eqb type "" || JS.mem type KNOWN_UNSUPPORTED_MIME_TYPES
               then log_success lg = true
                    /\ outcomeOf r
                       = Returned (if String.eqb type DOCX_MIME
                                   then docxPlaceholder (file_name file)
                                   else UNSUPPORTED_FOR_EXTRACTION)
               else log_success lg = false
                    /\ exists text, outcomeOf r = Returned text
                         /\ JS.startsWith text "Error" = true
                         /\ log_errorMessage lg = Some text.
Proof.
  cbn zeta. unfold extractTextFromFile.
  destruct (JS.mem (file_type file) SUPPORTED_MIME_TYPES_FOR_EXTRACTION) eqn:Hs.
  - rewrite supported_is_not_local by done.
    rewrite run_bind, (run_await respond (GeminiExtract _ _)). cbn beta iota zeta.
    rewrite logged_run. split; [done|]. eexists. split; [done|].
    unfold extractTextFromFile_outcome, logFlash. by repeat case_match.
  - unfold extractTextFromFile_local. rewrite Hs. cbn [negb].
    unfold JS.truthy. rewrite negb_involutive.
    destruct (String.eqb (file_type file) "" || _); rewrite logged_run;
      (split; [done|]); eexists; (split; [done|]); split_and!; try done.
    eexists. split_and!; done.
Qed.
End FileGate.

(** ** Assigning a document type by hand *)

Lemma mem_In x l : JS.mem x l = true <-> In x l.
Proof.
  unfold JS.mem. rewrite existsb_exists. split.
  - intros (y & Hy & ->%String.eqb_eq). done.
  - intros H. exists x. split; [done|apply String.eqb_refl].
Qed.

Lemma addDocType_idempotent newType d :
  addDocType newType (addDocType newType d) = addDocType newType d.
Proof.
  unfold addDocType at 2. cbn zeta.
  destruct (JS.mem newType (default [] (docTypes d))) eqn:E; unfold addDocType; cbn zeta.
  - by rewrite E.
  - cbn [docTypes patchDocument default from_option id].
    assert (H : JS.mem newType (default [] (docTypes d) ++ [newType]) = true).
    { apply mem_In, in_or_app. right. by left. }
    change (from_option id [] (docTypes d)) with (default [] (docTypes d)).
    by rewrite H, E.
Qed.

Lemma mapDocument_mapDocument pid did f g ps :
  (forall d, doc_id (g d) = doc_id d) ->
  mapDocument pid did f (mapDocument pid did g ps) = mapDocument pid did (f ∘ g) ps.
Proof.
  intros Hg. unfold mapDocument, mapProject. rewrite map_map. apply map_ext. intros p.
  destruct (String.eqb (proj_id p) pid) eqn:E; cbn [proj_id withDocuments]; rewrite E; [|done].
  unfold withDocuments. cbn. f_equal. rewrite map_map. apply map_ext. intros d.
  destruct (String.eqb (doc_id d) did) eqn:Ed; cbn; [by rewrite Hg, Ed|by rewrite Ed].
Qed.

Lemma mapDocument_ext pid did f g ps :
  (forall d, f d = g d) -> mapDocument pid did f ps = mapDocument pid did g ps.
Proof.
  intros H. unfold mapDocument, mapProject. apply map_ext. intros p.
  destruct (String.eqb (proj_id p) pid); [|done]. f_equal. apply map_ext. intros d.
  by destruct (String.eqb (doc_id d) did).
Qed.

Lemma documentsAt_mapDocument_other pid did pid' did' f ps :
  (forall d, doc_id (f d) = doc_id d) ->
  pid' <> pid \/ did' <> did ->
  documentsAt pid' did' (mapDocument pid did f ps) = documentsAt pid' did' ps.
Proof.
  intros Hf Hne. unfold documentsAt, mapDocument, mapProject.
  induction ps as [|p ps IH]; [done|]. cbn.
  destruct (String.eqb_spec (proj_id p) pid) as [Ep|Ep]; cbn.
  - destruct (String.eqb_spec (proj_id p) pid') as [Ep'|Ep']; cbn; [|done].
    rewrite IH. f_equal. destruct Hne as [Hne|Hne]; [congruence|].
    induction (documents p) as [|d ds IHd]; [done|]. cbn.
    destruct (String.eqb_spec (doc_id d) did) as [Ed|Ed]; cbn.
    + rewrite Hf. destruct (String.eqb_spec (doc_id d) did'); [congruence|done].
    + destruct (String.eqb_spec (doc_id d) did'); by rewrite IHd.
  - destruct (String.eqb_spec (proj_id p) pid'); cbn; by rewrite IH.
Qed.

(** X13.  [handleUpdateDocumentType] is additive and idempotent.  Afterwards
    the documents it names have the new type; the types they had are kept, in
    their order, and the new one is appended only when it was not among them,
    so that a list without duplicates stays one; nothing else of these
    documents changes and every other document is as before; and assigning
    the same type again changes nothing. *)
Theorem assigning_a_type_is_additive_and_idempotent projectId documentId newType ps :
  let assign := mapDocument projectId documentId (addDocType newType) in
  let types d := default [] (docTypes d) in
  documentsAt projectId documentId (assign ps)
  = map (addDocType newType) (documentsAt projectId documentId ps)
  /\ (forall d, In newType (types (addDocType newType d))
           /\ (if JS.mem newType (types d)
               then addDocType newType d = d
               else types (addDocType newType d) = types d ++ [newType])
           /\ (NoDup (types d) -> NoDup (types (addDocType newType d)))
           /\ patchDocument (addDocType newType d) (docTypes d) (status d)
                (extractedText d) (error d) = d)
  /\ (forall pid did, pid <> projectId \/ did <> documentId ->
        documentsAt pid did (assign ps) = documentsAt pid did ps)
  /\ assign (assign ps) = assign ps.
Proof.
  cbn zeta. split_and!.
  - by apply documentsAt_mapDocument; intros d; unfold addDocType; case_match.
  - intros d. unfold addDocType. cbn zeta.
    destruct (JS.mem newType (default [] (docTypes d))) eqn:E.
    + split_and!; [by apply mem_In|done|done|by destruct d].
    + cbn [docTypes patchDocument default from_option id]. split_and!.
      * apply in_or_app. right. by left.
      * done.
      * intros Hnd. apply NoDup_app. split_and!; [done| |apply NoDup_singleton].
        intros x Hx [->|[]]%list_elem_of_In. apply list_elem_of_In, mem_In in Hx. congruence.
      * by destruct d.
  - intros pid did Hne. apply documentsAt_mapDocument_other; [|done].
    intros d. unfold addDocType. by case_match.
  - rewrite mapDocument_mapDocument by (intros d; unfold addDocType; by case_match).
    apply mapDocument_ext. intros d. apply addDocType_idempotent.
Qed.

(** ** Which calls are charged *)



Section Charged.
Context (P : PromptText) (J : JsonParse).

End Charged.

(** ** The requests of a gateway call *)

Lemma length_0_eqb (t : string) : (String.length t =? 0)%nat = String.eqb t "".
Proof. by destruct t. Qed.

Lemma not_truthy (t : string) : negb (JS.truthy t) = String.eqb t "".
Proof. unfold JS.truthy. apply negb_involutive. Qed.

Lemma blank_documentText (t : string) :
  negb (JS.truthy t) || (String.length (JS.trim t) =? 0)%nat = String.eqb (JS.trim t) "".
Proof.
  rewrite length_0_eqb. unfold JS.truthy. rewrite negb_involutive.
  destruct (String.eqb_spec t "") as [->|]; done.
Qed.

Section CallShape.
Context {W : Type} (respond : forall q : Request, W -> Response q * W).
Context (P : PromptText) (J : JsonParse).

(** X15.  Every operation of the gateway leaves the state alone, sends at
    most one request to the provider, and ends with a call of [logAiCall]
    for the same user and endpoint.  The classification and the completeness
    analysis always ask the provider.  The project details are not asked for
    a blank text: the call is then logged as a success under the model [N/A]
    with the caller's estimates.  A report is generated by [gemini-2.5-pro],
    and not asked for when no processed document has text: that call is
    logged as a failure.  A report is not reformatted when its content is
    blank: that call is logged twice, both times as a success with the
    caller's estimates. *)
Theorem gateway_calls_are_logged_once_or_twice userId i o e s w :
  let flash := "gemini-2.5-flash" in
  let asked {R} (t : App R) (model prompt : string) :=
    let r := run exec respond t s w in
    stateOf r = s
    /\ exists lg, requestsOf r = [GeminiGenerate model prompt; LogAiCall userId lg]
                  /\ log_model lg = model /\ log_apiEndpointType lg = e in
  (forall text, asked (classifyDocument P userId text i o e) flash
                  (classifyDocument_prompt P text))
  /\ (forall uploaded required,
        asked (analyzeDocumentCompleteness P J userId uploaded required i o e) flash
          (completenessPrompt P required uploaded))
  /\ (forall text,
        let t := extractProjectDetailsAndScenario P J userId text i o e in
        if String.eqb (JS.trim text) ""
        then run exec respond t s w
             = (Returned (Details noDetails), s,
                (respond (LogAiCall userId (mkLogCall "N/A" e i o true None)) w).2,
                [LogAiCall userId (mkLogCall "N/A" e i o true None)])
        else asked t flash (extractProjectDetailsAndScenario_prompt P text))
  /\ (forall project format,
        let t := generateReport P J userId project format i o e in
        let lg := mkLogCall "gemini-2.5-pro" e i o false None in
        if String.eqb (aggregateText (documents project)) ""
        then run exec respond t s w
             = (Returned (reportError "No processed documents found to generate report."), s,
                (respond (LogAiCall userId lg) w).2, [LogAiCall userId lg])
        else asked t "gemini-2.5-pro" (generateReport_prompt P project format))
  /\ (forall content format instructions,
        let t := reformatReport P userId content format instructions i o e in
        let lg1 := mkLogCall "N/A" e i o true None in
        let lg2 := mkLogCall flash e i o true None in
        if String.eqb (JS.trim content) ""
        then let r := run exec respond t s w in
             outcomeOf r = Returned (reportError "No content provided for re-formatting.")
             /\ stateOf r = s
             /\ requestsOf r = [LogAiCall userId lg1; LogAiCall userId lg2]
        else asked t flash (reformatReport_prompt P content format instructions)).
Proof.
  cbn zeta. split_and!.
  - intros text. unfold classifyDocument.
    rewrite run_bind, (run_await respond (GeminiGenerate _ _)). cbn beta iota zeta.
    rewrite logged_run. split; [done|]. eexists. split; [done|].
    unfold classifyDocument_outcome, logFlash. by repeat case_match.
  - intros uploaded required. unfold analyzeDocumentCompleteness.
    rewrite run_bind, (run_await respond (GeminiGenerate _ _)). cbn beta iota zeta.
    rewrite logged_run. split; [done|]. eexists. split; [done|].
    unfold analyzeDocumentCompleteness_outcome, logFlash. by repeat case_match.
  - intros text. unfold extractProjectDetailsAndScenario,
      extractProjectDetailsAndScenario_local. rewrite blank_documentText.
    destruct (String.eqb (JS.trim text) ""); [by rewrite logged_run|].
    rewrite run_bind, (run_await respond (GeminiGenerate _ _)). cbn beta iota zeta.
    rewrite logged_run. split; [done|]. eexists. split; [done|].
    unfold extractProjectDetailsAndScenario_outcome, logFlash. by repeat case_match.
  - intros project format. unfold generateReport, generateReport_local.
    rewrite not_truthy.
    destruct (String.eqb (aggregateText (documents project)) "").
    + by rewrite logged_run.
    + cbn beta iota. rewrite run_bind, (run_await respond (GeminiGenerate _ _)).
      cbn beta iota zeta.
      rewrite logged_run. split; [done|]. eexists. split; [done|].
      unfold generateReport_outcome, logPro. by repeat case_match.
  - intros content format instructions. unfold reformatReport, reformatReport_local.
    rewrite not_truthy.
    destruct (String.eqb (JS.trim content) "").
    + rewrite run_bind, (run_await respond (LogAiCall _ _)). cbn beta iota zeta.
      by rewrite logged_run.
    + cbn beta iota. rewrite run_bind, (run_await respond (GeminiGenerate _ _)).
      cbn beta iota zeta.
      rewrite logged_run. split; [done|]. eexists. split; [done|].
      unfold reformatReport_outcome, logFlash. by repeat case_match.
Qed.
End CallShape.

(** ** What an allowance check does *)

Ltac verdict :=
  cbn -[Z.gtb];
  split_and!;
  [ first [ eexists true; split; reflexivity
          | eexists false; split; [reflexivity|eexists; split; [|reflexivity]; discriminate] ]
  | first [ intros _; split; reflexivity | intros H; by destruct H ]
  | intros q Hq; cbn in Hq;
    repeat (destruct Hq as [<-|Hq]; [by eexists|]); by destruct Hq ].

Section AllowanceCheck.
Context {W : Type} (respond : forall q : Request, W -> Response q * W).

(** X16.  [checkApiAllowance] returns a verdict and never throws.  When it
    allows, the state is untouched; when it refuses, it shows an error toast
    that names the reason, and changes nothing else.  A check other than
    that of a report generation makes no request; every request of that one
    goes to the store or the clock. *)
Theorem allowance_check_refuses_with_a_toast s usageType value s1 w :
  let r := run exec respond (checkApiAllowance s usageType value) s1 w in
  (exists allowed, outcomeOf r = Returned allowed
     /\ if (allowed : bool) then stateOf r = s1
        else exists m, m <> NoMessage
               /\ stateOf r = withToast (Some (m, toast_error)) s1)
  /\ (usageType <> STR_GEN -> requestsOf r = [] /\ worldOf r = w)
  /\ (forall q, In q (requestsOf r) -> exists q', q = Sys q').
Proof.
  cbn zeta. unfold checkApiAllowance.
  destruct (userApiLimits s) as [l|]; [|verdict].
  destruct (userPlan s) as [p|]; [|verdict].
  destruct (user s) as [u|]; [|verdict].
  destruct usageType; cbn -[Z.gtb].
  - (* STR_GEN *)
    destruct (_ >? _); [verdict|]. cbn -[Z.gtb].
    destruct (respond (Sys Now) w) as [today w1]. cbn -[Z.gtb].
    destruct (respond (Sys (SelectDailyUsage _ _)) w1) as [daily w2].
    destruct daily as [row| |m]; cbn -[Z.gtb]; try destruct (_ >? _); verdict.
  - destruct (_ >? _); verdict.
  - destruct (_ >? _); verdict.
  - destruct (_ >? _); verdict.
  - destruct (_ >? _); verdict.
  - verdict.
Qed.
End AllowanceCheck.

(** ** What a job can touch *)


Lemma performs_bind {A B} (X : Action -> Prop) (m : App A) (f : A -> App B) :
  performs X m -> (forall a, performs X (f a)) -> performs X (m ≫= f).
Proof.
  intros Hm Hf. induction m as [r|e|a k IH|q k IH]; cbn in *; [apply Hf|done| |].
  - destruct Hm as [Ha Hk]. split; [done|by apply IH].
  - intros x. apply IH, Hm.
Qed.

Lemma performs_try_catch {A} (X : Action -> Prop) (m : App A) h :
  performs X m -> (forall e, performs X (h e)) -> performs X (try_catch m h).
Proof.
  intros Hm Hh. induction m as [r|e|a k IH|q k IH]; cbn in *; [done|apply Hh| |].
  - destruct Hm as [Ha Hk]. split; [done|by apply IH].
  - intros x. apply IH, Hm.
Qed.


Lemma performs_perform (X : Action -> Prop) a : X a -> performs X (perform a).
Proof. by split. Qed.

Lemma performs_logged {R} (X : Action -> Prop) userId (r : R * LogCall) :
  performs X (logged userId r).
Proof. by intros x. Qed.

Lemma performs_checkApiAllowance (X : Action -> Prop) s usageType value :
  (forall m ty, X (SetToast m ty)) -> performs X (checkApiAllowance s usageType value).
Proof.
  intros HX. unfold checkApiAllowance.
  destruct (userApiLimits s), (userPlan s), (user s); try (by split).
  destruct usageType; cbn -[Z.gtb]; repeat case_match; cbn -[Z.gtb]; try done;
    try (by split); intros today daily; repeat case_match; cbn; try done; by split.
Qed.

Lemma performs_tokensRefused (X : Action -> Prop) s i o :
  (forall m ty, X (SetToast m ty)) -> performs X (tokensRefused s i o).
Proof.
  intros HX. unfold tokensRefused. apply performs_bind.
  - by apply performs_checkApiAllowance.
  - intros okIn. destruct (negb okIn); [done|]. apply performs_bind; [|done].
    by apply performs_checkApiAllowance.
Qed.

Lemma onlyDocumentChanged_refl pid did ps : onlyDocumentChanged pid did ps ps.
Proof.
  unfold onlyDocumentChanged. apply Forall2_same_length_lookup_2; [done|].
  intros i p p' Hp Hp'. simplify_eq. split; [by destruct p|].
  apply Forall2_same_length_lookup_2; [done|].
  intros j d d' Hd Hd'. simplify_eq. split; [by destruct d|done].
Qed.

Lemma onlyDocumentChanged_trans pid did ps1 ps2 ps3 :
  onlyDocumentChanged pid did ps1 ps2 -> onlyDocumentChanged pid did ps2 ps3 ->
  onlyDocumentChanged pid did ps1 ps3.
Proof.
  unfold onlyDocumentChanged. intros H12. revert ps3.
  induction H12 as [|p1 p2 ps1 ps2 [Hp Hd] _ IH]; intros ps3 H23.
  - by inversion H23.
  - inversion H23 as [|? p3 ? ps3' [Hp' Hd'] H23']; subst. constructor; [|by apply IH].
    assert (Eid : proj_id p2 = proj_id p1) by (by rewrite <- Hp).
    split.
    + rewrite <- Hp at 2. rewrite <- Hp'. by destruct p3.
    + clear -Hd Hd' Eid. revert Hd'. generalize (documents p3).
      induction Hd as [|d1 d2 ds1 ds2 [Hf Hsame] _ IHd]; intros ds3 Hd'.
      * by inversion Hd'.
      * inversion Hd' as [|? d3 ? ds3' [Hf' Hsame'] Hd'']; subst.
        constructor; [|by apply IHd].
        assert (Edid : doc_id d2 = doc_id d1) by (by rewrite <- Hf).
        split.
        -- rewrite <- Hf at 5. rewrite <- Hf'. by destruct d3.
        -- intros Hne. rewrite Hsame' by (by rewrite Eid, Edid). by apply Hsame.
Qed.

Lemma onlyDocumentChanged_mapDocument pid did f ps :
  (forall d, patchDocument (f d) (docTypes d) (status d) (extractedText d) (error d) = d) ->
  onlyDocumentChanged pid did ps (mapDocument pid did f ps).
Proof.
  intros Hf. unfold onlyDocumentChanged, mapDocument, mapProject.
  induction ps as [|p ps IH]; [constructor|]. cbn [map]. constructor; [|done].
  destruct (String.eqb_spec (proj_id p) pid) as [Ep|Ep].
  - split; [by destruct p|]. cbn [documents withDocuments].
    induction (documents p) as [|d ds IHd]; [constructor|]. cbn [map]. constructor; [|done].
    destruct (String.eqb_spec (doc_id d) did) as [Ed|Ed].
    + split; [apply Hf|]. intros [?|?]; congruence.
    + split; [by destruct d|done].
  - pose proof (onlyDocumentChanged_refl pid did [p]) as H. by inversion H.
Qed.

Lemma patch_markStatus st d :
  patchDocument (markStatus st d) (docTypes d) (status d) (extractedText d) (error d) = d.
Proof. by destruct d. Qed.

Lemma patch_markUnsupported d :
  patchDocument (markUnsupported d) (docTypes d) (status d) (extractedText d) (error d) = d.
Proof. by destruct d. Qed.

Lemma patch_markClassifying text d :
  patchDocument (markClassifying text d) (docTypes d) (status d) (extractedText d) (error d)
  = d.
Proof. by destruct d. Qed.

Lemma patch_markProcessed docType d :
  patchDocument (markProcessed docType d) (docTypes d) (status d) (extractedText d) (error d)
  = d.
Proof. by destruct d. Qed.

Lemma patch_markError message fallback d :
  patchDocument (markError message fallback d) (docTypes d) (status d) (extractedText d)
    (error d) = d.
Proof. by destruct d. Qed.

Section JobFrame.
Context (P : PromptText).

Lemma performs_processSingleDocument s projectId documentId file :
  performs (pipelineAction projectId documentId)
    (processSingleDocument P s projectId documentId file).
Proof.
  set (pid := projectId). set (did := documentId).
  assert (Hset : forall f,
            (forall d, patchDocument (f d) (docTypes d) (status d) (extractedText d) (error d)
                       = d) ->
            performs (pipelineAction pid did) (perform (SetProjects (mapDocument pid did f)))).
  { intros f Hf. apply performs_perform. intros ps.
    by apply onlyDocumentChanged_mapDocument. }
  unfold processSingleDocument. destruct (user s) as [u|]; [|done].
  apply performs_try_catch.
  - apply performs_bind; [apply Hset, patch_markStatus|]. intros _.
    apply performs_bind; [by apply performs_tokensRefused|]. intros [|]; [done|].
    apply performs_bind.
    { unfold extractTextFromFile. case_match; [apply performs_logged|].
      intros x. apply performs_logged. }
    intros text. repeat case_match; try done.
    + apply performs_bind; [apply Hset, patch_markUnsupported|]. intros _.
      by apply performs_bind; [apply performs_perform|].
    + apply performs_bind; [apply Hset, patch_markClassifying|]. intros _.
      apply performs_bind; [by apply performs_tokensRefused|]. intros [|]; [done|].
      apply performs_bind.
      { unfold classifyDocument. intros x. apply performs_logged. }
      intros docType. case_match; [done|].
      apply performs_bind; [apply Hset, patch_markProcessed|]. intros _.
      by apply performs_bind; [apply performs_perform|].
  - intros message. apply performs_bind; [apply Hset, patch_markError|]. intros _.
    by case_match.
Qed.



End JobFrame.

(** ** The caps on an upload *)

Lemma fold_uploadFile userPlan projectId files toasts docs total :
  fold_left (uploadFile userPlan projectId) files (toasts, docs, total)
  = (toasts ++ map (fun f => FileExceedsLimit (file_name (nf_file f)) (file_size (nf_file f))
                               (max_file_size_mb_per_document userPlan))
                 (List.filter (fun f => exceedsMB (file_size (nf_file f))
                                          (max_file_size_mb_per_document userPlan)) files),
     docs ++ map (uploadingDocument projectId) (accepted userPlan files),
     total + totalBytes (accepted userPlan files)).
Proof.
  revert toasts docs total. unfold accepted, totalBytes.
  induction files as [|f files IH]; intros toasts docs total; cbn [fold_left List.filter map].
  - cbn. by rewrite !app_nil_r, Z.add_0_r.
  - unfold uploadFile at 2. destruct (exceedsMB _ _); cbn [negb map fold_right]; rewrite IH.
    + by rewrite <- app_assoc.
    + rewrite <- app_assoc. cbn [app]. f_equal. lia.
Qed.

Lemma exceedsMB_spec bytes cap :
  exceedsMB bytes cap = bool_decide (cap <> 0 /\ bytes > cap * (1024 * 1024)).
Proof.
  unfold exceedsMB. destruct (Z.eqb_spec cap 0).
  - symmetry. apply bool_decide_eq_false. tauto.
  - destruct (Z.gtb_spec bytes (cap * (1024 * 1024))).
    + symmetry. apply bool_decide_eq_true. split; [done|lia].
    + symmetry. apply bool_decide_eq_false. lia.
Qed.

(** X18.  [handleDocumentUpload] never adds a document over the plan's caps.
    Without a loaded plan it adds nothing.  Otherwise every file larger than
    the cap on one document is skipped with a toast that names it, and the
    others are taken together: when their total is over the cap on a batch,
    nothing is added; else each becomes a document of the project, in the
    order of the files, in status [Uploading] with progress 0, appended
    after the documents the project has; no other project changes.  A cap of
    0 is no cap. *)
Theorem upload_respects_the_caps userPlan projectId files :
  handleDocumentUpload None projectId files = ([UploadPlanNotLoaded], None)
  /\ let r := handleDocumentUpload (Some userPlan) projectId files in
     let capDoc := max_file_size_mb_per_document userPlan in
     let capBatch := max_total_upload_mb_per_str userPlan in
     let taken := accepted userPlan files in
     (forall f, In f files ->
        if bool_decide (capDoc <> 0 /\ file_size (nf_file f) > capDoc * (1024 * 1024))
        then ~ In f taken
             /\ In (FileExceedsLimit (file_name (nf_file f)) (file_size (nf_file f)) capDoc) r.1
        else In f taken)
     /\ if bool_decide (capBatch <> 0 /\ totalBytes taken > capBatch * (1024 * 1024))
        then r.2 = None /\ last r.1 = Some (BatchExceedsLimit (totalBytes taken) capBatch)
        else exists update, r.2 = Some update
               /\ (forall ps, map proj_id (update ps) = map proj_id ps)
               /\ forall ps p, In p ps ->
                    In (if String.eqb (proj_id p) projectId
                        then withDocuments p
                               (documents p ++ map (uploadingDocument projectId) taken)
                        else p) (update ps).
Proof.
  split; [done|]. cbn zeta. unfold handleDocumentUpload.
  rewrite fold_uploadFile. cbn [app]. rewrite Z.add_0_l.
  set (taken := accepted userPlan files).
  set (skipped := map _ (List.filter _ files)).
  assert (Hskipped : forall f, In f files ->
            exceedsMB (file_size (nf_file f)) (max_file_size_mb_per_document userPlan) = true ->
            In (FileExceedsLimit (file_name (nf_file f)) (file_size (nf_file f))
                  (max_file_size_mb_per_document userPlan)) skipped).
  { intros f Hf Hx. apply in_map_iff. exists f. split; [done|]. apply filter_In. by split. }
  clearbody skipped.
  rewrite <- exceedsMB_spec.
  destruct (exceedsMB (totalBytes taken) (max_total_upload_mb_per_str userPlan));
    cbn [fst snd]; split.
  - intros f Hf. rewrite <- exceedsMB_spec.
    destruct (exceedsMB (file_size (nf_file f)) _) eqn:Ex.
    + split.
      * unfold taken, accepted. intros [_ H]%filter_In. by rewrite Ex in H.
      * apply in_or_app. left. by apply Hskipped.
    + unfold taken, accepted. apply filter_In. by rewrite Ex.
  - split; [done|]. by rewrite last_snoc.
  - intros f Hf. rewrite <- exceedsMB_spec.
    destruct (exceedsMB (file_size (nf_file f)) _) eqn:Ex.
    + split.
      * unfold taken, accepted. intros [_ H]%filter_In. by rewrite Ex in H.
      * by apply Hskipped.
    + unfold taken, accepted. apply filter_In. by rewrite Ex.
  - eexists. split; [done|]. split.
    + intros ps. unfold mapProject. rewrite map_map. apply map_ext. intros p.
      by destruct (String.eqb (proj_id p) projectId).
    + intros ps p Hp. unfold mapProject. apply in_map_iff. by exists p.
Qed.

(** ** The job in flight belongs to the head of the queue *)

Lemma windingUp_try_catch (k : App unit) h : windingUp k -> try_catch k h = k.
Proof.
  induction k as [r|e|a k IH|q k IH]; cbn; [done|done| |done].
  destruct a; try done. intros Hk. by rewrite IH.
Qed.

Lemma jobOf_try_catch pid did (m : App unit) h :
  jobOf pid did m -> (forall e, jobOf pid did (h e)) -> jobOf pid did (try_catch m h).
Proof.
  intros Hm Hh. induction m as [r|e|a k IH|q k IH]; cbn in *; [done|apply Hh| |].
  - destruct a; try (destruct Hm as [Ha Hk]; split; [done|by apply IH]).
    destruct Hm as [Hf Hk]. split; [done|]. by rewrite windingUp_try_catch.
  - intros x. apply IH, Hm.
Qed.

Lemma jobOf_bind {A} pid did (m : App A) (f : A -> App unit) :
  performs (pipelineAction pid did) m -> (forall r, jobOf pid did (f r)) ->
  jobOf pid did (m ≫= f).
Proof.
  intros Hm Hf. induction m as [r|e|a k IH|q k IH]; cbn in *; [apply Hf|done| |].
  - destruct Hm as [Ha Hk]. destruct a; try done; split; try done; by apply IH.
  - intros x. apply IH, Hm.
Qed.

Lemma jobOf_job P s nextItem :
  jobOf (item_projectId nextItem) (item_documentId nextItem) (job P s nextItem).
Proof.
  unfold job. apply jobOf_try_catch.
  - apply jobOf_bind; [apply performs_processSingleDocument|].
    intros [| |]; cbn; done.
  - intros message. unfold onUncaught. cbn. split; [|done].
    intros ps. apply onlyDocumentChanged_mapDocument, patch_markError.
Qed.

Lemma worker_jobOf P s t :
  worker P s = Some t ->
  exists nextItem rest,
    processingQueue s = nextItem :: rest
    /\ jobOf (item_projectId nextItem) (item_documentId nextItem) t.
Proof.
  unfold worker. destruct (user s); [|done]. destruct (isProcessing s); [done|].
  cbn [negb]. destruct (processingQueue s) as [|nextItem rest]; [done|].
  destruct (findDocument _ _ _); intros [= <-]; exists nextItem, rest; (split; [done|]).
  - cbn. split; [done|]. apply jobOf_job.
  - by cbn.
Qed.

Lemma advance_windingUp (k : App unit) s :
  windingUp k ->
  suspended (advance exec k s).1 = []
  /\ processingQueue (advance exec k s).2 = processingQueue s
  /\ projects (advance exec k s).2 = projects s.
Proof.
  revert s. induction k as [r|e|a k IH|q k IH]; intros s; cbn; [done|done| |done].
  destruct a; try done. intros Hk. by destruct (IH (exec (SetIsProcessing b) s) Hk) as (? & ? & ?).
Qed.

(** A job that goes on, up to its next [await] or to its end. *)
Lemma advance_jobOf pid did (t : App unit) s nextItem rest :
  jobOf pid did t ->
  processingQueue s = nextItem :: rest ->
  let r := advance exec t s in
  onlyDocumentChanged pid did (projects s) (projects r.2)
  /\ ((processingQueue r.2 = nextItem :: rest
       /\ forall t', In t' (suspended r.1) -> jobOf pid did t')
      \/ (processingQueue r.2 = rest /\ suspended r.1 = [])).
Proof.
  cbn zeta. revert s. induction t as [r|e|a k IH|q k IH]; intros s Ht Hq.
  - cbn. split; [apply onlyDocumentChanged_refl|]. left. by split.
  - cbn. split; [apply onlyDocumentChanged_refl|]. left. by split.
  - cbn [advance].
    assert (Hstep : jobAction pid did a -> jobOf pid did k ->
              processingQueue (exec a s) = processingQueue s ->
              onlyDocumentChanged pid did (projects s) (projects (exec a s)) ->
              onlyDocumentChanged pid did (projects s) (projects (advance exec k (exec a s)).2)
              /\ ((processingQueue (advance exec k (exec a s)).2 = nextItem :: rest
                   /\ forall t', In t' (suspended (advance exec k (exec a s)).1) ->
                                 jobOf pid did t')
                  \/ (processingQueue (advance exec k (exec a s)).2 = rest
                      /\ suspended (advance exec k (exec a s)).1 = []))).
    { intros Ha Hk Hq' Hps. destruct (IH (exec a s) Hk) as [H1 H2]; [congruence|].
      split; [|done]. eapply onlyDocumentChanged_trans; [exact Hps|exact H1]. }
    destruct a; cbn in Ht; destruct Ht as [Ha Hk]; try done;
      try (apply Hstep; [done|done|done|cbn; apply onlyDocumentChanged_refl]).
    + apply Hstep; [done|done|done|]. cbn. apply Ha.
    + subst f. destruct (advance_windingUp k (exec (SetProcessingQueue (drop 1)) s) Hk)
        as (Hs & Hq' & Hp).
      rewrite Hp, Hq', Hs. cbn [exec processingQueue projects]. rewrite Hq.
      split; [apply onlyDocumentChanged_refl|]. by right.
  - cbn. split; [apply onlyDocumentChanged_refl|]. left. split; [done|].
    intros t' [<-|[]]. exact Ht.
Qed.

(** An event that leaves the jobs alone and at most appends to the queue. *)
Lemma headJob_setApp s' m :
  (exists new, processingQueue s' = processingQueue (app m) ++ new) ->
  headJob m -> headJob (setApp s' m).
Proof.
  intros [new Hq] Hm t Ht. destruct (Hm t Ht) as (nextItem & rest & Hq0 & Hj).
  exists nextItem, (rest ++ new). split; [|done]. cbn. by rewrite Hq, Hq0.
Qed.

Lemma step_headJob P e m m' :
  oneJob m -> headJob m -> step P e m = Some m' -> headJob m'.
Proof.
  intros Ho Hm.
  assert (Hsame : forall s', processingQueue s' = processingQueue (app m) ->
                             headJob (setApp s' m)).
  { intros s' Hq. apply headJob_setApp; [|done]. exists []. by rewrite app_nil_r. }
  destruct e; cbn.
  - (* the worker effect *)
    destruct (worker P (app m)) as [t|] eqn:Hw; [|by intros [= <-]].
    destruct (oneJob_cases m Ho) as [[Hj Hs]|(q & k & Hj & Hb & Hk)]; rewrite Hj.
    + destruct (worker_jobOf P _ _ Hw) as (nextItem & rest & Hq & Ht).
      pose proof (advance_jobOf _ _ t (app m) nextItem rest Ht Hq) as [_ H].
      destruct (advance exec t (app m)) as [t' s']. cbn in H. intros [= <-].
      intros t0 Hin. cbn in Hin |- *. destruct H as [[Hq' Hj']|[_ Hnone]].
      * exists nextItem, rest. split; [done|]. by apply Hj'.
      * by rewrite Hnone in Hin.
    + destruct Hb as [Hb _]. unfold worker in Hw. rewrite Hb in Hw.
      by destruct (user (app m)).
  - (* a job is resumed *)
    destruct (oneJob_cases m Ho) as [[Hj Hs]|(q & k & Hj & Hb & Hk)]; rewrite Hj;
      [by destruct i|].
    destruct i as [|i]; cbn; [|by destruct i].
    destruct (answerFor q a) as [x|]; [|done]. cbn.
    destruct (Hm (Await q k)) as (nextItem & rest & Hq & Ht); [rewrite Hj; by left|].
    pose proof (advance_jobOf _ _ (k x) (app m) nextItem rest (Ht x) Hq) as [_ H].
    destruct (advance exec (k x) (app m)) as [t' s']. cbn in H. intros [= <-].
    intros t0 Hin. cbn in Hin |- *. rewrite app_nil_r in Hin.
    destruct H as [[Hq' Hj']|[_ Hnone]].
    + exists nextItem, rest. split; [done|]. by apply Hj'.
    + by rewrite Hnone in Hin.
  - (* a timer fires *)
    destruct (timers (app m) !! i) as [[cb ms]|]; [|done].
    destruct cb; intros [= <-]; by apply Hsame.
  - case_match; [|done]. intros [= <-]. by apply Hsame.
  - intros [= <-]. apply headJob_setApp; [|done]. by eexists.
  - intros [= <-]. by apply Hsame.
  - case_match; [|done]. intros [= <-]. apply headJob_setApp; [|done]. by eexists.
  - intros [= <-]. by apply Hsame.
  - intros [= <-]. by apply Hsame.
  - intros [= <-]. by apply Hsame.
  - case_match; [|done]. intros [= <-]. by apply Hsame.
  - case_match; [|done]. case_match; [|done]. intros [= <-]. by apply (Hsame (app m)).
  - case_match; [|done]. intros [= <-]. intros t Ht. by apply (Hm t).
  - intros [= <-]. by apply Hsame.
  - intros [= <-]. by apply Hsame.
  - intros [= <-]. by apply Hsame.
Qed.

Lemma steps_headJob P es m m' :
  oneJob m -> headJob m -> steps P es m = Some m' -> oneJob m' /\ headJob m'.
Proof.
  revert m. induction es as [|e es IH]; intros m Ho Hm; cbn.
  - by intros [= <-].
  - destruct (step P e m) as [m1|] eqn:E; [|done]. cbn.
    apply IH; [by eapply step_oneJob|by eapply step_headJob].
Qed.

(** X19.  In every state that the application reaches from its start, by any
    sequence of user events, timer firings, worker runs and answers, the job
    in flight is the job of the item at the head of the queue.  When it is
    resumed, whatever the answer, it runs to its next [await] or to its end
    and changes nothing of the projects but the types, the status, the text
    and the error of the head's document; it takes no item off the queue but
    that head, and only as it ends; the items queued behind it stay in their
    order. *)
Theorem job_in_flight_is_the_job_of_the_head P loaded es m i a m' :
  steps P es (initial loaded) = Some m ->
  step P (Resume i a) m = Some m' ->
  exists nextItem rest,
    processingQueue (app m) = nextItem :: rest
    /\ onlyDocumentChanged (item_projectId nextItem) (item_documentId nextItem)
         (projects (app m)) (projects (app m'))
    /\ (processingQueue (app m') = nextItem :: rest
        \/ (processingQueue (app m') = rest /\ jobs m' = [])).
Proof.
  intros Hsteps.
  destruct (steps_headJob P es (initial loaded) m) as [Ho Hm]; [done|by intros t []|done|].
  cbn. destruct (oneJob_cases m Ho) as [[Hj Hs]|(q & k & Hj & Hb & Hk)]; rewrite Hj;
    [by destruct i|].
  destruct i as [|i]; cbn; [|by destruct i].
  destruct (answerFor q a) as [x|]; [|done]. cbn.
  destruct (Hm (Await q k)) as (nextItem & rest & Hq & Ht); [rewrite Hj; by left|].
  pose proof (advance_jobOf _ _ (k x) (app m) nextItem rest (Ht x) Hq) as [Hps H].
  destruct (advance exec (k x) (app m)) as [t' s']. cbn in H, Hps. intros [= <-].
  exists nextItem, rest. cbn. split_and!; [done|done|].
  destruct H as [[Hq' _]|[Hq' Hnone]]; [by left|right]. by rewrite Hnone.
Qed.

(** The witness of [job_in_flight_is_the_job_of_the_head]: in the sample
    session the deed has been labelled; when the log call of the
    classification is answered, the deed's job ends and the tax receipt is the
    head. *)
Lemma job_in_flight_is_the_job_of_the_head_witness :
  exists m m',
    steps Sample.prompts (Sample.fromTheStart ++ [Resume 0 (Sample.labelled "Sale Deed")])
      (initial []) = Some m
    /\ step Sample.prompts (Resume 0 ALogged) m = Some m'
    /\ map item_documentId (processingQueue (app m')) = ["doc_tax"]
    /\ exists nextItem rest,
         processingQueue (app m) = nextItem :: rest
         /\ onlyDocumentChanged (item_projectId nextItem) (item_documentId nextItem)
              (projects (app m)) (projects (app m'))
         /\ (processingQueue (app m') = nextItem :: rest
             \/ (processingQueue (app m') = rest /\ jobs m' = [])).
Proof.
  assert (H : (fun o => match o with
                        | Some m' => map item_documentId (processingQueue (app m'))
                        | None => []
                        end)
                (steps Sample.prompts
                   (Sample.fromTheStart ++ [Resume 0 (Sample.labelled "Sale Deed")])
                   (initial [])
                 ≫= step Sample.prompts (Resume 0 ALogged))
              = ["doc_tax"]) by (by vm_compute).
  revert H.
  destruct (steps Sample.prompts _ (initial [])) as [m|] eqn:E; [|done]. cbn [mbind option_bind].
  destruct (step Sample.prompts (Resume 0 ALogged) m) as [m'|] eqn:E'; [|done].
  intros H. exists m, m'. split_and!; [done|done|exact H|].
  exact (job_in_flight_is_the_job_of_the_head Sample.prompts [] _ m 0%nat ALogged m' E E').
Defined.
